(** * Grocery store system: stock ledger, sale processor, totals calculator

    A shallow embedding of [modules/inventory.py], [modules/sales.py],
    the parts of [database/db_connection.py] they call and of [config.py],
    with the properties of the stock ledger and of the sale processor.

    Layout:
    - [Binary64]: Python floats (IEEE 754 binary64, round to nearest even)
      as exact rationals with the rounding written out, and [round(x, n)];
    - the MySQL tables the two managers touch, the clock, the console, and
      the schedule of driver errors;
    - [Py]: a state-and-exception monad for the managers;
    - the managers themselves;
    - the vocabulary of the properties and a small shop to run them on;
    - [Rounding]: the facts about floats; then the properties. *)

From Stdlib Require Import ZArith QArith Qround Qpower Qreduction Qabs Lia Lqa.
From Stdlib Require Import PrimFloat FloatOps SpecFloat.
From stdpp Require Import gmap strings list pretty.

(** ** Python floats *)

Module Binary64.
Local Open Scope Q_scope.

(** A float is a finite rational, an infinity or a NaN. The two signed zeros
    are identified: none of [+ - * /], the comparisons or [round] as used by
    the program tells them apart. *)
Inductive float : Type :=
  | Fin (q : Q)
  | PInf
  | NInf
  | NaN.

Definition pow2 (e : Z) : Q := 2 ^ e.

(** floor (log2 x), for 0 < x *)
Definition ilog2 (x : Q) : Z :=
  let k := (Z.log2 (Qnum x) - Z.log2 (Zpos (Qden x)))%Z in
  if Qle_bool (pow2 k) x then k else (k - 1)%Z.

(** exponent of the unit in the last place: 53 bits of precision, and
    gradual underflow below 2^-1022 *)
Definition ulp_exp (x : Q) : Z := (Z.max (ilog2 x) (-1022) - 52)%Z.

Definition round_half_even (x : Q) : Z :=
  let f := Qfloor x in
  match Qcompare (x - inject_Z f) (1 # 2) with
  | Lt => f
  | Gt => (f + 1)%Z
  | Eq => if Z.even f then f else (f + 1)%Z
  end.

Definition round_mag (x : Q) : Q :=
  inject_Z (round_half_even (x / pow2 (ulp_exp x))) * pow2 (ulp_exp x).

Definition round_Q (x : Q) : Q :=
  match Qcompare x 0 with
  | Eq => 0
  | Gt => round_mag x
  | Lt => - round_mag (- x)
  end.

(** round to nearest, ties to even, overflow to the infinities *)
Definition rnd (x : Q) : float :=
  let r := Qred (round_Q x) in
  if Qle_bool (pow2 1024) r then PInf
  else if Qle_bool r (- pow2 1024) then NInf
  else Fin r.

Definition fadd (a b : float) : float :=
  match a, b with
  | NaN, _ | _, NaN => NaN
  | PInf, NInf | NInf, PInf => NaN
  | PInf, _ | _, PInf => PInf
  | NInf, _ | _, NInf => NInf
  | Fin x, Fin y => rnd (x + y)
  end.

Definition fsub (a b : float) : float :=
  match a, b with
  | NaN, _ | _, NaN => NaN
  | PInf, PInf | NInf, NInf => NaN
  | PInf, _ | _, NInf => PInf
  | NInf, _ | _, PInf => NInf
  | Fin x, Fin y => rnd (x - y)
  end.

Definition inf_of_sign (c : comparison) : float :=
  match c with
  | Gt => PInf
  | Lt => NInf
  | Eq => NaN
  end.

Definition fmul (a b : float) : float :=
  match a, b with
  | NaN, _ | _, NaN => NaN
  | Fin x, Fin y => rnd (x * y)
  | Fin x, PInf | PInf, Fin x => inf_of_sign (Qcompare x 0)
  | Fin x, NInf | NInf, Fin x => inf_of_sign (Qcompare 0 x)
  | PInf, PInf | NInf, NInf => PInf
  | PInf, NInf | NInf, PInf => NInf
  end.

(** [a / b] for a divisor that is finite and not zero; Python raises
    ZeroDivisionError on a zero divisor, and the program only ever divides
    by the constant 100. *)
Definition fdiv (a b : float) : float :=
  match a, b with
  | NaN, _ | _, NaN => NaN
  | Fin x, Fin y => if Qeq_bool y 0 then NaN else rnd (x / y)
  | Fin _, (PInf | NInf) => Fin 0
  | (PInf | NInf), (PInf | NInf) => NaN
  | PInf, Fin y => inf_of_sign (Qcompare y 0)
  | NInf, Fin y => inf_of_sign (Qcompare 0 y)
  end.

(** [float(n)] for a Python int; OverflowError ([None]) when the nearest
    float would be an infinity. *)
Definition of_int (n : Z) : option float :=
  match rnd (inject_Z n) with
  | Fin q => Some (Fin q)
  | _ => None
  end.

(** the float a decimal literal of the source denotes *)
Definition literal (q : Q) : float := rnd q.

(** comparisons, as Python's [<], [<=], [==]: false on NaN *)
Definition flt (a b : float) : bool :=
  match a, b with
  | NaN, _ | _, NaN => false
  | Fin x, Fin y => negb (Qle_bool y x)
  | _, NInf | PInf, _ => false
  | NInf, _ | _, PInf => true
  end.

Definition fle (a b : float) : bool :=
  match a, b with
  | NaN, _ | _, NaN => false
  | Fin x, Fin y => Qle_bool x y
  | NInf, _ | _, PInf => true
  | _, NInf | PInf, _ => false
  end.

Definition feq (a b : float) : bool :=
  match a, b with
  | Fin x, Fin y => Qeq_bool x y
  | PInf, PInf | NInf, NInf => true
  | _, _ => false
  end.

(** a value a Python float can hold *)
Definition is_float (a : float) : bool :=
  match a with
  | Fin x => feq (rnd x) (Fin x)
  | _ => true
  end.

Definition is_finite (a : float) : bool :=
  match a with
  | Fin _ => true
  | _ => false
  end.

(** [round(x, ndigits)] of a float, for [0 <= ndigits]: the decimal with
    [ndigits] places nearest to the exact value of [x], ties to the even
    last digit, then the float nearest to that decimal; infinities and
    NaNs are returned as they are. *)
Definition py_round (x : float) (ndigits : Z) : float :=
  match x with
  | Fin q =>
      let scale := inject_Z (10 ^ ndigits) in
      rnd (inject_Z (round_half_even (q * scale)) / scale)
  | _ => x
  end.

(** what [rnd] returns, by cases *)
Inductive rnd_view (x : Q) : float -> Prop :=
  | rnd_pinf : pow2 1024 <= round_Q x -> rnd_view x PInf
  | rnd_ninf : round_Q x <= - pow2 1024 -> rnd_view x NInf
  | rnd_fin : round_Q x < pow2 1024 -> - pow2 1024 < round_Q x ->
              rnd_view x (Fin (Qred (round_Q x))).

(** *** The kernel's binary64, to compare with *)

(** The exact value of a primitive float, in this model. *)
Definition of_prim (f : PrimFloat.float) : float :=
  match Prim2SF f with
  | S754_zero _ => Fin 0
  | S754_infinity false => PInf
  | S754_infinity true => NInf
  | S754_nan => NaN
  | S754_finite s m e => Fin (Qred (inject_Z (cond_Zopp s (Z.pos m)) * pow2 e))
  end.

Definition same_float (a b : float) : bool :=
  match a, b with
  | Fin x, Fin y => Z.eqb (Qnum x) (Qnum y) && Pos.eqb (Qden x) (Qden y)
  | PInf, PInf | NInf, NInf | NaN, NaN => true
  | _, _ => false
  end.

Definition agrees (op : float -> float -> float)
    (prim : PrimFloat.float -> PrimFloat.float -> PrimFloat.float)
    (a b : PrimFloat.float) : bool :=
  same_float (op (of_prim a) (of_prim b)) (of_prim (prim a b)).

(** 0.12, 0.05, 22.5, 100, -7.25, 1/3, the least subnormal, the greatest
    float, and the infinities *)
Definition samples : list PrimFloat.float :=
  [ 0x1.eb851eb851eb8p-4; 0x1.999999999999ap-5; 22.5; 100; -7.25;
    0x1.5555555555555p-2; 0x1p-1074; 0x1.fffffffffffffp+1023;
    infinity; neg_infinity ]%float.

Definition sample_pairs : list (PrimFloat.float * PrimFloat.float) :=
  a ← samples; b ← samples; [(a, b)].

End Binary64.

Import Binary64.

(** ** The store, the clock and the console *)

(** What [datetime.now()] and the database server's clock return. *)
Record datetime : Type := mk_datetime {
  year : nat; month : nat; day : nat;
  hour : nat; minute : nat; second : nat
}.

Definition date_of (t : datetime) : nat * nat * nat := (year t, month t, day t).

Definition date_eqb (a b : datetime) : bool :=
  Nat.eqb (year a) (year b) && Nat.eqb (month a) (month b)
  && Nat.eqb (day a) (day b).

(** a row of [products]: the columns the ledger reads and writes *)
Record product : Type := mk_product {
  p_product_name : string;
  p_stock_quantity : Z
}.

(** a row of [inventory_transactions], as [log_query] fills it *)
Record inventory_transaction : Type := mk_inventory_transaction {
  it_product_id : Z;
  it_transaction_type : string;
  it_quantity_change : Z;
  it_previous_stock : Z;
  it_new_stock : Z;
  it_reference_id : option Z;
  it_notes : option string;
  it_user_id : option Z
}.

(** Modelled from the spec: the table definitions are not part of the
    sources. A row of [sales] has the columns [sale_query] fills, and two
    the store fills itself: [s_sale_id], the identity it assigns (what
    [cursor.lastrowid] returns), and [s_sale_date], the reading of its
    clock at the insertion (the "timestamp" of the Sale header in the data
    model), which the daily count of [generate_sale_number] reads. *)
Record sale : Type := mk_sale {
  s_sale_id : Z;
  s_sale_number : string;
  s_customer_name : option string;
  s_customer_phone : option string;
  s_subtotal : float;
  s_tax_amount : float;
  s_discount_amount : float;
  s_total_amount : float;
  s_payment_method : string;
  s_cashier_id : option Z;
  s_sale_date : datetime
}.

(** a row of [sale_items], as [item_query] fills it *)
Record sale_item : Type := mk_sale_item {
  si_sale_id : option Z;
  si_product_id : Z;
  si_quantity : Z;
  si_unit_price : float;
  si_subtotal : float
}.

Record db : Type := mk_db {
  products : gmap Z product;
  inventory_transactions : list inventory_transaction;
  sales : list sale;
  sale_items : list sale_item;
  sales_auto_increment : Z
}.

(** A [mysql.connector.Error] with its message, and where it is raised:
    when the connection is taken from the pool, or by the statement once a
    connection is there. *)
Inductive fault : Type :=
  | pool_error (message : string)
  | statement_error (message : string).

Definition message_of (f : fault) : string :=
  match f with
  | pool_error message => message
  | statement_error message => message
  end.

(** The world a call runs in: the committed tables; the clock ([now] is the
    next reading, [later] the readings after it, the last one repeating);
    what was printed; and, for each coming call of the driver, whether it
    succeeds ([None], also once the list is used up) or raises
    [mysql.connector.Error], at the pool or at the statement. *)
Record world : Type := mk_world {
  database : db;
  now : datetime;
  later : list datetime;
  stdout : list string;
  faults : list (option fault)
}.

Definition set_database (d : db) (w : world) : world :=
  mk_world d (now w) (later w) (stdout w) (faults w).

Definition set_faults (f : list (option fault)) (w : world) : world :=
  mk_world (database w) (now w) (later w) (stdout w) f.

(** ** Python calls: state and exceptions *)

Module Py.

Inductive outcome (A : Type) : Type :=
  | Return (a : A)
  | Raise (e : string).
Arguments Return {A} a.
Arguments Raise {A} e.

Definition M (A : Type) : Type := world -> outcome A * world.

Definition ret {A} (a : A) : M A := fun w => (Return a, w).

Definition bind {A B} (c : M A) (k : A -> M B) : M B :=
  fun w =>
    match c w with
    | (Return a, w') => k a w'
    | (Raise e, w') => (Raise e, w')
    end.

Definition raise {A} (e : string) : M A := fun w => (Raise e, w).

(** [try: c except Exception as e: h e] *)
Definition try_except {A} (c : M A) (h : string -> M A) : M A :=
  fun w =>
    match c w with
    | (Return a, w') => (Return a, w')
    | (Raise e, w') => h e w'
    end.

Definition printed (line : string) (w : world) : world :=
  mk_world (database w) (now w) (later w) (stdout w ++ [line]) (faults w).

Definition print (line : string) : M unit := fun w => (Return tt, printed line w).

(** one reading of the clock *)
Definition tick (w : world) : world :=
  match later w with
  | [] => w
  | t :: ts => mk_world (database w) t ts (stdout w) (faults w)
  end.

Definition read_clock : M datetime := fun w => (Return (now w), tick w).

(** the coming call of the driver is over *)
Definition next_call (w : world) : world := set_faults (tail (faults w)) w.

(** [self._pool.get_connection()]: raises when the coming call fails at the
    pool *)
Definition pool_get_connection : M unit :=
  fun w =>
    match faults w with
    | Some (pool_error e) :: _ => (Raise e, next_call w)
    | _ => (Return tt, w)
    end.

(** the cursor's work on a connection that was taken: raises when the
    call fails at the statement *)
Definition driver : M unit :=
  fun w =>
    match faults w with
    | Some (statement_error e) :: _ => (Raise e, next_call w)
    | _ => (Return tt, next_call w)
    end.

Definition get_db : M db := fun w => (Return (database w), w).

Definition put_db (d : db) : M unit := fun w => (Return tt, set_database d w).

End Py.

Import Py.

Declare Scope py_scope.
Delimit Scope py_scope with py.
Notation "x <- c ;; k" := (bind c (fun x => k))
  (at level 100, c at next level, right associativity) : py_scope.
Notation "c ;;; k" := (bind c (fun _ => k))
  (at level 100, right associativity) : py_scope.
Local Open Scope py_scope.
Local Open Scope string_scope.

Definition result_of {A} (r : outcome A * world) : outcome A := fst r.
Definition world_of {A} (r : outcome A * world) : world := snd r.

(** ** database/db_connection.py *)

(** A statement with its parameters bound is what it does to the tables at
    the server's clock reading; a write also yields [cursor.lastrowid]. *)
Definition statement : Type := datetime -> db -> db * Z.
Definition selection (A : Type) : Type := datetime -> db -> option A.

(** [get_connection()]: an error of the pool is printed and raised again *)
Definition get_connection : M unit :=
  try_except pool_get_connection
    (fun e => print ("Error getting connection from pool: " ++ e) ;;; raise e).

(** [execute_query(query, params)] with [fetch=False]: the statement is
    committed and [lastrowid] returned ([None] when it is 0); on an error of
    the driver the transaction is rolled back, so nothing of it is kept,
    the error is printed and raised again. *)
Definition execute_query (query : statement) : M (option Z) :=
  try_except
    (get_connection ;;;
     driver ;;;
     t <- read_clock ;;
     d <- get_db ;;
     let (d', lastrowid) := query t d in
     put_db d' ;;;
     ret (if (lastrowid =? 0)%Z then None else Some lastrowid))
    (fun e => print ("Database error: " ++ e) ;;; raise e).

(** [fetch_one(query, params)]: the first row, or [None] *)
Definition fetch_one {A} (query : selection A) : M (option A) :=
  try_except
    (get_connection ;;;
     driver ;;;
     t <- read_clock ;;
     d <- get_db ;;
     ret (query t d))
    (fun e => print ("Database error in fetch_one: " ++ e) ;;; raise e).

(** *** The statements of the two managers *)

(** SELECT stock_quantity FROM products WHERE product_id = %s *)
Definition stock_query (product_id : Z) : selection Z :=
  fun _ d => p_stock_quantity <$> products d !! product_id.

Definition with_products (ps : gmap Z product) (d : db) : db :=
  mk_db ps (inventory_transactions d) (sales d) (sale_items d)
        (sales_auto_increment d).

(** UPDATE products SET stock_quantity = %s WHERE product_id = %s *)
Definition update_query (new_stock product_id : Z) : statement :=
  fun _ d =>
    (with_products
       (alter (fun p => mk_product (p_product_name p) new_stock)
              product_id (products d)) d,
     0%Z).

(** INSERT INTO inventory_transactions (...) VALUES (...) *)
Definition log_query (row : inventory_transaction) : statement :=
  fun _ d =>
    (mk_db (products d) (inventory_transactions d ++ [row]) (sales d)
           (sale_items d) (sales_auto_increment d),
     Z.of_nat (S (length (inventory_transactions d)))).

(** INSERT INTO sales (...) VALUES (...) *)
Definition sale_query (sale_number : string)
    (customer_name customer_phone : option string)
    (subtotal tax_amount discount_amount total_amount : float)
    (payment_method : string) (cashier_id : option Z) : statement :=
  fun t d =>
    let id := sales_auto_increment d in
    (mk_db (products d) (inventory_transactions d)
           (sales d ++ [mk_sale id sale_number customer_name customer_phone
                                subtotal tax_amount discount_amount
                                total_amount payment_method cashier_id t])
           (sale_items d) (id + 1)%Z,
     id).

(** INSERT INTO sale_items (...) VALUES (...) *)
Definition item_query (row : sale_item) : statement :=
  fun _ d =>
    (mk_db (products d) (inventory_transactions d) (sales d)
           (sale_items d ++ [row]) (sales_auto_increment d),
     Z.of_nat (S (length (sale_items d)))).

Definition sales_on (t : datetime) (d : db) : list sale :=
  filter (fun s => date_eqb (s_sale_date s) t = true) (sales d).

(** SELECT COUNT( * ) FROM sales WHERE DATE(sale_date) = CURDATE() *)
Definition count_query : selection Z :=
  fun t d => Some (Z.of_nat (length (sales_on t d))).

(** ** config.py *)

Record business_config : Type := mk_business_config {
  tax_rate : float;
  currency_symbol : string;
  discount_max : float;
  low_stock_threshold : Z
}.

Definition BUSINESS_CONFIG : business_config :=
  mk_business_config (literal (12 # 100)) "â‚±" (literal (50 # 100)) 10.

(** ** modules/inventory.py *)

Module InventoryManager.

Definition update_stock (product_id quantity_change : Z)
    (transaction_type : string) (user_id reference_id : option Z)
    (notes : option string) : M bool :=
  try_except
    (result <- fetch_one (stock_query product_id) ;;
     match result with
     | None =>
         print ("Product " ++ pretty product_id ++ " not found") ;;;
         ret false
     | Some previous_stock =>
         let new_stock := (previous_stock + quantity_change)%Z in
         if (new_stock <? 0)%Z then
           print ("Insufficient stock. Available: " ++ pretty previous_stock) ;;;
           ret false
         else
           execute_query (update_query new_stock product_id) ;;;
           execute_query
             (log_query
                (mk_inventory_transaction product_id transaction_type
                   quantity_change previous_stock new_stock reference_id
                   notes user_id)) ;;;
           ret true
     end)
    (fun e => print ("Error updating stock: " ++ e) ;;; ret false).

Definition restock_product (product_id quantity : Z) (user_id : option Z)
    (notes : option string) : M bool :=
  update_stock product_id quantity "restock" user_id None notes.

Definition adjust_stock (product_id new_quantity : Z) (user_id : option Z)
    (notes : option string) : M bool :=
  result <- fetch_one (stock_query product_id) ;;
  match result with
  | None => ret false
  | Some current_stock =>
      let quantity_change := (new_quantity - current_stock)%Z in
      update_stock product_id quantity_change "adjustment" user_id None notes
  end.

Definition check_stock_availability (product_id required_quantity : Z)
    : M bool :=
  try_except
    (result <- fetch_one (stock_query product_id) ;;
     match result with
     | Some stock => ret (required_quantity <=? stock)%Z
     | None => ret false
     end)
    (fun e => print ("Error checking stock: " ++ e) ;;; ret false).

End InventoryManager.

(** ** modules/sales.py *)

Record CartItem : Type := mk_CartItem {
  product_id : Z;
  product_name : string;
  barcode : string;
  unit_price : float;
  quantity : Z;
  subtotal : float
}.

(** [CartItem.__init__]: [unit_price * quantity] converts the int to a
    float first, which raises OverflowError ([None]) on an int too large. *)
Definition CartItem_init (product_id : Z) (product_name barcode : string)
    (unit_price : float) (quantity : Z) : option CartItem :=
  q ← of_int quantity;
  Some (mk_CartItem product_id product_name barcode unit_price quantity
                    (fmul unit_price q)).

Definition update_quantity (self : CartItem) (quantity : Z) : option CartItem :=
  q ← of_int quantity;
  Some (mk_CartItem (product_id self) (product_name self) (barcode self)
                    (unit_price self) quantity (fmul (unit_price self) q)).

(** the dictionary [calculate_totals] returns *)
Record totals : Type := mk_totals {
  t_subtotal : float;
  t_discount_percent : float;
  t_discount_amount : float;
  t_tax_amount : float;
  t_total_amount : float
}.

(** The interpreter, as far as the program can tell it: how the builtin
    [sum] adds floats. Up to CPython 3.11 it adds them from the left; from
    3.12 on it carries Neumaier's compensation term along. *)
Inductive cpython : Type :=
  | sums_left_to_right
  | sums_compensated.
Existing Class cpython.

Definition fabs (x : float) : float :=
  match x with
  | Fin q => Fin (Qabs q)
  | NInf => PInf
  | _ => x
  end.

(** one more float in the compensated [sum]: the running sum, and the
    low-order part the additions have lost so far *)
Definition compensated_add (acc : float * float) (x : float) : float * float :=
  let '(f_result, c) := acc in
  let t := fadd f_result x in
  (t, if fle (fabs x) (fabs f_result)
      then fadd c (fadd (fsub f_result t) x)
      else fadd c (fadd (fsub x t) f_result)).

(** [sum(xs)] of floats, starting from the int 0. Left to right: each item
    is added to the sum so far. Compensated: the first item is added to 0,
    the others go through [compensated_add], and at the end the lost part
    is added when it is finite and not zero. *)
Definition py_sum {python : cpython} (xs : list float) : float :=
  match python with
  | sums_left_to_right => fold_left fadd xs (Fin 0)
  | sums_compensated =>
      match xs with
      | [] => Fin 0
      | x :: rest =>
          let '(f_result, c) :=
            fold_left compensated_add rest (fadd (Fin 0) x, Fin 0) in
          if negb (feq c (Fin 0)) && is_finite c then fadd f_result c
          else f_result
      end
  end.

(** [strftime] with zero-padded fields, and [f"{n:04d}"] *)
Fixpoint zeros (n : nat) : string :=
  match n with
  | O => ""
  | S n' => "0" ++ zeros n'
  end.

Definition zfill (width : nat) (s : string) : string :=
  zeros (width - String.length s) ++ s.

Definition format_04d (n : Z) : string :=
  if (n <? 0)%Z then "-" ++ zfill 3 (pretty (- n)%Z) else zfill 4 (pretty n).

Definition strftime_Ymd (t : datetime) : string :=
  zfill 4 (pretty (year t)) ++ zfill 2 (pretty (month t))
  ++ zfill 2 (pretty (day t)).

Definition strftime_HMS (t : datetime) : string :=
  zfill 2 (pretty (hour t)) ++ zfill 2 (pretty (minute t))
  ++ zfill 2 (pretty (second t)).

Module SalesManager.

Definition generate_sale_number : M string :=
  t <- read_clock ;;
  let date_str := strftime_Ymd t in
  try_except
    (result <- fetch_one count_query ;;
     let count := match result with Some c => c | None => 0%Z end in
     ret ("SALE-" ++ date_str ++ "-" ++ format_04d (count + 1)))
    (fun e =>
       print ("Error generating sale number: " ++ e) ;;;
       t' <- read_clock ;;
       ret ("SALE-" ++ date_str ++ "-" ++ strftime_HMS t')).

Definition calculate_totals {python : cpython} (config : business_config)
    (cart_items : list CartItem) (discount_percent : float) : totals :=
  let subtotal := py_sum (map subtotal cart_items) in
  let discount_amount := fmul subtotal (fdiv discount_percent (Fin 100)) in
  let amount_after_discount := fsub subtotal discount_amount in
  let tax_amount := fmul amount_after_discount (tax_rate config) in
  let total_amount := fadd amount_after_discount tax_amount in
  mk_totals (py_round subtotal 2) discount_percent
            (py_round discount_amount 2) (py_round tax_amount 2)
            (py_round total_amount 2).

(** the availability loop of [process_sale]: [true] when every line passes,
    [false] after the message for the first line that does not *)
Fixpoint check_cart (cart_items : list CartItem) : M bool :=
  match cart_items with
  | [] => ret true
  | item :: rest =>
      ok <- InventoryManager.check_stock_availability
              (product_id item) (quantity item) ;;
      if ok then check_cart rest
      else
        print ("Insufficient stock for " ++ product_name item) ;;;
        ret false
  end.

(** the loop over the lines once the header is in *)
Fixpoint record_items (cart_items : list CartItem) (sale_id : option Z)
    (sale_number : string) (cashier_id : option Z) : M unit :=
  match cart_items with
  | [] => ret tt
  | item :: rest =>
      execute_query
        (item_query (mk_sale_item sale_id (product_id item) (quantity item)
                                  (unit_price item) (subtotal item))) ;;;
      InventoryManager.update_stock (product_id item) (- quantity item)
        "sale" cashier_id sale_id (Some ("Sale: " ++ sale_number)) ;;;
      record_items rest sale_id sale_number cashier_id
  end.

Definition process_sale {python : cpython} (config : business_config)
    (cart_items : list CartItem)
    (customer_name customer_phone : option string)
    (discount_percent : float) (payment_method : string)
    (cashier_id : option Z) : M (option Z) :=
  match cart_items with
  | [] => print "Cart is empty" ;;; ret None
  | _ =>
      ok <- check_cart cart_items ;;
      if negb ok then ret None
      else
        let totals := calculate_totals config cart_items discount_percent in
        sale_number <- generate_sale_number ;;
        try_except
          (sale_id <- execute_query
                        (sale_query sale_number customer_name customer_phone
                           (t_subtotal totals) (t_tax_amount totals)
                           (t_discount_amount totals) (t_total_amount totals)
                           payment_method cashier_id) ;;
           record_items cart_items sale_id sale_number cashier_id ;;;
           ret sale_id)
          (fun e => print ("Error processing sale: " ++ e) ;;; ret None)
  end.

End SalesManager.

(** * Vocabulary of the properties *)

(** the next [n] calls of the driver succeed *)
Fixpoint no_fault (n : nat) (fs : list (option fault)) : bool :=
  match n with
  | O => true
  | S n' =>
      match fs with
      | Some _ :: _ => false
      | _ => no_fault n' (tail fs)
      end
  end.

(** the world once a call of the driver is over *)
Definition called (w : world) : world := tick (next_call w).

(** the lines a failing call prints: for an error of the pool the line of
    [get_connection], then the caller's [own] *)
Definition error_lines (own : string) (f : fault) : list string :=
  match f with
  | pool_error e => ["Error getting connection from pool: " ++ e; own ++ e]
  | statement_error e => [own ++ e]
  end.

(** the world once a call of the driver has failed with [f] *)
Definition failed (own : string) (f : fault) (w : world) : world :=
  mk_world (database w) (now w) (later w) (app (stdout w) (error_lines own f))
           (tail (faults w)).

(** the world [n] calls of the driver later *)
Fixpoint calls (n : nat) (w : world) : world :=
  match n with
  | O => w
  | S n' => calls n' (called w)
  end.

(** the row [update_stock] appends *)
Definition ledger_row (P d s : Z) (kind : string) (user reference : option Z)
    (note : option string) : inventory_transaction :=
  mk_inventory_transaction P kind d s (s + d) reference note user.

(** what a successful [update_stock] leaves behind *)
Definition stock_changed (P d : Z) (p : product) (kind : string)
    (user reference : option Z) (note : option string) (d0 : db) : db :=
  let s := p_stock_quantity p in
  mk_db (<[P := mk_product (p_product_name p) (s + d)]> (products d0))
        (inventory_transactions d0 ++ [ledger_row P d s kind user reference note])
        (sales d0) (sale_items d0) (sales_auto_increment d0).

(** what the check answers when the stock can be read *)
Definition available (d : db) (P q : Z) : bool :=
  match products d !! P with
  | Some p => (q <=? p_stock_quantity p)%Z
  | None => false
  end.

Definition unavailable (d : db) (item : CartItem) : bool :=
  negb (available d (product_id item) (quantity item)).

(** every reading of the clock falls on the date [dt] *)
Definition on_date (dt : nat * nat * nat) (w : world) : bool :=
  forallb (fun t => bool_decide (date_of t = dt)) (now w :: later w).

(** the amounts of [calculate_totals] before they are rounded *)
Definition discount_of (subtotal discount_percent : float) : float :=
  fmul subtotal (fdiv discount_percent (Fin 100)).

Definition total_of (rate subtotal discount_percent : float) : float :=
  let amount_after_discount := fsub subtotal (discount_of subtotal discount_percent) in
  fadd amount_after_discount (fmul amount_after_discount rate).

Definition with_discount_max (limit : float) (config : business_config)
    : business_config :=
  mk_business_config (tax_rate config) (currency_symbol config) limit
                     (low_stock_threshold config).

(** the item is what [CartItem.__init__] (or [update_quantity]) leaves *)
Definition from_init (item : CartItem) : Prop :=
  CartItem_init (product_id item) (product_name item) (barcode item)
                (unit_price item) (quantity item) = Some item.

(** [unit_price * quantity] *)
Definition line_amount (item : CartItem) : float :=
  fmul (unit_price item) (rnd (inject_Z (quantity item))).

(** the floats are finite and add up from [acc] without rounding: every
    running sum is a float *)
Fixpoint adds_up_exactly (acc : Q) (xs : list float) : bool :=
  match xs with
  | [] => true
  | Fin x :: rest =>
      is_float (Fin x) && is_float (Fin (acc + x))
      && adds_up_exactly (acc + x) rest
  | _ :: _ => false
  end.

(** the sum of finite floats, as a number *)
Fixpoint exact_sum (xs : list float) : Q :=
  match xs with
  | [] => 0
  | Fin x :: rest => x + exact_sum rest
  | _ :: rest => exact_sum rest
  end.

(** The rounding the specification names, "standard rounding": to the
    nearest decimal with [ndigits] places, a tie going away from zero. *)
Definition round_half_away (x : Q) : Z :=
  match Qcompare x 0 with
  | Lt => (- Qfloor (- x + (1 # 2)))%Z
  | _ => Qfloor (x + (1 # 2))
  end.

Definition standard_round (x : float) (ndigits : Z) : float :=
  match x with
  | Fin q =>
      let scale := inject_Z (10 ^ ndigits) in
      rnd (inject_Z (round_half_away (q * scale)) / scale)
  | _ => x
  end.

(** *** Writes *)

(** the products once [update_query] has run *)
Definition stock_set (P n : Z) (d : db) : db :=
  with_products
    (alter (fun p => mk_product (p_product_name p) n) P (products d)) d.

(** how a call of [update_stock] can end: nothing written; the stock
    written but not the ledger row; both written *)
Inductive update_stock_view (P d : Z) (kind : string)
    (user reference : option Z) (note : option string) (w : world)
    : bool -> world -> Prop :=
  | us_unchanged w' :
      database w' = database w ->
      update_stock_view P d kind user reference note w false w'
  | us_unlogged p w' :
      products (database w) !! P = Some p ->
      (0 <= p_stock_quantity p + d)%Z ->
      database w' = stock_set P (p_stock_quantity p + d) (database w) ->
      update_stock_view P d kind user reference note w false w'
  | us_done p w' :
      products (database w) !! P = Some p ->
      (0 <= p_stock_quantity p + d)%Z ->
      database w' = stock_changed P d p kind user reference note (database w) ->
      update_stock_view P d kind user reference note w true w'.

Definition row_ok (row : inventory_transaction) : bool :=
  (it_new_stock row =? it_previous_stock row + it_quantity_change row)%Z
  && (0 <=? it_new_stock row)%Z.

(** a sale item points to a header, if it points anywhere *)
Definition item_ok (d : db) (row : sale_item) : bool :=
  match si_sale_id row with
  | Some id => bool_decide (id ∈ map s_sale_id (sales d))
  | None => true
  end.

(** the single writes the two managers make *)
Inductive write : db -> db -> Prop :=
  | write_header d row :
      s_sale_id row = sales_auto_increment d ->
      write d (mk_db (products d) (inventory_transactions d) (sales d ++ [row])
                     (sale_items d) (sales_auto_increment d + 1))
  | write_item d row :
      item_ok d row = true ->
      write d (mk_db (products d) (inventory_transactions d) (sales d)
                     (sale_items d ++ [row]) (sales_auto_increment d))
  | write_stock d P p n :
      products d !! P = Some p ->
      (0 <= n)%Z ->
      write d (with_products
                 (<[P := mk_product (p_product_name p) n]> (products d)) d)
  | write_log d row :
      row_ok row = true ->
      write d (mk_db (products d) (inventory_transactions d ++ [row]) (sales d)
                     (sale_items d) (sales_auto_increment d)).

(** no product has a negative stock *)
Definition stock_nonneg (d : db) : bool :=
  forallb (fun kp => (0 <=? p_stock_quantity (snd kp))%Z)
          (map_to_list (products d)).

(** every ledger row adds up and ends at a stock that is not negative *)
Definition ledger_ok (d : db) : bool := forallb row_ok (inventory_transactions d).

(** every sale item that names a sale names one that has a header *)
Definition items_ok (d : db) : bool := forallb (item_ok d) (sale_items d).

(** nothing that was there is gone: the three logs only grow at their end,
    and the products are the same ones under the same names *)
Definition kept (d d' : db) : Prop :=
  inventory_transactions d `prefix_of` inventory_transactions d'
  /\ sales d `prefix_of` sales d'
  /\ sale_items d `prefix_of` sale_items d'
  /\ forall P, p_product_name <$> products d' !! P
               = p_product_name <$> products d !! P.

(** the sale a line is recorded for has its header in [sales] *)
Definition has_header (sale_id : option Z) (d : db) : Prop :=
  match sale_id with
  | Some id => id ∈ map s_sale_id (sales d)
  | None => True
  end.

(** the calls of the two managers that write *)
Inductive call : Type :=
  | UpdateStock (product_id quantity_change : Z) (transaction_type : string)
                (user_id reference_id : option Z) (notes : option string)
  | RestockProduct (product_id quantity : Z) (user_id : option Z)
                   (notes : option string)
  | AdjustStock (product_id new_quantity : Z) (user_id : option Z)
                (notes : option string)
  | ProcessSale (config : business_config) (cart_items : list CartItem)
                (customer_name customer_phone : option string)
                (discount_percent : float) (payment_method : string)
                (cashier_id : option Z).

(** the world after a call, whatever it returned or raised *)
Definition after {python : cpython} (c : call) (w : world) : world :=
  match c with
  | UpdateStock P d kind user reference note =>
      world_of (InventoryManager.update_stock P d kind user reference note w)
  | RestockProduct P q user note =>
      world_of (InventoryManager.restock_product P q user note w)
  | AdjustStock P t user note =>
      world_of (InventoryManager.adjust_stock P t user note w)
  | ProcessSale config cart name phone percent method cashier =>
      world_of (SalesManager.process_sale config cart name phone percent method
                                          cashier w)
  end.

(** what a call finds of the world it does not control: the clock and
    what the driver will do *)
Record conditions : Type := mk_conditions {
  c_now : datetime;
  c_later : list datetime;
  c_faults : list (option fault)
}.

Definition under (c : conditions) (w : world) : world :=
  mk_world (database w) (c_now c) (c_later c) (stdout w) (c_faults c).

(** the world after a run of calls, each under its own conditions *)
Fixpoint after_all {python : cpython} (cs : list (conditions * call))
    (w : world) : world :=
  match cs with
  | [] => w
  | (c, op) :: rest => after_all rest (after op (under c w))
  end.

(** *** The ledger and the stock *)

(** the driver raises on none of the coming calls *)
Definition never_fails (fs : list (option fault)) : bool :=
  forallb (fun f => match f with None => true | Some _ => false end) fs.

(** the newest ledger row of a product *)
Definition last_row (P : Z) (d : db) : option inventory_transaction :=
  last (filter (fun row => it_product_id row = P) (inventory_transactions d)).

(** the ledger is in step with the stock: the newest row of every product
    that has one ends at the stock the product has *)
Definition in_step (d : db) : bool :=
  forallb (fun row =>
             match last_row (it_product_id row) d with
             | Some newest =>
                 bool_decide (p_stock_quantity <$> products d !! it_product_id row
                              = Some (it_new_stock newest))
             | None => true
             end)
          (inventory_transactions d).

(** the writes of a call during which the driver does not fail *)
Inductive logged : db -> db -> Prop :=
  | logged_header d row n :
      logged d (mk_db (products d) (inventory_transactions d) (sales d ++ [row])
                      (sale_items d) n)
  | logged_item d row :
      logged d (mk_db (products d) (inventory_transactions d) (sales d)
                      (sale_items d ++ [row]) (sales_auto_increment d))
  | logged_stock d P p delta kind user reference note :
      products d !! P = Some p ->
      logged d (stock_changed P delta p kind user reference note d).

(** *** Lines of a sale *)

(** the row [process_sale] inserts for a line *)
Definition sale_item_of (sale_id : option Z) (item : CartItem) : sale_item :=
  mk_sale_item sale_id (product_id item) (quantity item) (unit_price item)
               (subtotal item).

(** the ledger row of a line sold from a stock of [s] *)
Definition sale_row_of (sale_id : option Z) (sale_number : string)
    (cashier : option Z) (item : CartItem) (s : Z) : inventory_transaction :=
  ledger_row (product_id item) (- quantity item) s "sale" cashier sale_id
             (Some ("Sale: " ++ sale_number)).

(** the stock the table has for a product *)
Definition stock_of (d : db) (P : Z) : Z :=
  default 0%Z (p_stock_quantity <$> products d !! P).

(** the product once a line has been taken off its stock *)
Definition sold_from (item : CartItem) (p : product) : product :=
  mk_product (p_product_name p) (p_stock_quantity p - quantity item).

(** the line of the cart that is for [P] *)
Definition line_for (P : Z) (cart : list CartItem) : option CartItem :=
  find (fun item => bool_decide (product_id item = P)) cart.

(** ** A shop to try things on *)

Definition new_year : datetime := mk_datetime 2025 1 1 9 5 7.

Definition shelf : db :=
  mk_db (<[1%Z := mk_product "Milk" 10]> (<[2%Z := mk_product "Eggs" 3]> ∅))
        [] [] [] 1.

Definition shop : world := mk_world shelf new_year [] [] [].

(** the interpreter the shop runs *)
Definition shop_interpreter : cpython := sums_compensated.

(** two lines for the shop's milk: one the shelf can serve, one it cannot *)
Definition two_milk : CartItem := mk_CartItem 1 "Milk" "4800016" (Fin 10) 2 (Fin 20).
Definition crate_of_milk : CartItem :=
  mk_CartItem 1 "Milk" "4800016" (Fin 10) 20 (Fin 200).
Definition caviar : CartItem := mk_CartItem 9 "Caviar" "4800999" (Fin 900) 1 (Fin 900).

Definition eggs : CartItem := mk_CartItem 2 "Eggs" "4800023" (Fin 5) 1 (Fin 5).

(** a pack of gum at 2.50, sold with 5 per cent discount *)
Definition gum : CartItem := mk_CartItem 3 "Gum" "4800047" (Fin (5 # 2)) 1 (Fin (5 # 2)).

Definition one_peso : CartItem := mk_CartItem 1 "Milk" "4800016" (Fin 1) 1 (Fin 1).
Definition ten_pesos : CartItem := mk_CartItem 1 "Milk" "4800016" (Fin 10) 1 (Fin 10).

(** three lines whose amounts do not add up exactly: 1.43, 3.27, 10.81 *)
Definition line_at (price : Q) : CartItem :=
  mk_CartItem 1 "Milk" "4800016" (literal price) 1 (literal price).

Definition three_lines : list CartItem :=
  [line_at (143 # 100); line_at (327 # 100); line_at (1081 # 100)].

(** the driver loses the connection at its sixth call, the UPDATE of
    [update_stock] for the only line of the cart *)
Definition connection_lost_in_ledger : world :=
  set_faults [None; None; None; None; None;
              Some (statement_error "Lost connection")] shop.

(** the count fails twice within one second *)
Definition count_down_twice : world :=
  set_faults [Some (statement_error "down"); Some (statement_error "down")] shop.

(** a day at the shop: a sale, a restock whose ledger row is lost, an
    adjustment below zero, and a sale that loses the connection before the
    stock of its second line is read *)
Definition busy_day : list (conditions * call) :=
  [ (mk_conditions new_year [] [],
     ProcessSale BUSINESS_CONFIG [two_milk; eggs] None None (Fin 10) "cash"
                 (Some 3%Z));
    (mk_conditions new_year [] [None; None; Some (statement_error "gone")],
     RestockProduct 2 12 (Some 1%Z) None);
    (mk_conditions new_year [] [],
     AdjustStock 1 (-5) (Some 1%Z) (Some "recount"));
    (mk_conditions new_year [] [None; None; None; None; None; None; None;
                                None; None; Some (pool_error "gone")],
     ProcessSale BUSINESS_CONFIG [two_milk; eggs] None None (Fin 0) "card"
                 (Some 3%Z)) ].

(** a day on which the driver works *)
Definition quiet_day : list (conditions * call) :=
  [ (mk_conditions new_year [] [],
     ProcessSale BUSINESS_CONFIG [two_milk; eggs] None None (Fin 10) "cash"
                 (Some 3%Z));
    (mk_conditions new_year [] [None; None; None],
     RestockProduct 2 12 (Some 1%Z) None);
    (mk_conditions new_year [] [],
     AdjustStock 1 7 (Some 1%Z) (Some "recount")) ].

(** * Properties *)

(** ** Floats *)

Module Rounding.
Local Open Scope Q_scope.

(** *** Powers of two *)

Lemma pow2_pos e : 0 < pow2 e.
Proof. apply Qpower_0_lt. reflexivity. Qed.

Lemma pow2_add a b : pow2 (a + b) == pow2 a * pow2 b.
Proof. unfold pow2. apply Qpower_plus. discriminate. Qed.

Lemma pow2_le a b : (a <= b)%Z -> pow2 a <= pow2 b.
Proof. intros H. apply Qpower_le_compat_l; [exact H | discriminate]. Qed.

Lemma pow2_lt_inv a b : pow2 a < pow2 b -> (a < b)%Z.
Proof. intros H. eapply Qpower_lt_compat_l_inv; [exact H | reflexivity]. Qed.

Lemma pow2_Z n : (0 <= n)%Z -> pow2 n == inject_Z (2 ^ n).
Proof. intros H. unfold pow2. symmetry. apply (Zpower_Qpower 2 n H). Qed.

Lemma pow2_sub a b : pow2 (a - b) == pow2 a / pow2 b.
Proof.
  unfold Z.sub. rewrite pow2_add. unfold pow2 at 2.
  rewrite Qpower_opp. reflexivity.
Qed.

Lemma pow2_frac a b :
  (0 <= a)%Z -> (0 <= b)%Z -> pow2 (a - b) == (2 ^ a)%Z # Z.to_pos (2 ^ b).
Proof.
  intros Ha Hb. rewrite pow2_sub, (pow2_Z a Ha), (pow2_Z b Hb), Qmake_Qdiv.
  rewrite Z2Pos.id; [reflexivity | apply Z.pow_pos_nonneg; lia].
Qed.

(** *** The binary logarithm *)

Lemma ilog2_spec x : 0 < x -> pow2 (ilog2 x) <= x /\ x < pow2 (ilog2 x + 1).
Proof.
  destruct x as [n d]. intros Hx.
  assert (Hn : (0 < n)%Z) by (unfold Qlt in Hx; simpl in Hx; lia).
  unfold ilog2. cbn [Qnum Qden].
  set (a := Z.log2 n). set (b := Z.log2 (Z.pos d)).
  assert (Ha : (0 <= a)%Z) by apply Z.log2_nonneg.
  assert (Hb : (0 <= b)%Z) by apply Z.log2_nonneg.
  destruct (Z.log2_spec n Hn) as [Ha1 Ha2]. fold a in Ha1, Ha2.
  destruct (Z.log2_spec (Z.pos d) eq_refl) as [Hb1 Hb2]. fold b in Hb1, Hb2.
  assert (Hpa : (0 < 2 ^ a)%Z) by (apply Z.pow_pos_nonneg; lia).
  assert (Hpb : (0 < 2 ^ b)%Z) by (apply Z.pow_pos_nonneg; lia).
  rewrite Z.pow_succ_r in Ha2, Hb2 by assumption.
  destruct (Qle_bool (pow2 (a - b)) (n # d)) eqn:E.
  - split; [now apply Qle_bool_iff |].
    replace (a - b + 1)%Z with (Z.succ a - b)%Z by lia.
    rewrite pow2_frac by lia. unfold Qlt. cbn [Qnum Qden].
    rewrite Z2Pos.id by assumption. rewrite Z.pow_succ_r by assumption. nia.
  - split.
    + replace (a - b - 1)%Z with (a - Z.succ b)%Z by lia.
      rewrite pow2_frac by lia. unfold Qle. cbn [Qnum Qden].
      rewrite Z.pow_succ_r by assumption. rewrite Z2Pos.id by lia. nia.
    + replace (a - b - 1 + 1)%Z with (a - b)%Z by lia.
      apply Qnot_le_lt. intros H. apply Qle_bool_iff in H. congruence.
Qed.

Lemma ilog2_unique x e :
  0 < x -> pow2 e <= x -> x < pow2 (e + 1) -> ilog2 x = e.
Proof.
  intros Hx H1 H2. destruct (ilog2_spec x Hx) as [H3 H4].
  assert (e < ilog2 x + 1)%Z
    by (apply pow2_lt_inv; eapply Qle_lt_trans; eassumption).
  assert (ilog2 x < e + 1)%Z
    by (apply pow2_lt_inv; eapply Qle_lt_trans; eassumption).
  lia.
Qed.

Lemma ilog2_mono x y : 0 < x -> x <= y -> (ilog2 x <= ilog2 y)%Z.
Proof.
  intros Hx Hxy.
  assert (Hy : 0 < y) by (eapply Qlt_le_trans; eassumption).
  destruct (ilog2_spec x Hx) as [H1 _]. destruct (ilog2_spec y Hy) as [_ H2].
  assert (ilog2 x < ilog2 y + 1)%Z; [| lia].
  apply pow2_lt_inv. eapply Qle_lt_trans; [| exact H2].
  eapply Qle_trans; eassumption.
Qed.

(** *** Rounding to an integer, ties to even *)

Lemma rhe_bounds x :
  (Qfloor x <= round_half_even x <= Qfloor x + 1)%Z.
Proof.
  unfold round_half_even.
  destruct (Qcompare _ _); [destruct (Z.even _) | |]; lia.
Qed.

Lemma rhe_mono x y : x <= y -> (round_half_even x <= round_half_even y)%Z.
Proof.
  intros Hxy. pose proof (Qfloor_resp_le x y Hxy) as Hf.
  pose proof (rhe_bounds x) as Bx. pose proof (rhe_bounds y) as By.
  destruct (Z.eq_dec (Qfloor x) (Qfloor y)) as [E | NE]; [| lia].
  unfold round_half_even in *. rewrite <- E in *.
  assert (Hr : x - inject_Z (Qfloor x) <= y - inject_Z (Qfloor x)).
  { apply Qplus_le_l. exact Hxy. }
  destruct (Qcompare_spec (x - inject_Z (Qfloor x)) (1 # 2)) as [Hx | Hx | Hx];
    destruct (Qcompare_spec (y - inject_Z (Qfloor x)) (1 # 2)) as [Hy | Hy | Hy];
    try lia; try (destruct (Z.even (Qfloor x)); lia); exfalso.
  - rewrite Hx in Hr. exact (Qlt_not_le _ _ Hy Hr).
  - rewrite Hy in Hr. exact (Qlt_not_le _ _ Hx Hr).
  - apply (Qlt_not_le _ _ Hx). eapply Qle_trans; [exact Hr |].
    apply Qlt_le_weak. exact Hy.
Qed.

Lemma rhe_Z z : round_half_even (inject_Z z) = z.
Proof.
  unfold round_half_even. rewrite Qfloor_Z.
  assert (H : inject_Z z - inject_Z z == 0) by ring.
  rewrite H. reflexivity.
Qed.

Lemma rhe_comp x y : x == y -> round_half_even x = round_half_even y.
Proof.
  intros H. apply Z.le_antisymm; apply rhe_mono; rewrite H; apply Qle_refl.
Qed.

Lemma rhe_le_Z x z : x <= inject_Z z -> (round_half_even x <= z)%Z.
Proof. intros H. rewrite <- (rhe_Z z). now apply rhe_mono. Qed.

Lemma rhe_ge_Z x z : inject_Z z <= x -> (z <= round_half_even x)%Z.
Proof. intros H. rewrite <- (rhe_Z z). now apply rhe_mono. Qed.

(** *** Rounding to 53 bits *)

Lemma scaled_nonneg x e : 0 < x -> 0 <= x / pow2 e.
Proof.
  intros Hx. apply Qle_shift_div_l; [apply pow2_pos |].
  rewrite Qmult_0_l. now apply Qlt_le_weak.
Qed.

Lemma round_mag_nonneg x : 0 < x -> 0 <= round_mag x.
Proof.
  intros Hx. unfold round_mag. apply Qmult_le_0_compat.
  - change 0 with (inject_Z 0). rewrite <- Zle_Qle.
    apply rhe_ge_Z. now apply scaled_nonneg.
  - apply Qlt_le_weak, pow2_pos.
Qed.

Lemma ulp_exp_mono x y : 0 < x -> x <= y -> (ulp_exp x <= ulp_exp y)%Z.
Proof.
  intros Hx Hxy. pose proof (ilog2_mono x y Hx Hxy). unfold ulp_exp. lia.
Qed.

Lemma round_mag_le_pow x : 0 < x -> round_mag x <= pow2 (ulp_exp x + 53).
Proof.
  intros Hx. unfold round_mag.
  rewrite pow2_add, (Qmult_comm (pow2 (ulp_exp x))).
  apply Qmult_le_compat_r; [| apply Qlt_le_weak, pow2_pos].
  rewrite (pow2_Z 53) by lia. rewrite <- Zle_Qle. apply rhe_le_Z.
  rewrite <- (pow2_Z 53) by lia.
  apply Qle_shift_div_r; [apply pow2_pos |].
  rewrite <- pow2_add. destruct (ilog2_spec x Hx) as [_ H].
  apply Qlt_le_weak. eapply Qlt_le_trans; [exact H |].
  apply pow2_le. unfold ulp_exp. lia.
Qed.

Lemma round_mag_ge_pow x :
  0 < x -> (-1022 <= ilog2 x)%Z -> pow2 (ilog2 x) <= round_mag x.
Proof.
  intros Hx Hn. unfold round_mag.
  assert (Hu : ulp_exp x = (ilog2 x - 52)%Z) by (unfold ulp_exp; lia).
  rewrite Hu.
  replace (ilog2 x) with (52 + (ilog2 x - 52))%Z at 1 by lia.
  rewrite pow2_add.
  apply Qmult_le_compat_r; [| apply Qlt_le_weak, pow2_pos].
  rewrite (pow2_Z 52) by lia. rewrite <- Zle_Qle. apply rhe_ge_Z.
  rewrite <- (pow2_Z 52) by lia.
  apply Qle_shift_div_l; [apply pow2_pos |].
  rewrite <- pow2_add. replace (52 + (ilog2 x - 52))%Z with (ilog2 x) by lia.
  now destruct (ilog2_spec x Hx).
Qed.

Lemma round_mag_mono x y : 0 < x -> x <= y -> round_mag x <= round_mag y.
Proof.
  intros Hx Hxy.
  assert (Hy : 0 < y) by (eapply Qlt_le_trans; eassumption).
  pose proof (ulp_exp_mono x y Hx Hxy) as Hu.
  destruct (Z.eq_dec (ulp_exp x) (ulp_exp y)) as [E | NE].
  - unfold round_mag. rewrite E.
    apply Qmult_le_compat_r; [| apply Qlt_le_weak, pow2_pos].
    rewrite <- Zle_Qle. apply rhe_mono.
    apply Qmult_le_compat_r; [exact Hxy |].
    apply Qlt_le_weak, Qinv_lt_0_compat, pow2_pos.
  - assert (Hn : (-1022 <= ilog2 y)%Z /\ (ulp_exp x + 53 <= ilog2 y)%Z)
      by (unfold ulp_exp in *; lia).
    destruct Hn as [Hn1 Hn2].
    eapply Qle_trans; [apply round_mag_le_pow; exact Hx |].
    eapply Qle_trans; [apply pow2_le; exact Hn2 |].
    now apply round_mag_ge_pow.
Qed.

Lemma Qneg_pos x : x < 0 -> 0 < - x.
Proof. intros H. exact (Qopp_lt_compat x 0 H). Qed.

Lemma Qopp_nonpos x : 0 <= x -> - x <= 0.
Proof. intros H. exact (Qopp_le_compat 0 x H). Qed.

Lemma round_Q_mono x y : x <= y -> round_Q x <= round_Q y.
Proof.
  intros Hxy. unfold round_Q.
  destruct (Qcompare_spec x 0) as [Hx | Hx | Hx];
    destruct (Qcompare_spec y 0) as [Hy | Hy | Hy].
  - apply Qle_refl.
  - exfalso. rewrite Hx in Hxy. exact (Qlt_not_le _ _ Hy Hxy).
  - now apply round_mag_nonneg.
  - now apply Qopp_nonpos, round_mag_nonneg, Qneg_pos.
  - apply Qopp_le_compat. apply round_mag_mono.
    + now apply Qneg_pos.
    + now apply Qopp_le_compat.
  - apply Qle_trans with 0.
    + now apply Qopp_nonpos, round_mag_nonneg, Qneg_pos.
    + now apply round_mag_nonneg.
  - exfalso. rewrite Hy in Hxy. exact (Qlt_not_le _ _ Hx Hxy).
  - exfalso. apply (Qlt_not_le _ _ Hx). eapply Qle_trans; [exact Hxy |].
    now apply Qlt_le_weak.
  - now apply round_mag_mono.
Qed.

Lemma round_Q_comp x y : x == y -> round_Q x == round_Q y.
Proof.
  intros H. apply Qle_antisym; apply round_Q_mono; rewrite H; apply Qle_refl.
Qed.

(** *** Floats are fixed points of the rounding *)

Lemma ulp_exp_min x : (-1074 <= ulp_exp x)%Z.
Proof. unfold ulp_exp. lia. Qed.

Lemma round_mag_exact r m e :
  0 < r -> r == inject_Z m * pow2 e -> (ulp_exp r <= e)%Z -> round_mag r == r.
Proof.
  intros Hr Hm Hu. unfold round_mag. set (u := ulp_exp r) in *.
  assert (Hs : r / pow2 u == inject_Z (m * 2 ^ (e - u))).
  { rewrite inject_Z_mult, <- (pow2_Z (e - u)) by lia.
    rewrite pow2_sub, Hm. unfold Qdiv. ring. }
  rewrite (rhe_comp _ _ Hs), rhe_Z.
  rewrite inject_Z_mult, <- (pow2_Z (e - u)) by lia.
  rewrite <- Qmult_assoc, <- pow2_add.
  replace (e - u + u)%Z with e by lia. now symmetry.
Qed.

Lemma round_mag_comp x y : 0 < x -> x == y -> round_mag x == round_mag y.
Proof.
  intros Hx H. assert (Hy : 0 < y) by now rewrite <- H.
  apply Qle_antisym; apply round_mag_mono; try assumption;
    rewrite H; apply Qle_refl.
Qed.

Lemma round_mag_fix x :
  0 < x -> 0 < round_mag x -> round_mag (round_mag x) == round_mag x.
Proof.
  intros Hx Hr. set (u := ulp_exp x).
  set (m := round_half_even (x / pow2 u)).
  assert (Er : round_mag x == inject_Z m * pow2 u) by reflexivity.
  assert (Hm : (m <= 2 ^ 53)%Z).
  { pose proof (round_mag_le_pow x Hx) as H. fold u in H.
    rewrite Er, (Z.add_comm u 53), pow2_add in H.
    apply Qmult_le_r in H; [| apply pow2_pos].
    rewrite (pow2_Z 53) in H by lia. now rewrite <- Zle_Qle in H. }
  pose proof (ulp_exp_min x) as Hmin. fold u in Hmin.
  destruct (Z.eq_dec m (2 ^ 53)%Z) as [E | NE].
  - assert (Er' : round_mag x == inject_Z 1 * pow2 (53 + u)).
    { rewrite Er, E, pow2_add, (pow2_Z 53) by lia. ring. }
    apply (round_mag_exact _ 1 (53 + u) Hr Er').
    assert (Hl : ilog2 (round_mag x) = (53 + u)%Z).
    { apply ilog2_unique; [exact Hr | |]; rewrite Er'.
      - rewrite Qmult_1_l. apply Qle_refl.
      - rewrite Qmult_1_l. apply Qpower_lt_compat_l; [lia | reflexivity]. }
    unfold ulp_exp. rewrite Hl. lia.
  - apply (round_mag_exact _ m u Hr Er).
    assert (Hl : (ilog2 (round_mag x) < 53 + u)%Z).
    { apply pow2_lt_inv. destruct (ilog2_spec _ Hr) as [H1 _].
      eapply Qle_lt_trans; [exact H1 |].
      rewrite Er, pow2_add, (pow2_Z 53) by lia.
      apply Qmult_lt_compat_r; [apply pow2_pos |].
      rewrite <- Zlt_Qlt. lia. }
    unfold ulp_exp. lia.
Qed.

Lemma round_Q_idem x : round_Q (round_Q x) == round_Q x.
Proof.
  unfold round_Q at 2 3.
  destruct (Qcompare_spec x 0) as [Hx | Hx | Hx].
  - reflexivity.
  - apply Qneg_pos in Hx.
    pose proof (round_mag_nonneg _ Hx) as Hr.
    destruct (Qle_lt_or_eq _ _ Hr) as [Hp | Hz].
    + unfold round_Q.
      destruct (Qcompare_spec (- round_mag (- x)) 0) as [H | H | H].
      * now symmetry.
      * apply Qopp_comp. rewrite <- (round_mag_fix _ Hx Hp) at 2.
        apply round_mag_comp; [now apply Qneg_pos | apply Qopp_involutive].
      * exfalso. apply (Qlt_irrefl 0). eapply Qlt_trans; [exact H |].
        setoid_rewrite <- (Qopp_involutive 0).
        now apply Qopp_lt_compat.
    + assert (E : - round_mag (- x) == 0) by (rewrite <- Hz; reflexivity).
      rewrite (round_Q_comp _ _ E). now symmetry.
  - pose proof (round_mag_nonneg _ Hx) as Hr.
    destruct (Qle_lt_or_eq _ _ Hr) as [Hp | Hz].
    + unfold round_Q.
      destruct (Qcompare_spec (round_mag x) 0) as [H | H | H].
      * now symmetry.
      * exfalso. exact (Qlt_irrefl _ (Qlt_trans _ _ _ H Hp)).
      * now apply round_mag_fix.
    + assert (E : round_mag x == 0) by now symmetry.
      rewrite (round_Q_comp _ _ E). now symmetry.
Qed.

(** *** The rounding as a function to floats *)

Lemma rnd_comp x y : x == y -> rnd x = rnd y.
Proof.
  intros H. unfold rnd.
  now rewrite (Qred_complete _ _ (round_Q_comp x y H)).
Qed.

Lemma rnd_spec x : rnd_view x (rnd x).
Proof.
  unfold rnd.
  destruct (Qle_bool (pow2 1024) (Qred (round_Q x))) eqn:E1.
  { constructor. apply Qle_bool_iff in E1. now rewrite Qred_correct in E1. }
  destruct (Qle_bool (Qred (round_Q x)) (- pow2 1024)) eqn:E2.
  { constructor. apply Qle_bool_iff in E2. now rewrite Qred_correct in E2. }
  constructor; apply Qnot_le_lt; intros H.
  - rewrite <- (Qred_correct (round_Q x)) in H.
    apply Qle_bool_iff in H. congruence.
  - rewrite <- (Qred_correct (round_Q x)) in H.
    apply Qle_bool_iff in H. congruence.
Qed.

Lemma neg_lt_pow2 : - pow2 1024 < pow2 1024.
Proof.
  apply Qlt_trans with 0; [| apply pow2_pos].
  apply (Qopp_lt_compat 0 (pow2 1024)), pow2_pos.
Qed.

Lemma rnd_mono x y : x <= y -> fle (rnd x) (rnd y) = true.
Proof.
  intros Hxy. pose proof (round_Q_mono x y Hxy) as H.
  destruct (rnd_spec x) as [Hx | Hx | Hx1 Hx2];
    destruct (rnd_spec y) as [Hy | Hy | Hy1 Hy2]; cbn; try reflexivity.
  - exfalso. apply (Qlt_irrefl (pow2 1024)). eapply Qle_lt_trans; [exact Hx |].
    eapply Qle_lt_trans; [exact H |]. eapply Qle_lt_trans; [exact Hy |].
    exact neg_lt_pow2.
  - exfalso. apply (Qlt_irrefl (pow2 1024)). eapply Qle_lt_trans; [exact Hx |].
    eapply Qle_lt_trans; [exact H | exact Hy1].
  - exfalso. apply (Qlt_irrefl (round_Q x)). eapply Qle_lt_trans; [exact H |].
    eapply Qle_lt_trans; [exact Hy | exact Hx2].
  - apply Qle_bool_iff. now apply Qred_le.
Qed.

Lemma rnd_float x : is_float (rnd x) = true.
Proof.
  destruct (rnd_spec x) as [Hx | Hx | Hx1 Hx2]; try reflexivity.
  cbn. set (r := Qred (round_Q x)).
  assert (E : round_Q r == round_Q x).
  { unfold r. rewrite (round_Q_comp _ _ (Qred_correct _)). apply round_Q_idem. }
  destruct (rnd_spec r) as [Hr | Hr | Hr1 Hr2]; cbn.
  - exfalso. rewrite E in Hr. exact (Qlt_not_le _ _ Hx1 Hr).
  - exfalso. rewrite E in Hr. exact (Qlt_not_le _ _ Hx2 Hr).
  - apply Qeq_bool_iff. rewrite Qred_correct, E. unfold r.
    now rewrite Qred_correct.
Qed.

Lemma rnd_id x : is_float (Fin x) = true -> rnd x = Fin (Qred x).
Proof.
  cbn. destruct (rnd_spec x) as [Hx | Hx | Hx1 Hx2]; cbn; try discriminate.
  intros H. apply Qeq_bool_iff in H. rewrite Qred_correct in H.
  now rewrite (Qred_complete _ _ H).
Qed.

Lemma fle_Fin_comp x x' b : x == x' -> fle (Fin x) b = fle (Fin x') b.
Proof.
  intros H. destruct b; cbn; try reflexivity.
  apply eq_true_iff_eq. rewrite !Qle_bool_iff. now rewrite H.
Qed.

Lemma fle_comp_Fin a y y' : y == y' -> fle a (Fin y) = fle a (Fin y').
Proof.
  intros H. destruct a; cbn; try reflexivity.
  apply eq_true_iff_eq. rewrite !Qle_bool_iff. now rewrite H.
Qed.

Lemma fle_Fin_rnd s t :
  is_float (Fin s) = true -> s <= t -> fle (Fin s) (rnd t) = true.
Proof.
  intros Hs H. rewrite <- (fle_Fin_comp _ _ _ (Qred_correct s)).
  rewrite <- (rnd_id s Hs). now apply rnd_mono.
Qed.

Lemma fle_rnd_Fin s t :
  is_float (Fin t) = true -> s <= t -> fle (rnd s) (Fin t) = true.
Proof.
  intros Ht H. rewrite <- (fle_comp_Fin _ _ _ (Qred_correct t)).
  rewrite <- (rnd_id t Ht). now apply rnd_mono.
Qed.

Lemma fle_Fin x y : fle (Fin x) (Fin y) = true <-> x <= y.
Proof. apply Qle_bool_iff. Qed.

Lemma flt_Fin x y : flt (Fin x) (Fin y) = true <-> x < y.
Proof.
  cbn. rewrite negb_true_iff. split.
  - intros H. apply Qnot_le_lt. intros C. apply Qle_bool_iff in C. congruence.
  - intros H. destruct (Qle_bool y x) eqn:E; [| reflexivity].
    apply Qle_bool_iff in E. destruct (Qlt_not_le _ _ H E).
Qed.

(** *** The operations are monotone *)

Lemma fle_rnd_PInf x : fle (rnd x) PInf = true.
Proof. destruct (rnd_spec x); reflexivity. Qed.

Lemma fle_NInf_rnd x : fle NInf (rnd x) = true.
Proof. destruct (rnd_spec x); reflexivity. Qed.

Lemma Qcompare_pos c :
  0 < c -> Qcompare c 0 = Gt /\ Qcompare 0 c = Lt /\ Qeq_bool c 0 = false.
Proof.
  intros H. repeat split.
  - now apply Qgt_alt.
  - now apply Qlt_alt.
  - destruct (Qeq_bool c 0) eqn:E; [| reflexivity].
    apply Qeq_bool_iff in E. rewrite E in H. destruct (Qlt_irrefl _ H).
Qed.

Ltac sign_of H :=
  let H1 := fresh in let H2 := fresh in let H3 := fresh in
  destruct (Qcompare_pos _ H) as (H1 & H2 & H3);
  cbn; rewrite ?H1, ?H2, ?H3; cbn.

Ltac fle_rnd :=
  first [ reflexivity | discriminate | apply fle_rnd_PInf | apply fle_NInf_rnd
        | apply rnd_mono ].

Lemma fdiv_mono c d d' :
  0 < c -> fle d d' = true -> fle (fdiv d (Fin c)) (fdiv d' (Fin c)) = true.
Proof.
  intros Hc H. destruct d, d'; try discriminate H; sign_of Hc; fle_rnd.
  apply fle_Fin in H. apply Qmult_le_compat_r; [exact H |].
  now apply Qlt_le_weak, Qinv_lt_0_compat.
Qed.

Lemma fmul_mono_r s q q' :
  0 < s -> fle q q' = true -> fle (fmul (Fin s) q) (fmul (Fin s) q') = true.
Proof.
  intros Hs H. destruct q, q'; try discriminate H; sign_of Hs; fle_rnd.
  apply fle_Fin in H. rewrite !(Qmult_comm s).
  apply Qmult_le_compat_r; [exact H | now apply Qlt_le_weak].
Qed.

Lemma fmul_mono_l t a a' :
  0 < t -> fle a a' = true -> fle (fmul a (Fin t)) (fmul a' (Fin t)) = true.
Proof.
  intros Ht H. destruct a, a'; try discriminate H; sign_of Ht; fle_rnd.
  apply fle_Fin in H.
  apply Qmult_le_compat_r; [exact H | now apply Qlt_le_weak].
Qed.

Lemma fsub_anti_r s b b' :
  fle b b' = true -> fle (fsub (Fin s) b') (fsub (Fin s) b) = true.
Proof.
  intros H. destruct b, b'; try discriminate H; cbn; fle_rnd.
  apply fle_Fin in H. apply Qplus_le_r. now apply Qopp_le_compat.
Qed.

(** the amount with its tax added: [a + a * t] *)
Lemma with_tax_mono t a a' :
  0 < t -> fle a a' = true ->
  fle (fadd a (fmul a (Fin t))) (fadd a' (fmul a' (Fin t))) = true.
Proof.
  intros Ht H. pose proof (fmul_mono_l t a a' Ht H) as Hm.
  destruct a as [x | | |], a' as [y | | |]; try discriminate H;
    revert Hm; sign_of Ht; try reflexivity.
  - apply fle_Fin in H.
    destruct (rnd_spec (x * t)), (rnd_spec (y * t)); cbn; intros Hm;
      try discriminate Hm; fle_rnd.
    apply fle_Fin in Hm. now apply Qplus_le_compat.
  - intros _. destruct (rnd_spec (x * t)); cbn; fle_rnd.
  - intros _. destruct (rnd_spec (y * t)); cbn; fle_rnd.
Qed.

Lemma py_round_mono n x y :
  (0 <= n)%Z -> fle x y = true -> fle (py_round x n) (py_round y n) = true.
Proof.
  intros Hn H.
  assert (Hs : 0 < inject_Z (10 ^ n)).
  { change 0 with (inject_Z 0). rewrite <- Zlt_Qlt.
    apply Z.pow_pos_nonneg; lia. }
  destruct x, y; try discriminate H; cbn; fle_rnd.
  apply fle_Fin in H.
  apply Qmult_le_compat_r; [| now apply Qlt_le_weak, Qinv_lt_0_compat].
  rewrite <- Zle_Qle. apply rhe_mono.
  apply Qmult_le_compat_r; [exact H | now apply Qlt_le_weak].
Qed.

Lemma py_round_comp n x y :
  x == y -> py_round (Fin x) n = py_round (Fin y) n.
Proof.
  intros H. cbn. apply rnd_comp.
  rewrite (rhe_comp (x * inject_Z (10 ^ n)) (y * inject_Z (10 ^ n)));
    [reflexivity | now rewrite H].
Qed.

(** *** Floats that are exact *)

Lemma round_Q_opp x : round_Q (- x) == - round_Q x.
Proof.
  unfold round_Q.
  destruct (Qcompare_spec x 0) as [E | L | G];
    destruct (Qcompare_spec (- x) 0) as [E' | L' | G']; try lra.
  rewrite (round_mag_comp (- - x) x); [lra | lra | ring].
Qed.

Lemma is_float_Fin x :
  is_float (Fin x) = true
  <-> round_Q x == x /\ - pow2 1024 < x < pow2 1024.
Proof.
  cbn [is_float]. destruct (rnd_spec x) as [H | H | H1 H2]; cbn [feq].
  - split; [discriminate | intros [E B]; lra].
  - split; [discriminate | intros [E B]; lra].
  - rewrite Qeq_bool_iff, Qred_correct. split.
    + intros E. split; [exact E | lra].
    + now intros [E _].
Qed.

Lemma is_float_opp x : is_float (Fin x) = true -> is_float (Fin (- x)) = true.
Proof.
  rewrite !is_float_Fin, round_Q_opp. intros [E B]. split; lra.
Qed.

Lemma is_float_comp x y : x == y -> is_float (Fin x) = is_float (Fin y).
Proof.
  intros H. cbn [is_float]. rewrite (rnd_comp x y H).
  destruct (rnd y); cbn; try reflexivity.
  apply eq_true_iff_eq. rewrite !Qeq_bool_iff. now rewrite H.
Qed.

(** an addition or subtraction whose result is a float is exact *)
Lemma rnd_exact x y : x == y -> is_float (Fin y) = true -> rnd x = Fin (Qred y).
Proof. intros H Hy. rewrite (rnd_comp x y H). now apply rnd_id. Qed.

(** *** How far rounding moves a number *)

Lemma rhe_near x :
  x - (1 # 2) <= inject_Z (round_half_even x) <= x + (1 # 2).
Proof.
  pose proof (Qfloor_le x) as Hlo. pose proof (Qlt_floor x) as Hhi.
  rewrite inject_Z_plus in Hhi. change (inject_Z 1) with 1 in Hhi.
  unfold round_half_even.
  destruct (Qcompare_spec (x - inject_Z (Qfloor x)) (1 # 2)) as [E | L | G];
    [destruct (Z.even (Qfloor x)) | |];
    rewrite ?inject_Z_plus; change (inject_Z 1) with 1; split; lra.
Qed.

Lemma round_mag_near x :
  0 < x ->
  x - pow2 (ulp_exp x - 1) <= round_mag x <= x + pow2 (ulp_exp x - 1).
Proof.
  intros Hx. unfold round_mag. set (e := ulp_exp x).
  pose proof (pow2_pos e) as He.
  pose proof (rhe_near (x / pow2 e)) as [H1 H2].
  assert (Hh : pow2 (e - 1) == (1 # 2) * pow2 e).
  { rewrite pow2_sub. change (pow2 1) with 2. field. }
  assert (E1 : (x / pow2 e - (1 # 2)) * pow2 e == x - (1 # 2) * pow2 e)
    by (field; lra).
  assert (E2 : (x / pow2 e + (1 # 2)) * pow2 e == x + (1 # 2) * pow2 e)
    by (field; lra).
  rewrite Hh, <- E1, <- E2.
  split; (apply Qmult_le_compat_r; [assumption | lra]).
Qed.

Lemma ilog2_pow2 k : ilog2 (pow2 k) = k.
Proof.
  apply ilog2_unique; [apply pow2_pos | apply Qle_refl |].
  rewrite pow2_add. change (pow2 1) with 2. pose proof (pow2_pos k). lra.
Qed.

Lemma round_Q_near k x :
  (-1022 <= k)%Z -> - pow2 k <= x <= pow2 k ->
  x - pow2 (k - 53) <= round_Q x <= x + pow2 (k - 53).
Proof.
  intros Hk [Hlo Hhi]. pose proof (pow2_pos (k - 53)) as Hp.
  assert (Hm : forall y, 0 < y -> y <= pow2 k ->
                         y - pow2 (k - 53) <= round_mag y <= y + pow2 (k - 53)).
  { intros y Hy Hyk. pose proof (round_mag_near y Hy) as [H1 H2].
    assert (He : pow2 (ulp_exp y - 1) <= pow2 (k - 53)).
    { apply pow2_le. pose proof (ilog2_mono y (pow2 k) Hy Hyk) as Hi.
      rewrite ilog2_pow2 in Hi. unfold ulp_exp. lia. }
    split; lra. }
  unfold round_Q. destruct (Qcompare_spec x 0) as [E | L | G].
  - split; lra.
  - destruct (Hm (- x)) as [H1 H2]; [lra | lra |]. split; lra.
  - now apply Hm.
Qed.

Lemma rnd_near k x :
  (-1022 <= k <= 1023)%Z -> - pow2 k <= x <= pow2 k ->
  exists y, rnd x = Fin y /\ x - pow2 (k - 53) <= y <= x + pow2 (k - 53).
Proof.
  intros Hk Hx. destruct (round_Q_near k x) as [H1 H2]; [lia | exact Hx |].
  assert (Hs : pow2 (k - 53) < pow2 k).
  { replace k with ((k - 53) + 53)%Z at 2 by lia. rewrite pow2_add.
    pose proof (pow2_pos (k - 53)). assert (1 < pow2 53) by reflexivity. nra. }
  assert (Ht : pow2 k + pow2 k <= pow2 1024).
  { apply Qle_trans with (pow2 (k + 1)).
    - rewrite pow2_add. change (pow2 1) with 2. lra.
    - apply pow2_le. lia. }
  destruct (rnd_spec x) as [Hx' | Hx' | Hx1 Hx2].
  - exfalso. lra.
  - exfalso. lra.
  - exists (Qred (round_Q x)). split; [reflexivity |].
    rewrite Qred_correct. split; assumption.
Qed.

(** the same with the numbers written out, for amounts up to 2^31, for
    their products up to 2^40, and for a percentage as a fraction up to 2^10 *)
Lemma rnd_near_31 x :
  - (2147483648 # 1) <= x <= 2147483648 # 1 ->
  exists y, rnd x = Fin y /\ x - (1 # 4194304) <= y <= x + (1 # 4194304).
Proof. intros H. apply (rnd_near 31); [lia | exact H]. Qed.

Lemma rnd_near_40 x :
  - (1099511627776 # 1) <= x <= 1099511627776 # 1 ->
  exists y, rnd x = Fin y /\ x - (1 # 8192) <= y <= x + (1 # 8192).
Proof. intros H. apply (rnd_near 40); [lia | exact H]. Qed.

Lemma rnd_near_10 x :
  - (1024 # 1) <= x <= 1024 # 1 ->
  exists y, rnd x = Fin y
            /\ x - (1 # 8796093022208) <= y <= x + (1 # 8796093022208).
Proof. intros H. apply (rnd_near 10); [lia | exact H]. Qed.

Lemma flt_fle_trans a b c : flt a b = true -> fle b c = true -> flt a c = true.
Proof.
  destruct a as [x | | |], b as [y | | |], c as [z | | |];
    try discriminate; try reflexivity.
  rewrite !flt_Fin, fle_Fin. lra.
Qed.

Lemma fle_flt_trans a b c : fle a b = true -> flt b c = true -> flt a c = true.
Proof.
  destruct a as [x | | |], b as [y | | |], c as [z | | |];
    try discriminate; try reflexivity.
  rewrite !flt_Fin, fle_Fin. lra.
Qed.

Lemma fle_trans a b c : fle a b = true -> fle b c = true -> fle a c = true.
Proof.
  destruct a as [x | | |], b as [y | | |], c as [z | | |];
    try discriminate; try reflexivity.
  rewrite !fle_Fin. lra.
Qed.

(** two amounts more than a cent apart are still apart once rounded to 2
    places *)
Lemma py_round_strict y0 y1 :
  - (2147483647 # 1) <= y0 <= 2147483647 # 1 ->
  y0 + (11 # 1000) <= y1 ->
  flt (py_round (Fin y0) 2) (py_round (Fin y1) 2) = true.
Proof.
  intros Hy0 Hy1. unfold py_round. change (inject_Z (10 ^ 2)) with 100%Q.
  pose proof (rhe_near (y0 * 100)) as [L0 U0].
  pose proof (rhe_near (y1 * 100)) as [L1 U1].
  set (n0 := round_half_even (y0 * 100)) in *.
  set (n1 := round_half_even (y1 * 100)) in *.
  assert (Hn : (n0 + 1 <= n1)%Z).
  { assert (H : inject_Z n0 < inject_Z n1) by lra.
    rewrite <- Zlt_Qlt in H. lia. }
  assert (Hn' : inject_Z (n0 + 1) <= inject_Z n1) by now rewrite <- Zle_Qle.
  rewrite inject_Z_plus in Hn'. change (inject_Z 1) with 1 in Hn'.
  assert (C0 : inject_Z n0 / 100 == inject_Z n0 * (1 # 100)) by field.
  assert (C1 : (inject_Z n0 + 1) / 100 == (inject_Z n0 + 1) * (1 # 100))
    by field.
  assert (C2 : inject_Z n1 / 100 == inject_Z n1 * (1 # 100)) by field.
  destruct (rnd_near_31 (inject_Z n0 / 100)) as (z0 & E0 & _ & B0); [lra |].
  destruct (rnd_near_31 ((inject_Z n0 + 1) / 100)) as (z1 & E1 & B1 & _);
    [lra |].
  apply flt_fle_trans with (rnd ((inject_Z n0 + 1) / 100)).
  - rewrite E0, E1. apply flt_Fin. lra.
  - apply rnd_mono. lra.
Qed.

(** *** Discounts out of range, in numbers *)

Lemma rnd_0 x : (x == 0)%Q -> rnd x = Fin 0.
Proof. intros H. now rewrite (rnd_comp x 0 H). Qed.

Lemma discount_of_0 s : discount_of (Fin s) (Fin 0) = Fin 0.
Proof.
  unfold discount_of.
  assert (E : fdiv (Fin 0) (Fin 100) = Fin 0) by (vm_compute; reflexivity).
  rewrite E. cbn. apply rnd_0. ring.
Qed.

Lemma discount_of_over x p :
  0 < x <= 1073741824 # 1 -> 100 < p <= 100000 # 1 ->
  12 # 1000 <= x * (p - 100) / 100 ->
  exists dd, discount_of (Fin x) (Fin p) = Fin dd /\ x + (117 # 10000) <= dd.
Proof.
  intros Hx Hp He. unfold discount_of. cbn [fdiv]. cbn [Qeq_bool].
  change (Qeq_bool 100 0) with false. cbv iota.
  assert (Cp : p / 100 == p * (1 # 100)) by field.
  assert (Ce : x * (p - 100) / 100 == x * (p * (1 # 100)) - x) by field.
  destruct (rnd_near_10 (p / 100)) as (q & -> & Q1 & Q2); [lra |].
  cbn [fmul].
  assert (Hq1 : x * (p * (1 # 100)) - (1 # 8192) <= x * q) by nra.
  assert (Hq2 : x * q <= 1099511627776 # 1) by nra.
  assert (Hq3 : 0 <= x * q) by nra.
  destruct (rnd_near_40 (x * q)) as (dd & -> & D1 & _); [lra |].
  exists dd. split; [reflexivity | lra].
Qed.

Lemma discount_of_under x p :
  0 < x <= 1073741824 # 1 -> - (100000 # 1) <= p < 0 ->
  12 # 1000 <= x * (- p) / 100 ->
  exists dd, discount_of (Fin x) (Fin p) = Fin dd /\ dd <= - (117 # 10000).
Proof.
  intros Hx Hp He. unfold discount_of. cbn [fdiv].
  change (Qeq_bool 100 0) with false. cbv iota.
  assert (Cp : p / 100 == p * (1 # 100)) by field.
  assert (Ce : x * (- p) / 100 == - (x * (p * (1 # 100)))) by field.
  destruct (rnd_near_10 (p / 100)) as (q & -> & Q1 & Q2); [lra |].
  cbn [fmul].
  assert (Hq1 : x * q <= x * (p * (1 # 100)) + (1 # 8192)) by nra.
  assert (Hq2 : - (1099511627776 # 1) <= x * q) by nra.
  assert (Hq3 : x * q <= 1 # 1) by nra.
  destruct (rnd_near_40 (x * q)) as (dd & -> & _ & D2); [lra |].
  exists dd. split; [reflexivity | lra].
Qed.

(** the float of the tax rate 0.12 *)
Local Abbreviation tax := (1080863910568919 # 9007199254740992).

(** a discount that exceeds the subtotal by more than a cent leaves a
    total below zero *)
Lemma total_of_below_zero x dd percent :
  discount_of (Fin x) percent = Fin dd -> x + (117 # 10000) <= dd ->
  flt (py_round (total_of (Fin tax) (Fin x) percent) 2) (Fin 0) = true.
Proof.
  intros E H. unfold total_of. rewrite E. cbn [fsub].
  apply fle_flt_trans
    with (py_round (fadd (rnd (- (117 # 10000)))
                         (fmul (rnd (- (117 # 10000))) (Fin tax))) 2);
    [| vm_compute; reflexivity].
  apply py_round_mono; [lia |]. apply with_tax_mono; [reflexivity |].
  apply rnd_mono. lra.
Qed.

(** a negative discount of more than a cent raises the total *)
Lemma total_of_raised x dd percent :
  0 < x <= 1073741824 # 1 ->
  discount_of (Fin x) percent = Fin dd -> dd <= - (117 # 10000) ->
  flt (py_round (total_of (Fin tax) (Fin x) (Fin 0)) 2)
      (py_round (total_of (Fin tax) (Fin x) percent) 2) = true.
Proof.
  intros Hx E H. unfold total_of. rewrite E, discount_of_0. cbn [fsub].
  apply flt_fle_trans
    with (py_round (fadd (rnd (x + (117 # 10000)))
                         (fmul (rnd (x + (117 # 10000))) (Fin tax))) 2).
  2: { apply py_round_mono; [lia |]. apply with_tax_mono; [reflexivity |].
       apply rnd_mono. lra. }
  destruct (rnd_near_31 (x - 0)) as (a0 & -> & A0' & A0); [lra |].
  destruct (rnd_near_31 (x + (117 # 10000))) as (a1 & -> & A1 & A1'); [lra |].
  cbn [fmul].
  destruct (rnd_near_31 (a0 * tax))
    as (t0 & -> & T0 & T0'); [lra |].
  destruct (rnd_near_31 (a1 * tax))
    as (t1 & -> & T1 & T1'); [lra |].
  cbn [fadd].
  destruct (rnd_near_31 (a0 + t0)) as (s0 & -> & S0 & S0'); [lra |].
  destruct (rnd_near_31 (a1 + t1)) as (s1 & -> & S1 & _); [lra |].
  apply py_round_strict; lra.
Qed.

(** *** Agreement with the kernel's binary64 *)

(** on every pair of samples the four operations give the float the
    kernel's binary64 arithmetic gives *)
Example agrees_with_binary64 :
  forallb (fun '(a, b) =>
             agrees fadd PrimFloat.add a b && agrees fsub PrimFloat.sub a b
             && agrees fmul PrimFloat.mul a b && agrees fdiv PrimFloat.div a b)
          sample_pairs = true.
Proof. vm_compute. reflexivity. Qed.

End Rounding.

Import Rounding.

(** ** Calls of the driver *)

Lemma database_tick w : database (tick w) = database w.
Proof. unfold tick. now destruct (later w). Qed.

Lemma stdout_tick w : stdout (tick w) = stdout w.
Proof. unfold tick. now destruct (later w). Qed.

Lemma faults_tick w : faults (tick w) = faults w.
Proof. unfold tick. now destruct (later w). Qed.

Lemma database_called w : database (called w) = database w.
Proof. unfold called. now rewrite database_tick. Qed.

Lemma stdout_called w : stdout (called w) = stdout w.
Proof. unfold called. now rewrite stdout_tick. Qed.

Lemma faults_called w : faults (called w) = tail (faults w).
Proof. unfold called. now rewrite faults_tick. Qed.

Lemma faults_set_database d w : faults (set_database d w) = faults w.
Proof. reflexivity. Qed.

Lemma stdout_set_database d w : stdout (set_database d w) = stdout w.
Proof. reflexivity. Qed.

Lemma database_set_database d w : database (set_database d w) = d.
Proof. reflexivity. Qed.

Lemma database_printed l w : database (printed l w) = database w.
Proof. reflexivity. Qed.

Lemma stdout_printed l w : stdout (printed l w) = (stdout w ++ [l])%list.
Proof. reflexivity. Qed.

Lemma faults_printed l w : faults (printed l w) = faults w.
Proof. reflexivity. Qed.

Lemma database_next_call w : database (next_call w) = database w.
Proof. reflexivity. Qed.

Lemma stdout_next_call w : stdout (next_call w) = stdout w.
Proof. reflexivity. Qed.

Lemma faults_next_call w : faults (next_call w) = tail (faults w).
Proof. reflexivity. Qed.

Create Rewrite HintDb world.
#[export] Hint Rewrite database_called stdout_called faults_called
  faults_set_database stdout_set_database database_set_database
  database_printed stdout_printed faults_printed
  database_next_call stdout_next_call faults_next_call
  database_tick stdout_tick faults_tick : world.

Lemma called_set_database d w :
  called (set_database d w) = set_database d (called w).
Proof. unfold called, tick. cbn. now destruct (later w). Qed.

Lemma no_fault_tail n fs : no_fault (S n) fs = true -> no_fault n (tail fs) = true.
Proof. cbn. destruct fs as [| [e |] fs]; [easy | discriminate | easy]. Qed.

Lemma database_failed own f w : database (failed own f w) = database w.
Proof. reflexivity. Qed.

Lemma stdout_failed own f w :
  stdout (failed own f w) = (stdout w ++ error_lines own f)%list.
Proof. reflexivity. Qed.

Lemma faults_failed own f w : faults (failed own f w) = tail (faults w).
Proof. reflexivity. Qed.

#[export] Hint Rewrite database_failed stdout_failed faults_failed : world.

(** a call of the driver that works: the connection is there and the
    statement runs *)
Lemma driver_ok n w :
  no_fault (S n) (faults w) = true ->
  (get_connection ;;; driver) w = (Return tt, next_call w).
Proof.
  unfold get_connection, pool_get_connection, driver, try_except, bind.
  destruct (faults w) as [| [e |] fs] eqn:E; cbn; intros H; rewrite ?E;
    [reflexivity | discriminate H | reflexivity].
Qed.

(** a call of the driver that fails, at the pool or at the statement *)
Lemma driver_raise {A} (k : M A) own w f fs :
  faults w = Some f :: fs ->
  try_except (get_connection ;;; driver ;;; k)
             (fun e => print (own ++ e) ;;; raise e) w
  = (Raise (message_of f), failed own f w).
Proof.
  intros H.
  unfold get_connection, pool_get_connection, driver, try_except, bind, print,
    raise, failed, printed, next_call, set_faults.
  rewrite H. destruct f; cbn; rewrite ?H; cbn;
    [now rewrite <- app_assoc | reflexivity].
Qed.

Lemma fetch_one_ok {A} (q : selection A) n w :
  no_fault (S n) (faults w) = true ->
  fetch_one q w = (Return (q (now w) (database w)), called w).
Proof.
  intros H. pose proof (driver_ok n w H) as E.
  unfold fetch_one, try_except, bind in *.
  destruct (get_connection w) as [[[] | e] w1]; [| discriminate E].
  rewrite E. cbn. now rewrite database_tick.
Qed.

Lemma fetch_one_raise {A} (q : selection A) w f fs :
  faults w = Some f :: fs ->
  fetch_one q w
  = (Raise (message_of f), failed "Database error in fetch_one: " f w).
Proof. intros H. unfold fetch_one. now apply driver_raise with fs. Qed.

Lemma execute_query_ok (q : statement) n w :
  no_fault (S n) (faults w) = true ->
  execute_query q w
  = (Return (let id := snd (q (now w) (database w)) in
             if (id =? 0)%Z then None else Some id),
     set_database (fst (q (now w) (database w))) (called w)).
Proof.
  intros H. pose proof (driver_ok n w H) as E.
  unfold execute_query, try_except, bind in *.
  destruct (get_connection w) as [[[] | e] w1]; [| discriminate E].
  rewrite E. cbn. rewrite database_tick. cbn.
  now destruct (q (now w) (database w)).
Qed.

Lemma execute_query_raise (q : statement) w f fs :
  faults w = Some f :: fs ->
  execute_query q w = (Raise (message_of f), failed "Database error: " f w).
Proof. intros H. unfold execute_query. now apply driver_raise with fs. Qed.

(** a call either succeeds or raises *)
Lemma faults_cases (fs : list (option fault)) :
  no_fault 1 fs = true \/ exists e fs', fs = Some e :: fs'.
Proof. destruct fs as [| [e |] fs]; eauto. Qed.

(** ** The stock ledger *)

Lemma alter_stock (ps : gmap Z product) P p n :
  ps !! P = Some p ->
  alter (fun p => mk_product (p_product_name p) n) P ps
  = <[P := mk_product (p_product_name p) n]> ps.
Proof.
  intros H. apply map_eq. intros Q. rewrite lookup_alter, lookup_insert.
  destruct (decide (P = Q)) as [-> |]; [now rewrite H | reflexivity].
Qed.

Lemma update_stock_ok w P p d kind user reference note :
  products (database w) !! P = Some p ->
  (0 <= p_stock_quantity p + d)%Z ->
  no_fault 3 (faults w) = true ->
  InventoryManager.update_stock P d kind user reference note w
  = (Return true,
     set_database (stock_changed P d p kind user reference note (database w))
                  (called (called (called w)))).
Proof.
  intros Hp Hd Hf. unfold InventoryManager.update_stock, try_except, bind.
  rewrite (fetch_one_ok _ 2 w Hf). unfold stock_query at 1. rewrite Hp. cbn.
  apply Z.ltb_ge in Hd. rewrite Hd.
  apply no_fault_tail in Hf. rewrite <- faults_called in Hf.
  rewrite (execute_query_ok _ 1 _ Hf). cbn.
  apply no_fault_tail in Hf. rewrite <- faults_called in Hf.
  erewrite (execute_query_ok _ 0); [| exact Hf]. cbn.
  autorewrite with world. cbn. rewrite (alter_stock _ _ _ _ Hp).
  now rewrite called_set_database.
Qed.

(** C1: for a product [P] with stock [s] and a delta [d] with [0 <= s + d],
    a call [update_stock(P, d, kind, user, reference, note)] whose three
    calls of the driver succeed returns [True], leaves [P] with stock
    [s + d], every other product as it was, and appends exactly one row to
    [inventory_transactions], with [previous_stock = s],
    [new_stock = s + d], [quantity_change = d] and the given kind,
    reference, note and user. *)
Theorem update_stock_applies w P p d kind user reference note :
  products (database w) !! P = Some p ->
  (0 <= p_stock_quantity p + d)%Z ->
  no_fault 3 (faults w) = true ->
  let s := p_stock_quantity p in
  let r := InventoryManager.update_stock P d kind user reference note w in
  result_of r = Return true
  /\ products (database (world_of r))
     = <[P := mk_product (p_product_name p) (s + d)]> (products (database w))
  /\ inventory_transactions (database (world_of r))
     = (inventory_transactions (database w)
        ++ [mk_inventory_transaction P kind d s (s + d) reference note user])%list
  /\ sales (database (world_of r)) = sales (database w)
  /\ sale_items (database (world_of r)) = sale_items (database w)
  /\ stdout (world_of r) = stdout w.
Proof.
  intros Hp Hd Hf s r. subst r.
  rewrite (update_stock_ok _ _ _ _ _ _ _ _ Hp Hd Hf).
  unfold result_of, world_of. cbn. autorewrite with world.
  repeat split; reflexivity.
Qed.

Lemma update_stock_short w P p d kind user reference note :
  products (database w) !! P = Some p ->
  (p_stock_quantity p + d < 0)%Z ->
  no_fault 1 (faults w) = true ->
  InventoryManager.update_stock P d kind user reference note w
  = (Return false,
     printed ("Insufficient stock. Available: " ++ pretty (p_stock_quantity p))
             (called w)).
Proof.
  intros Hp Hd Hf. unfold InventoryManager.update_stock, try_except, bind.
  rewrite (fetch_one_ok _ 0 w Hf). unfold stock_query at 1. rewrite Hp. cbn.
  apply Z.ltb_lt in Hd. now rewrite Hd.
Qed.

Lemma update_stock_unread w P d kind user reference note e fs :
  faults w = Some e :: fs ->
  InventoryManager.update_stock P d kind user reference note w
  = (Return false,
     printed ("Error updating stock: " ++ message_of e)
       (failed "Database error in fetch_one: " e w)).
Proof.
  intros He. unfold InventoryManager.update_stock, try_except, bind.
  now rewrite (fetch_one_raise _ w e fs He).
Qed.

(** C2: for a product [P] with stock [s] and a delta [d] with [s + d < 0],
    [update_stock(P, d, ...)] returns [False] and leaves every table as it
    was, whatever the driver does; and when the stock could be read, the
    one line it prints is the insufficient-stock message. *)
Theorem update_stock_insufficient w P p d kind user reference note :
  products (database w) !! P = Some p ->
  (p_stock_quantity p + d < 0)%Z ->
  let r := InventoryManager.update_stock P d kind user reference note w in
  result_of r = Return false
  /\ database (world_of r) = database w
  /\ (no_fault 1 (faults w) = true ->
      stdout (world_of r)
      = app (stdout w)
            ["Insufficient stock. Available: " ++ pretty (p_stock_quantity p)]).
Proof.
  intros Hp Hd r. subst r.
  destruct (faults_cases (faults w)) as [Hf | (e & fs & He)].
  - rewrite (update_stock_short _ _ _ _ _ _ _ _ Hp Hd Hf).
    unfold result_of, world_of. cbn. autorewrite with world. auto.
  - rewrite (update_stock_unread _ _ _ _ _ _ _ _ _ He).
    unfold result_of, world_of. cbn. repeat split.
    rewrite He. discriminate.
Qed.

Lemma update_stock_applies_witness :
  let r := InventoryManager.update_stock 1 (-4) "sale" (Some 7%Z) None None shop in
  result_of r = Return true
  /\ products (database (world_of r))
     = <[1%Z := mk_product "Milk" 6]> (products shelf)
  /\ inventory_transactions (database (world_of r))
     = [mk_inventory_transaction 1 "sale" (-4) 10 6 None None (Some 7%Z)]
  /\ sales (database (world_of r)) = []
  /\ sale_items (database (world_of r)) = []
  /\ stdout (world_of r) = [].
Proof.
  apply (update_stock_applies shop 1 (mk_product "Milk" 10) (-4) "sale"
           (Some 7%Z) None None); [reflexivity | cbn; lia | reflexivity].
Defined.

Lemma update_stock_insufficient_witness :
  let r := InventoryManager.update_stock 1 (-14) "sale" (Some 7%Z) None None shop in
  result_of r = Return false
  /\ database (world_of r) = shelf
  /\ (no_fault 1 [] = true ->
      stdout (world_of r) = ["Insufficient stock. Available: 10"]).
Proof.
  apply (update_stock_insufficient shop 1 (mk_product "Milk" 10) (-14) "sale"
           (Some 7%Z) None None); [reflexivity | cbn; lia].
Defined.

(** ** The availability check *)

Lemma check_stock_availability_ok w P q :
  no_fault 1 (faults w) = true ->
  InventoryManager.check_stock_availability P q w
  = (Return (available (database w) P q), called w).
Proof.
  intros Hf. unfold InventoryManager.check_stock_availability, try_except, bind.
  rewrite (fetch_one_ok _ 0 w Hf). unfold stock_query, available.
  now destruct (products (database w) !! P).
Qed.

Lemma check_stock_availability_raise w P q e fs :
  faults w = Some e :: fs ->
  InventoryManager.check_stock_availability P q w
  = (Return false,
     printed ("Error checking stock: " ++ message_of e)
       (failed "Database error in fetch_one: " e w)).
Proof.
  intros He. unfold InventoryManager.check_stock_availability, try_except, bind.
  now rewrite (fetch_one_raise _ w e fs He).
Qed.

(** the check returns, never raises, and writes nothing *)
Lemma check_stock_availability_reads w P q :
  exists b w',
    InventoryManager.check_stock_availability P q w = (Return b, w')
    /\ database w' = database w
    /\ (b = true -> available (database w) P q = true).
Proof.
  destruct (faults_cases (faults w)) as [Hf | (e & fs & He)].
  - rewrite (check_stock_availability_ok w P q Hf).
    eexists _, _. split; [reflexivity |]. autorewrite with world. auto.
  - rewrite (check_stock_availability_raise w P q e fs He).
    eexists _, _. split; [reflexivity |]. cbn. split; [reflexivity | discriminate].
Qed.

Lemma check_cart_reads cart : forall w,
  exists b w',
    SalesManager.check_cart cart w = (Return b, w')
    /\ database w' = database w
    /\ (b = true -> forallb (fun i => negb (unavailable (database w) i)) cart = true).
Proof.
  induction cart as [| item rest IH]; intros w; cbn.
  - eexists _, _. repeat split.
  - unfold bind.
    destruct (check_stock_availability_reads w (product_id item) (quantity item))
      as (b & w1 & -> & Hd & Hb).
    destruct b.
    + destruct (IH w1) as (b' & w2 & -> & Hd' & Hb').
      exists b', w2. split; [reflexivity |]. split; [congruence |].
      intros ->. unfold unavailable at 1. rewrite (Hb eq_refl). cbn.
      rewrite <- Hd. auto.
    + eexists _, _. split; [reflexivity |]. cbn. split; [exact Hd | discriminate].
Qed.

Lemma check_cart_refuses cart w item :
  item ∈ cart -> unavailable (database w) item = true ->
  exists w', SalesManager.check_cart cart w = (Return false, w')
             /\ database w' = database w.
Proof.
  intros Hin Hu. destruct (check_cart_reads cart w) as (b & w' & E & Hd & Hb).
  exists w'. split; [| exact Hd]. destruct b; [| exact E]. exfalso.
  specialize (Hb eq_refl). rewrite forallb_forall in Hb.
  apply list_elem_of_In in Hin. specialize (Hb item Hin).
  rewrite Hu in Hb. discriminate.
Qed.

(** with a driver that works, the loop stops at the first line that is
    not available and names it *)
Lemma check_cart_names cart : forall w item,
  no_fault (length cart) (faults w) = true ->
  find (unavailable (database w)) cart = Some item ->
  exists n,
    SalesManager.check_cart cart w
    = (Return false,
       printed ("Insufficient stock for " ++ product_name item) (calls n w)).
Proof.
  induction cart as [| i rest IH]; intros w item Hf Hfind; [discriminate |].
  cbn in Hfind. cbn [SalesManager.check_cart]. unfold bind.
  assert (Hf1 : no_fault 1 (faults w) = true).
  { cbn in *. destruct (faults w) as [| [e |] fs]; easy. }
  rewrite (check_stock_availability_ok w _ _ Hf1).
  unfold unavailable at 1 in Hfind.
  destruct (available (database w) (product_id i) (quantity i)); cbn in Hfind.
  - apply no_fault_tail in Hf. rewrite <- faults_called in Hf.
    rewrite <- (database_called w) in Hfind.
    destruct (IH (called w) item Hf Hfind) as (n & ->).
    now exists (S n).
  - injection Hfind as ->. now exists 1%nat.
Qed.

Lemma database_calls n : forall w, database (calls n w) = database w.
Proof.
  induction n as [| n IH]; intros w; [reflexivity |].
  cbn. now rewrite IH, database_called.
Qed.

Lemma stdout_calls n : forall w, stdout (calls n w) = stdout w.
Proof.
  induction n as [| n IH]; intros w; [reflexivity |].
  cbn. now rewrite IH, stdout_called.
Qed.

Section Interpreter.

Context {python : cpython}.

(** ** A sale that cannot be served *)

Lemma find_first {A} (f : A -> bool) (l : list A) (x : A) :
  x ∈ l -> f x = true ->
  exists y, find f l = Some y /\ y ∈ l /\ f y = true.
Proof.
  intros Hin Hx. destruct (find f l) as [y |] eqn:E.
  - destruct (find_some _ _ E) as [Hy1 Hy2].
    exists y. repeat split; [now apply list_elem_of_In | exact Hy2].
  - apply list_elem_of_In in Hin. rewrite (find_none _ _ E x Hin) in Hx.
    discriminate.
Qed.

Lemma process_sale_refuses config cart name phone percent method cashier w item :
  item ∈ cart -> unavailable (database w) item = true ->
  let r := SalesManager.process_sale config cart name phone percent method
             cashier w in
  result_of r = Return None /\ database (world_of r) = database w.
Proof.
  intros Hin Hu r. subst r.
  destruct (check_cart_refuses cart w item Hin Hu) as (w' & E & Hd).
  destruct cart as [| i rest]; [now apply not_elem_of_nil in Hin |].
  unfold SalesManager.process_sale, bind. rewrite E. cbn. auto.
Qed.

Lemma process_sale_names config cart name phone percent method cashier w item :
  no_fault (length cart) (faults w) = true ->
  find (unavailable (database w)) cart = Some item ->
  stdout (world_of (SalesManager.process_sale config cart name phone percent
                      method cashier w))
  = app (stdout w) ["Insufficient stock for " ++ product_name item].
Proof.
  intros Hf Hfind.
  destruct (check_cart_names cart w item Hf Hfind) as (n & E).
  destruct cart as [| i rest]; [discriminate |].
  unfold SalesManager.process_sale, bind. rewrite E. cbn.
  now rewrite stdout_calls.
Qed.

(** C4: when a line of a non-empty cart asks for more than its product's
    stock, [process_sale] returns [None] and the database is as it was: no
    header, no [sale_items] row, no ledger row, no stock changed; and with
    a driver that works the one line printed names the first line of the
    cart that is not available. *)
Theorem process_sale_insufficient_stock
    config cart name phone percent method cashier w item p :
  item ∈ cart ->
  products (database w) !! product_id item = Some p ->
  (p_stock_quantity p < quantity item)%Z ->
  let r := SalesManager.process_sale config cart name phone percent method
             cashier w in
  result_of r = Return None
  /\ database (world_of r) = database w
  /\ (no_fault (length cart) (faults w) = true ->
      exists offending,
        find (unavailable (database w)) cart = Some offending
        /\ offending ∈ cart
        /\ unavailable (database w) offending = true
        /\ stdout (world_of r)
           = app (stdout w)
                 ["Insufficient stock for " ++ product_name offending]).
Proof.
  intros Hin Hp Hq r.
  assert (Hu : unavailable (database w) item = true).
  { unfold unavailable, available. rewrite Hp.
    apply negb_true_iff, Z.leb_gt, Hq. }
  destruct (process_sale_refuses config cart name phone percent method
              cashier w item Hin Hu) as [H1 H2].
  split; [exact H1 |]. split; [exact H2 |]. intros Hf.
  destruct (find_first _ _ _ Hin Hu) as (y & Hy1 & Hy2 & Hy3).
  exists y. repeat split; try assumption.
  now apply process_sale_names.
Qed.

(** C9: for a product id with no row, [check_stock_availability] answers
    [False] whatever the quantity (and whatever the driver does); so a cart
    with a line for it makes [process_sale] return [None] with the database
    as it was, and with a driver that works the one line printed is the
    insufficient-stock message for the first line that is not available:
    there is no failure of its own for a product that does not exist. *)
Theorem missing_product_is_insufficient_stock
    config cart name phone percent method cashier w item :
  item ∈ cart ->
  products (database w) !! product_id item = None ->
  (forall q, result_of (InventoryManager.check_stock_availability
                          (product_id item) q w) = Return false)
  /\ let r := SalesManager.process_sale config cart name phone percent method
                cashier w in
     result_of r = Return None
     /\ database (world_of r) = database w
     /\ (no_fault (length cart) (faults w) = true ->
         exists offending,
           find (unavailable (database w)) cart = Some offending
           /\ stdout (world_of r)
              = app (stdout w)
                    ["Insufficient stock for " ++ product_name offending]).
Proof.
  intros Hin Hp. split.
  - intros q.
    destruct (check_stock_availability_reads w (product_id item) q)
      as (b & w' & -> & _ & Hb).
    destruct b; [| reflexivity]. specialize (Hb eq_refl).
    unfold available in Hb. rewrite Hp in Hb. discriminate.
  - intros r.
    assert (Hu : unavailable (database w) item = true).
    { unfold unavailable, available. now rewrite Hp. }
    destruct (process_sale_refuses config cart name phone percent method
                cashier w item Hin Hu) as [H1 H2].
    split; [exact H1 |]. split; [exact H2 |]. intros Hf.
    destruct (find_first _ _ _ Hin Hu) as (y & Hy1 & _ & _).
    exists y. split; [exact Hy1 |]. now apply process_sale_names.
Qed.

Example two_milk_init : CartItem_init 1 "Milk" "4800016" (Fin 10) 2 = Some two_milk.
Proof. vm_compute. reflexivity. Qed.

Example crate_of_milk_init :
  CartItem_init 1 "Milk" "4800016" (Fin 10) 20 = Some crate_of_milk.
Proof. vm_compute. reflexivity. Qed.

Example caviar_init : CartItem_init 9 "Caviar" "4800999" (Fin 900) 1 = Some caviar.
Proof. vm_compute. reflexivity. Qed.

(** ** Sale numbers *)

Lemma generate_sale_number_fallback w e fs :
  faults (tick w) = Some e :: fs ->
  result_of (SalesManager.generate_sale_number w)
  = Return ("SALE-" ++ strftime_Ymd (now w) ++ "-"
            ++ strftime_HMS (now (tick w))).
Proof.
  intros He. unfold SalesManager.generate_sale_number, bind, try_except.
  cbn. now rewrite (fetch_one_raise _ _ e fs He).
Qed.

(** C6, at a failing input: two invocations that both fall back, within the
    same second, return the same sale number. *)
Theorem fallback_sale_numbers_collide :
  let r1 := SalesManager.generate_sale_number count_down_twice in
  let r2 := SalesManager.generate_sale_number (world_of r1) in
  result_of r1 = Return "SALE-20250101-090507"
  /\ result_of r2 = Return "SALE-20250101-090507".
Proof. vm_compute. split; reflexivity. Qed.

Lemma date_eqb_eq a b : date_eqb a b = true <-> date_of a = date_of b.
Proof.
  unfold date_eqb, date_of. rewrite !andb_true_iff, !Nat.eqb_eq.
  split; [intros [[-> ->] ->]; reflexivity | intros [= -> -> ->]; auto].
Qed.

Lemma sales_on_date t t' d : date_of t = date_of t' -> sales_on t d = sales_on t' d.
Proof.
  intros H. unfold sales_on. apply list_filter_iff. intros s.
  rewrite !date_eqb_eq. now rewrite H.
Qed.

Lemma strftime_Ymd_date t t' :
  date_of t = date_of t' -> strftime_Ymd t = strftime_Ymd t'.
Proof. unfold date_of, strftime_Ymd. now intros [= -> -> ->]. Qed.

Lemma on_date_now dt w : on_date dt w = true -> date_of (now w) = dt.
Proof.
  unfold on_date. cbn. rewrite andb_true_iff. intros [H _].
  now apply bool_decide_eq_true in H.
Qed.

Lemma on_date_tick dt w : on_date dt w = true -> on_date dt (tick w) = true.
Proof.
  unfold on_date, tick. intros H.
  destruct (later w) as [| t ts] eqn:E.
  - now rewrite E.
  - cbn in *. now apply andb_true_iff in H as [_ H].
Qed.

Lemma on_date_called dt w : on_date dt w = true -> on_date dt (called w) = true.
Proof. intros H. unfold called. now apply on_date_tick. Qed.

Lemma generate_sale_number_ok w :
  no_fault 1 (faults w) = true ->
  SalesManager.generate_sale_number w
  = (Return ("SALE-" ++ strftime_Ymd (now w) ++ "-"
             ++ format_04d (Z.of_nat (length (sales_on (now (tick w))
                                                (database w))) + 1)),
     called (tick w)).
Proof.
  intros Hf. unfold SalesManager.generate_sale_number, bind, try_except. cbn.
  rewrite <- faults_tick in Hf. rewrite (fetch_one_ok _ 0 _ Hf).
  unfold count_query. now rewrite database_tick.
Qed.

(** C7, in the form that holds: on a date on which [n] sales are recorded,
    a generation whose count query succeeds returns ["SALE-" + YYYYMMDD +
    "-"] followed by [n + 1] zero-padded to 4 digits; once a sale with that
    number is recorded on the same date, the next generation returns the
    number for [n + 2]; so with no other sales, and the first number's sale
    recorded in between, the two are [SALE-YYYYMMDD-0001] and
    [SALE-YYYYMMDD-0002]. *)
Theorem sale_numbers_count_up w dt n :
  on_date dt w = true ->
  length (sales_on (now w) (database w)) = n ->
  let ymd := strftime_Ymd (now w) in
  let r1 := SalesManager.generate_sale_number w in
  (no_fault 1 (faults w) = true ->
   result_of r1 = Return ("SALE-" ++ ymd ++ "-" ++ format_04d (Z.of_nat n + 1)))
  /\ (no_fault 3 (faults w) = true ->
      forall number name phone subtotal tax discount total method cashier,
        result_of r1 = Return number ->
        let r2 := execute_query
                    (sale_query number name phone subtotal tax discount total
                                method cashier) (world_of r1) in
        let r3 := SalesManager.generate_sale_number (world_of r2) in
        result_of r3
        = Return ("SALE-" ++ ymd ++ "-" ++ format_04d (Z.of_nat n + 2))
        /\ (n = 0%nat ->
            number = "SALE-" ++ ymd ++ "-0001"
            /\ result_of r3 = Return ("SALE-" ++ ymd ++ "-0002"))).
Proof.
  intros Hd Hn ymd r1.
  assert (G1 : no_fault 1 (faults w) = true ->
               r1 = (Return ("SALE-" ++ ymd ++ "-" ++ format_04d (Z.of_nat n + 1)),
                     called (tick w))).
  { intros Hf. subst r1. rewrite (generate_sale_number_ok w Hf).
    rewrite (sales_on_date (now (tick w)) (now w)), Hn; [reflexivity |].
    rewrite (on_date_now dt w Hd). now apply on_date_now, on_date_tick. }
  split; [intros Hf; now rewrite (G1 Hf) |].
  intros Hf number name phone subtotal tax discount total method cashier Hr1 r2 r3.
  assert (Hf1 : no_fault 1 (faults w) = true).
  { cbn in *. destruct (faults w) as [| [e |] fs]; easy. }
  assert (E1 := G1 Hf1). clear G1. subst r3 r2. rewrite E1 in *. clear E1.
  unfold world_of. cbn [snd].
  apply no_fault_tail in Hf.
  set (w1 := called (tick w)).
  assert (Hf2 : no_fault 2 (faults w1) = true)
    by (unfold w1; now rewrite faults_called, faults_tick).
  assert (Hd1 : on_date dt w1 = true) by now apply on_date_called, on_date_tick.
  rewrite (execute_query_ok _ 1 w1 Hf2). cbn [snd fst sale_query].
  set (w2 := set_database _ (called w1)).
  assert (Hf3 : no_fault 1 (faults w2) = true).
  { unfold w2. rewrite faults_set_database, faults_called.
    now apply no_fault_tail. }
  assert (Hd2 : on_date dt w2 = true) by exact (on_date_called dt w1 Hd1).
  assert (E3 : result_of (SalesManager.generate_sale_number w2)
               = Return ("SALE-" ++ ymd ++ "-" ++ format_04d (Z.of_nat n + 2))).
  { rewrite (generate_sale_number_ok w2 Hf3). unfold result_of. cbn [fst].
    rewrite (strftime_Ymd_date (now w2) (now w)).
    2: { now rewrite (on_date_now dt w Hd), (on_date_now dt w2 Hd2). }
    rewrite (sales_on_date (now (tick w2)) (now w)).
    2: { rewrite (on_date_now dt w Hd).
         now apply on_date_now, on_date_tick. }
    unfold sales_on, w2. rewrite database_set_database. cbn [sales].
    rewrite filter_app, length_app.
    unfold w1 at 1. rewrite database_called, database_tick.
    fold (sales_on (now w) (database w)). rewrite Hn.
    rewrite filter_cons_True.
    2: { cbn. apply date_eqb_eq.
         now rewrite (on_date_now dt w Hd), (on_date_now dt w1 Hd1). }
    cbn [length filter]. rewrite filter_nil. cbn [length].
    replace (Z.of_nat (n + 1) + 1)%Z with (Z.of_nat n + 2)%Z by lia.
    reflexivity. }
  split; [exact E3 |]. intros ->. rewrite E3. split; [| reflexivity].
  unfold result_of in Hr1. cbn in Hr1. now injection Hr1 as <-.
Qed.

(** [:04d] pads with zeros up to four digits and cuts nothing off *)
Example format_04d_samples :
  format_04d 1 = "0001" /\ format_04d 42 = "0042" /\ format_04d 9999 = "9999"
  /\ format_04d 10000 = "10000".
Proof. vm_compute. repeat split. Qed.

Lemma sale_numbers_count_up_witness :
  let ymd := strftime_Ymd (now shop) in
  let r1 := SalesManager.generate_sale_number shop in
  (no_fault 1 (faults shop) = true ->
   result_of r1 = Return ("SALE-" ++ ymd ++ "-" ++ format_04d (Z.of_nat 0 + 1)))
  /\ (no_fault 3 (faults shop) = true ->
      forall number name phone subtotal tax discount total method cashier,
        result_of r1 = Return number ->
        let r2 := execute_query
                    (sale_query number name phone subtotal tax discount total
                                method cashier) (world_of r1) in
        let r3 := SalesManager.generate_sale_number (world_of r2) in
        result_of r3
        = Return ("SALE-" ++ ymd ++ "-" ++ format_04d (Z.of_nat 0 + 2))
        /\ (0%nat = 0%nat ->
            number = "SALE-" ++ ymd ++ "-0001"
            /\ result_of r3 = Return ("SALE-" ++ ymd ++ "-0002"))).
Proof.
  apply (sale_numbers_count_up shop (2025, 1, 1)%nat 0); reflexivity.
Defined.

(** C7 as stated fails at the shop: no sale is recorded on the date and
    the count succeeds, but two successive generations both return
    [SALE-20250101-0001]; the second is not [SALE-20250101-0002], because
    generating a number records nothing. *)
Lemma successive_generations_counterexample :
  let r1 := SalesManager.generate_sale_number shop in
  let r2 := SalesManager.generate_sale_number (world_of r1) in
  on_date (2025, 1, 1)%nat shop = true
  /\ sales (database shop) = []
  /\ no_fault 2 (faults shop) = true
  /\ result_of r1 = Return "SALE-20250101-0001"
  /\ result_of r2 = Return "SALE-20250101-0001"
  /\ result_of r2 <> Return "SALE-20250101-0002".
Proof. vm_compute. repeat split. discriminate. Qed.

(** ** A sale whose ledger update fails *)

(** [update_stock] catches what the driver raises: it always returns *)
Lemma update_stock_returns P d kind user reference note w :
  exists b, result_of (InventoryManager.update_stock P d kind user reference
                         note w) = Return b.
Proof.
  unfold InventoryManager.update_stock, try_except, result_of.
  destruct (bind _ _ w) as [[b | e] w']; cbn; eauto.
Qed.

(** For a cart of one line: once the header and the line are in, the sale
    is reported as made, whatever [update_stock] did. *)
Lemma single_line_sale_reported config item name phone percent method cashier w :
  no_fault 4 (faults w) = true ->
  unavailable (database w) item = false ->
  sales_auto_increment (database w) <> 0%Z ->
  result_of (SalesManager.process_sale config [item] name phone percent method
               cashier w)
  = Return (Some (sales_auto_increment (database w))).
Proof.
  intros Hf Hav Hid. apply negb_false_iff in Hav.
  unfold SalesManager.process_sale, bind. cbn [SalesManager.check_cart].
  unfold bind.
  assert (Hf1 : no_fault 1 (faults w) = true).
  { cbn in *. destruct (faults w) as [| [e |] fs]; easy. }
  rewrite (check_stock_availability_ok w _ _ Hf1), Hav. cbn [ret negb].
  apply no_fault_tail in Hf. rewrite <- faults_called in Hf.
  assert (Hf2 : no_fault 1 (faults (called w)) = true).
  { cbn in *. destruct (faults (called w)) as [| [e |] fs]; easy. }
  rewrite (generate_sale_number_ok _ Hf2). unfold try_except, bind.
  apply no_fault_tail in Hf. rewrite <- faults_tick, <- faults_called in Hf.
  rewrite (execute_query_ok _ 1 _ Hf). cbn [sale_query fst snd].
  cbn [SalesManager.record_items]. unfold bind.
  apply no_fault_tail in Hf.
  match goal with |- context [execute_query ?q ?w'] =>
    assert (Hf4 : no_fault 1 (faults w') = true)
      by (now rewrite faults_set_database, faults_called);
    rewrite (execute_query_ok q 0 w' Hf4)
  end.
  match goal with |- context [InventoryManager.update_stock ?a ?b ?c ?d ?e ?f ?w'] =>
    destruct (update_stock_returns a b c d e f w') as [ok Hok];
    destruct (InventoryManager.update_stock a b c d e f w') as [r w'']
  end.
  unfold result_of in Hok. cbn in Hok. subst r. cbn.
  autorewrite with world.
  now destruct (Z.eqb_spec (sales_auto_increment (database w)) 0).
Qed.

(** C5, at a failing input: the header and the line are in, the ledger
    update of the line fails (no stock change, no ledger row), and
    [process_sale] still returns the sale id, not [None]: the result of
    [update_stock] is not looked at. Nothing is rolled back. *)
Theorem process_sale_ledger_failure_unreported :
  let r := SalesManager.process_sale BUSINESS_CONFIG [two_milk] None None
             (Fin 0) "cash" (Some 3%Z) connection_lost_in_ledger in
  result_of r = Return (Some 1%Z)
  /\ map s_sale_number (sales (database (world_of r))) = ["SALE-20250101-0001"]
  /\ sale_items (database (world_of r))
     = [mk_sale_item (Some 1%Z) 1 2 (Fin 10) (Fin 20)]
  /\ inventory_transactions (database (world_of r)) = []
  /\ products (database (world_of r)) !! 1%Z = Some (mk_product "Milk" 10)
  /\ stdout (world_of r)
     = ["Database error: Lost connection";
        "Error updating stock: Lost connection"].
Proof. destruct python; vm_compute; repeat split. Qed.

(** the same cart when it is the INSERT of the line that fails: this one
    is reported, and the header stays *)
Example process_sale_item_failure_reported :
  let w := set_faults [None; None; None;
                       Some (statement_error "Lost connection")] shop in
  let r := SalesManager.process_sale BUSINESS_CONFIG [two_milk] None None
             (Fin 0) "cash" (Some 3%Z) w in
  result_of r = Return None
  /\ map s_sale_number (sales (database (world_of r))) = ["SALE-20250101-0001"]
  /\ sale_items (database (world_of r)) = []
  /\ inventory_transactions (database (world_of r)) = [].
Proof. destruct python; vm_compute; repeat split. Qed.

(** ** Adjusting the stock to a target *)

Lemma no_fault_S n fs :
  no_fault 1 fs = true -> no_fault n (tail fs) = true -> no_fault (S n) fs = true.
Proof. cbn. now destruct fs as [| [e |] fs]. Qed.

(** [update_stock] answers [True] only on the path that wrote both rows *)
Lemma update_stock_true w P d kind user reference note :
  result_of (InventoryManager.update_stock P d kind user reference note w)
  = Return true ->
  exists p, products (database w) !! P = Some p
            /\ (0 <= p_stock_quantity p + d)%Z
            /\ no_fault 3 (faults w) = true.
Proof.
  destruct (faults_cases (faults w)) as [Hf1 | (e & fs & He)].
  2: { now rewrite (update_stock_unread _ _ _ _ _ _ _ _ _ He). }
  unfold InventoryManager.update_stock, try_except, bind.
  rewrite (fetch_one_ok _ 0 w Hf1). unfold stock_query at 1.
  destruct (products (database w) !! P) as [p |] eqn:Hp; cbn; [| discriminate].
  destruct (p_stock_quantity p + d <? 0)%Z eqn:Hd; [discriminate |].
  apply Z.ltb_ge in Hd.
  destruct (faults_cases (faults (called w))) as [Hf2 | (e & fs & He)].
  2: { now rewrite (execute_query_raise _ _ _ _ He). }
  rewrite (execute_query_ok _ 0 _ Hf2). cbn.
  match goal with |- context [execute_query ?q ?w'] =>
    destruct (faults_cases (faults w')) as [Hf3 | (e & fs & He)];
    [rewrite (execute_query_ok q 0 w' Hf3)
    | now rewrite (execute_query_raise q w' e fs He)]
  end.
  intros _. exists p. split; [reflexivity |]. split; [exact Hd |].
  rewrite faults_set_database, !faults_called in Hf3.
  rewrite faults_called in Hf2.
  change (no_fault 3 (faults w) = true). now apply no_fault_S, no_fault_S.
Qed.

Lemma adjust_stock_ok w P p t user notes :
  products (database w) !! P = Some p ->
  (0 <= t)%Z ->
  no_fault 4 (faults w) = true ->
  InventoryManager.adjust_stock P t user notes w
  = (Return true,
     set_database
       (stock_changed P (t - p_stock_quantity p) p "adjustment" user None notes
                      (database w))
       (calls 4 w)).
Proof.
  intros Hp Ht Hf. unfold InventoryManager.adjust_stock, bind.
  rewrite (fetch_one_ok _ 3 w Hf). unfold stock_query at 1. rewrite Hp. cbn.
  apply no_fault_tail in Hf. rewrite <- faults_called in Hf.
  rewrite <- (database_called w) in Hp.
  rewrite (update_stock_ok _ _ _ _ _ _ _ _ Hp); [| lia | exact Hf].
  now rewrite database_called.
Qed.

Lemma adjust_stock_true w P t user notes :
  result_of (InventoryManager.adjust_stock P t user notes w) = Return true ->
  exists p, products (database w) !! P = Some p
            /\ (0 <= t)%Z
            /\ no_fault 4 (faults w) = true.
Proof.
  unfold InventoryManager.adjust_stock, bind.
  destruct (faults_cases (faults w)) as [Hf1 | (e & fs & He)].
  2: { now rewrite (fetch_one_raise _ _ _ _ He). }
  rewrite (fetch_one_ok _ 0 w Hf1). unfold stock_query at 1.
  destruct (products (database w) !! P) as [p |] eqn:Hp; cbn; [| discriminate].
  intros H. apply update_stock_true in H as (p' & Hp' & Hd & Hf).
  rewrite database_called, Hp in Hp'. injection Hp' as <-.
  exists p. split; [reflexivity |]. split; [lia |].
  rewrite faults_called in Hf.
  change (no_fault 4 (faults w) = true). now apply no_fault_S.
Qed.

(** C8: once [adjust_stock(P, t)] has succeeded, [P] has stock [t]
    ([0 <= t]), and a second [adjust_stock(P, t)] whose calls of the driver
    succeed returns [True], leaves the products as they are, and appends
    one ledger row of kind [adjustment] with [quantity_change = 0] and
    [previous_stock = new_stock = t]: the zero delta is recorded. *)
Theorem adjust_stock_twice w P t user notes user' notes' :
  let r1 := InventoryManager.adjust_stock P t user notes w in
  let r2 := InventoryManager.adjust_stock P t user' notes' (world_of r1) in
  result_of r1 = Return true ->
  no_fault 4 (faults (world_of r1)) = true ->
  (0 <= t)%Z
  /\ (exists name,
        products (database (world_of r1)) !! P = Some (mk_product name t))
  /\ result_of r2 = Return true
  /\ products (database (world_of r2)) = products (database (world_of r1))
  /\ inventory_transactions (database (world_of r2))
     = app (inventory_transactions (database (world_of r1)))
           [mk_inventory_transaction P "adjustment" 0 t t None notes' user'].
Proof.
  intros r1 r2 H1 Hf2.
  destruct (adjust_stock_true _ _ _ _ _ H1) as (p & Hp & Ht & Hf1).
  subst r2. revert Hf2. subst r1.
  rewrite (adjust_stock_ok w P p t user notes Hp Ht Hf1).
  unfold world_of. cbn [snd]. intros Hf2.
  set (w1 := set_database _ _) in *.
  assert (Hp1 : products (database w1) !! P = Some (mk_product (p_product_name p) t)).
  { unfold w1. rewrite database_set_database. cbn. rewrite lookup_insert_eq.
    do 2 f_equal. lia. }
  rewrite (adjust_stock_ok w1 P _ t user' notes' Hp1 Ht Hf2).
  unfold result_of. cbn [fst snd]. rewrite database_set_database.
  cbn [stock_changed p_stock_quantity p_product_name products
       inventory_transactions ledger_row].
  replace (t - t)%Z with 0%Z by lia. unfold ledger_row. rewrite !Z.add_0_r.
  split; [exact Ht |]. split; [eauto |]. split; [reflexivity |].
  split; [now apply insert_id | reflexivity].
Qed.

Lemma adjust_stock_twice_witness :
  let r1 := InventoryManager.adjust_stock 1 7 (Some 3%Z) (Some "recount") shop in
  let r2 := InventoryManager.adjust_stock 1 7 (Some 4%Z) None (world_of r1) in
  (0 <= 7)%Z
  /\ (exists name,
        products (database (world_of r1)) !! 1%Z = Some (mk_product name 7))
  /\ result_of r2 = Return true
  /\ products (database (world_of r2)) = products (database (world_of r1))
  /\ inventory_transactions (database (world_of r2))
     = app (inventory_transactions (database (world_of r1)))
           [mk_inventory_transaction 1 "adjustment" 0 7 7 None None (Some 4%Z)].
Proof.
  apply (adjust_stock_twice shop 1 7 (Some 3%Z) (Some "recount") (Some 4%Z) None);
    reflexivity.
Defined.

(** ** The totals calculator *)

Lemma calculate_totals_amounts config cart percent :
  let s := py_sum (map subtotal cart) in
  SalesManager.calculate_totals config cart percent
  = mk_totals (py_round s 2) percent
      (py_round (discount_of s percent) 2)
      (py_round (fmul (fsub s (discount_of s percent)) (tax_rate config)) 2)
      (py_round (total_of (tax_rate config) s percent) 2).
Proof. reflexivity. Qed.

Lemma tax_rate_value :
  tax_rate BUSINESS_CONFIG = Fin (1080863910568919 # 9007199254740992).
Proof. vm_compute. reflexivity. Qed.

Lemma fadd_float a b : is_float (fadd a b) = true.
Proof. destruct a, b; try reflexivity. apply rnd_float. Qed.

Lemma compensated_sum_float rest : forall acc,
  is_float (fst acc) = true ->
  is_float (fst (fold_left compensated_add rest acc)) = true.
Proof.
  induction rest as [| x rest IH]; intros [f c] H; [exact H |].
  cbn [fold_left]. apply IH. apply fadd_float.
Qed.

Lemma py_sum_float xs : is_float (py_sum xs) = true.
Proof.
  unfold py_sum. destruct python.
  - assert (H : forall a, is_float a = true ->
                          is_float (fold_left fadd xs a) = true).
    { induction xs as [| x xs IH]; intros a Ha; [exact Ha |].
      cbn [fold_left]. apply IH. apply fadd_float. }
    apply H. vm_compute. reflexivity.
  - destruct xs as [| x rest]; [vm_compute; reflexivity |].
    pose proof (compensated_sum_float rest (fadd (Fin 0) x, Fin 0)
                  (fadd_float _ _)) as H.
    destruct (fold_left compensated_add rest (fadd (Fin 0) x, Fin 0)) as [f c].
    destruct (negb (feq c (Fin 0)) && is_finite c);
      [apply fadd_float | exact H].
Qed.

Lemma flt_fle a b : flt a b = true -> fle a b = true.
Proof.
  destruct a, b; try discriminate; try reflexivity.
  intros H. apply flt_Fin in H. now apply fle_Fin, Qlt_le_weak.
Qed.

Lemma discount_of_mono s d d' :
  (0 < s)%Q -> fle d d' = true ->
  fle (discount_of (Fin s) d) (discount_of (Fin s) d') = true.
Proof.
  intros Hs H. unfold discount_of.
  apply fmul_mono_r; [exact Hs |]. now apply fdiv_mono.
Qed.

Lemma total_of_anti t s d d' :
  (0 < t)%Q -> (0 < s)%Q -> fle d d' = true ->
  fle (total_of (Fin t) (Fin s) d') (total_of (Fin t) (Fin s) d) = true.
Proof.
  intros Ht Hs H. unfold total_of.
  apply with_tax_mono; [exact Ht |].
  apply fsub_anti_r. now apply discount_of_mono.
Qed.

(** at 100 per cent the discount is the subtotal and nothing is left *)
Lemma discount_of_100 s :
  is_float (Fin s) = true -> discount_of (Fin s) (Fin 100) = Fin (Qred s).
Proof.
  intros Hs. unfold discount_of.
  assert (E : fdiv (Fin 100) (Fin 100) = Fin 1) by (vm_compute; reflexivity).
  rewrite E. cbn. rewrite (rnd_comp (s * 1) s) by ring. now apply rnd_id.
Qed.

Lemma total_of_100 t s :
  is_float (Fin s) = true -> total_of (Fin t) (Fin s) (Fin 100) = Fin 0.
Proof.
  intros Hs. unfold total_of. rewrite (discount_of_100 s Hs). cbn.
  rewrite (rnd_0 (s - Qred s)) by (rewrite Qred_correct; ring). cbn.
  rewrite (rnd_0 (0 * t)) by ring. cbn. now apply rnd_0.
Qed.

(** *** The discount percentage is taken as it comes *)

(** C10, in the form that holds: [calculate_totals] never looks at
    [discount_max] and puts no bound on [discount_percent]. For a cart whose
    subtotal is finite and positive: a percentage above 100 gives a discount
    amount that is not below the subtotal and a total that is not above
    zero; a negative percentage gives a total that is not below the total
    without discount. The inequalities are strict as soon as the rounding
    to 2 places cannot absorb the difference: for a subtotal up to 2^30 and
    a percentage up to 100000 either way, the discount amount is above the
    subtotal and the total below zero whenever subtotal * (percent - 100) /
    100 is at least 0.012, and the total is above the total without
    discount whenever subtotal * (- percent) / 100 is at least 0.012. *)
Theorem discount_percent_is_not_bounded cart percent limit :
  let s := py_sum (map subtotal cart) in
  let t := SalesManager.calculate_totals BUSINESS_CONFIG cart percent in
  let t0 := SalesManager.calculate_totals BUSINESS_CONFIG cart (Fin 0) in
  is_finite s = true ->
  flt (Fin 0) s = true ->
  SalesManager.calculate_totals (with_discount_max limit BUSINESS_CONFIG)
                                cart percent = t
  /\ (flt (Fin 100) percent = true ->
      fle (t_subtotal t) (t_discount_amount t) = true
      /\ fle (t_total_amount t) (Fin 0) = true)
  /\ (flt percent (Fin 0) = true ->
      fle (t_total_amount t0) (t_total_amount t) = true)
  /\ (forall x p,
        s = Fin x -> percent = Fin p ->
        (x <= 1073741824 # 1)%Q -> (- (100000 # 1) <= p <= 100000 # 1)%Q ->
        ((100 < p)%Q -> (12 # 1000 <= x * (p - 100) / 100)%Q ->
         flt (t_subtotal t) (t_discount_amount t) = true
         /\ flt (t_total_amount t) (Fin 0) = true)
        /\ ((p < 0)%Q -> (12 # 1000 <= x * (- p) / 100)%Q ->
            flt (t_total_amount t0) (t_total_amount t) = true)).
Proof.
  intros s t t0 Hfin Hpos. split; [reflexivity |].
  subst t t0. rewrite !calculate_totals_amounts. fold s. cbn [t_subtotal
    t_discount_amount t_total_amount]. rewrite tax_rate_value.
  pose proof (py_sum_float (map subtotal cart)) as Hfl. fold s in Hfl.
  destruct s as [x | | |]; try discriminate Hfin.
  apply flt_Fin in Hpos.
  assert (Hrate : (0 < 1080863910568919 # 9007199254740992)%Q) by reflexivity.
  split; [| split].
  - intros H. apply flt_fle in H. split.
    + rewrite (py_round_comp 2 x (Qred x)) by (symmetry; apply Qred_correct).
      rewrite <- (discount_of_100 x Hfl).
      apply py_round_mono; [lia |]. now apply discount_of_mono.
    + change (Fin 0) with (py_round (Fin 0) 2).
      rewrite <- (total_of_100 (1080863910568919 # 9007199254740992) x Hfl).
      apply py_round_mono; [lia |]. now apply total_of_anti.
  - intros H. apply flt_fle in H.
    apply py_round_mono; [lia |]. now apply total_of_anti.
  - intros x' p [= <-] -> Hx Hp. split.
    + intros H100 He.
      destruct (discount_of_over x p) as (dd & E & Hdd);
        [lra | lra | exact He |].
      split.
      * rewrite E. apply py_round_strict; lra.
      * exact (total_of_below_zero x dd (Fin p) E Hdd).
    + intros H0 He.
      destruct (discount_of_under x p) as (dd & E & Hdd);
        [lra | lra | exact He |].
      apply (total_of_raised x dd (Fin p)); [lra | exact E | exact Hdd].
Qed.

Example one_peso_init : CartItem_init 1 "Milk" "4800016" (Fin 1) 1 = Some one_peso.
Proof. vm_compute. reflexivity. Qed.

Example ten_pesos_init : CartItem_init 1 "Milk" "4800016" (Fin 10) 1 = Some ten_pesos.
Proof. vm_compute. reflexivity. Qed.

(** 150 per cent of 10.00: the discount is 15.00 and the total -5.60; and
    -10 per cent makes 12.32 of the 11.20 due without discount *)
Example discount_150_percent :
  SalesManager.calculate_totals BUSINESS_CONFIG [ten_pesos] (Fin 150)
  = mk_totals (Fin 10) (Fin 150) (Fin 15) (literal (-60 # 100))
              (literal (-560 # 100)).
Proof. destruct python; vm_compute; reflexivity. Qed.

Example discount_minus_10_percent :
  t_total_amount (SalesManager.calculate_totals BUSINESS_CONFIG [ten_pesos] (Fin (-10)))
  = literal (1232 # 100)
  /\ t_total_amount (SalesManager.calculate_totals BUSINESS_CONFIG [ten_pesos] (Fin 0))
     = literal (1120 # 100).
Proof. destruct python; vm_compute; split; reflexivity. Qed.

(** ten at 1e308 overflow to an infinite subtotal, where a percentage
    above 100 leaves a total that is not a number *)
Example infinite_subtotal_total_nan :
  let price := literal (10 ^ 308) in
  let cart := [mk_CartItem 1 "Milk" "4800016" price 10 PInf] in
  CartItem_init 1 "Milk" "4800016" price 10 = head cart
  /\ t_subtotal (SalesManager.calculate_totals BUSINESS_CONFIG cart (Fin 150)) = PInf
  /\ t_total_amount (SalesManager.calculate_totals BUSINESS_CONFIG cart (Fin 150))
     = NaN.
Proof. destruct python; vm_compute; repeat split. Qed.

(** *** The formulas and the rounding *)

(** [round_half_even] picks a nearest integer, and the even one of two *)
Lemma rhe_nearest x :
  (Qabs (inject_Z (round_half_even x) - x) <= 1 # 2)%Q
  /\ ((Qabs (inject_Z (round_half_even x) - x) == 1 # 2)%Q ->
      Z.even (round_half_even x) = true).
Proof.
  pose proof (Qfloor_le x) as Hlo. pose proof (Qlt_floor x) as Hhi.
  rewrite inject_Z_plus in Hhi. change (inject_Z 1) with 1%Q in Hhi.
  unfold round_half_even.
  destruct (Qcompare_spec (x - inject_Z (Qfloor x)) (1 # 2)) as [E | L | G];
    [destruct (Z.even (Qfloor x)) eqn:Ev | |];
    rewrite ?inject_Z_plus; change (inject_Z 1) with 1%Q;
    (split; [apply Qabs_Qle_condition; split; lra |]).
  - intros _. exact Ev.
  - intros _. rewrite Z.add_1_r, Z.even_succ, <- Z.negb_even, Ev. reflexivity.
  - apply Qabs_case; intros H1 H2; exfalso; lra.
  - apply Qabs_case; intros H1 H2; exfalso; lra.
Qed.

Lemma from_init_subtotal item : from_init item -> subtotal item = line_amount item.
Proof.
  unfold from_init, CartItem_init, of_int, line_amount.
  destruct (rnd (inject_Z (quantity item))); cbn; try discriminate.
  intros [= <-]. reflexivity.
Qed.

Lemma update_quantity_from_init self n item :
  update_quantity self n = Some item -> from_init item.
Proof.
  unfold update_quantity, from_init, CartItem_init.
  destruct (of_int n) as [q |] eqn:E; cbn; [| discriminate].
  intros [= <-]. cbn. now rewrite E.
Qed.

Lemma py_round_2 x :
  py_round (Fin x) 2 = rnd (inject_Z (round_half_even (x * 100)) / 100).
Proof. reflexivity. Qed.

(** [sum] is exact when nothing has to be rounded, whichever way it adds *)
Lemma left_to_right_exact xs : forall a,
  adds_up_exactly a xs = true ->
  fold_left fadd xs (Fin (Qred a)) = Fin (Qred (a + exact_sum xs)).
Proof.
  induction xs as [| [q | | |] rest IH]; intros a H; try discriminate H.
  - cbn. f_equal. apply Qred_complete. ring.
  - cbn [adds_up_exactly] in H. apply andb_true_iff in H as [H Hr].
    apply andb_true_iff in H as [_ Hs].
    cbn [fold_left fadd exact_sum].
    rewrite (rnd_exact (Qred a + q) (a + q));
      [| now rewrite Qred_correct | exact Hs].
    rewrite (IH _ Hr). f_equal. apply Qred_complete. ring.
Qed.

Lemma compensated_exact rest : forall a,
  is_float (Fin a) = true ->
  adds_up_exactly a rest = true ->
  fold_left compensated_add rest (Fin (Qred a), Fin 0)
  = (Fin (Qred (a + exact_sum rest)), Fin 0).
Proof.
  induction rest as [| [q | | |] rest IH]; intros a Ha H; try discriminate H.
  - cbn. do 2 f_equal. apply Qred_complete. ring.
  - cbn [adds_up_exactly] in H. apply andb_true_iff in H as [H Hr].
    apply andb_true_iff in H as [Hq Hs].
    cbn [fold_left compensated_add exact_sum].
    assert (Et : fadd (Fin (Qred a)) (Fin q) = Fin (Qred (a + q))).
    { cbn [fadd]. apply rnd_exact; [now rewrite Qred_correct | exact Hs]. }
    rewrite Et.
    assert (Z0 : rnd (0 + 0) = Fin 0) by (vm_compute; reflexivity).
    assert (C : (if fle (fabs (Fin q)) (fabs (Fin (Qred a)))
                 then fadd (Fin 0) (fadd (fsub (Fin (Qred a)) (Fin (Qred (a + q))))
                                         (Fin q))
                 else fadd (Fin 0) (fadd (fsub (Fin q) (Fin (Qred (a + q))))
                                         (Fin (Qred a))))
                = Fin 0).
    { destruct (fle _ _); cbn [fsub fadd].
      - rewrite (rnd_exact (Qred a - Qred (a + q)) (- q));
          [| rewrite !Qred_correct; ring | now apply is_float_opp].
        cbn [fadd]. rewrite (rnd_exact (Qred (- q) + q) 0);
          [| rewrite Qred_correct; ring | reflexivity].
        exact Z0.
      - rewrite (rnd_exact (q - Qred (a + q)) (- a));
          [| rewrite !Qred_correct; ring | now apply is_float_opp].
        cbn [fadd]. rewrite (rnd_exact (Qred (- a) + Qred a) 0);
          [| rewrite !Qred_correct; ring | reflexivity].
        exact Z0. }
    rewrite C. rewrite (IH _ Hs Hr). do 2 f_equal. apply Qred_complete. ring.
Qed.

(** one amount is summed the same way by both interpreters *)
Lemma py_sum_single x : py_sum [x] = fadd (Fin 0) x.
Proof.
  unfold py_sum. destruct python; [reflexivity |]. cbn.
  now destruct (fadd (Fin 0) x).
Qed.

Lemma py_sum_exact xs :
  adds_up_exactly 0 xs = true -> py_sum xs = Fin (Qred (exact_sum xs)).
Proof.
  intros H. unfold py_sum. destruct python.
  - change (Fin 0) with (Fin (Qred 0)).
    rewrite (left_to_right_exact xs 0 H). f_equal. apply Qred_complete. ring.
  - destruct xs as [| [q | | |] rest]; try discriminate H; [reflexivity |].
    cbn [adds_up_exactly] in H. apply andb_true_iff in H as [H Hr].
    apply andb_true_iff in H as [Hq Hs].
    cbn [fadd].
    rewrite (rnd_exact (0 + q) (0 + q)); [| reflexivity | exact Hs].
    rewrite (compensated_exact rest (0 + q) Hs Hr). cbn.
    f_equal. apply Qred_complete. ring.
Qed.

(** C3, in the form that holds: for a cart of items as their constructor
    builds them, [calculate_totals] returns, in float arithmetic, Python's
    [sum] of [unit_price * quantity] over the lines as subtotal, subtotal
    times [discount_percent / 100] as discount amount, subtotal minus
    discount times the tax rate 0.12 as tax amount, and subtotal minus
    discount plus tax as total, each rounded to 2 places by [round]: to a
    nearest number of hundredths, and of two equally near ones to the even
    one. [sum] adds the floats from the left or with compensation,
    depending on the interpreter, and is the exact sum either way when
    every running sum is a float. The cart of 2 at 10.00 and 1 at 5.00 with
    10 per cent discount gives 25.00, 2.50, 2.70 and 25.20. *)
Theorem calculate_totals_formulas cart percent :
  Forall from_init cart ->
  let s := py_sum (map line_amount cart) in
  let d := fmul s (fdiv percent (Fin 100)) in
  let a := fsub s d in
  let t := fmul a (literal (12 # 100)) in
  SalesManager.calculate_totals BUSINESS_CONFIG cart percent
  = mk_totals (py_round s 2) percent (py_round d 2) (py_round t 2)
              (py_round (fadd a t) 2)
  /\ (forall xs,
        adds_up_exactly 0 xs = true -> py_sum xs = Fin (Qred (exact_sum xs)))
  /\ (forall x,
        let n := round_half_even (x * 100) in
        py_round (Fin x) 2 = rnd (inject_Z n / 100)
        /\ (Qabs (inject_Z n - x * 100) <= 1 # 2)%Q
        /\ ((Qabs (inject_Z n - x * 100) == 1 # 2)%Q -> Z.even n = true))
  /\ SalesManager.calculate_totals BUSINESS_CONFIG
       [mk_CartItem 1 "Milk" "4800016" (Fin 10) 2 (Fin 20);
        mk_CartItem 2 "Eggs" "4800023" (Fin 5) 1 (Fin 5)] (Fin 10)
     = mk_totals (Fin 25) (Fin 10) (Fin (5 # 2)) (literal (270 # 100))
                 (literal (2520 # 100)).
Proof.
  intros Hcart s d a t. split; [| split; [| split]].
  - rewrite calculate_totals_amounts.
    assert (E : map subtotal cart = map line_amount cart).
    { induction Hcart as [| item rest Hi _ IH]; [reflexivity |].
      cbn. now rewrite IH, (from_init_subtotal item Hi). }
    rewrite E. reflexivity.
  - apply py_sum_exact.
  - intros x n. split; [apply py_round_2 |]. apply rhe_nearest.
  - destruct python; vm_compute; reflexivity.
Qed.

Example gum_init : CartItem_init 3 "Gum" "4800047" (Fin (5 # 2)) 1 = Some gum.
Proof. vm_compute. reflexivity. Qed.

(** the kernel's binary64 arithmetic has the same discount: 2.5 * (5 / 100)
    is 0.125 *)
Example gum_discount_binary64 :
  of_prim (2.5 * (5 / 100))%float = Fin (1 # 8).
Proof. vm_compute. reflexivity. Qed.

(** * The ledger and the sale processor on every path *)

(** ** How [update_stock] can end *)

Lemma update_stock_spec P d kind user reference note w :
  exists b w',
    InventoryManager.update_stock P d kind user reference note w = (Return b, w')
    /\ update_stock_view P d kind user reference note w b w'.
Proof.
  destruct (faults_cases (faults w)) as [Hf1 | (e & fs & He)].
  2: { rewrite (update_stock_unread _ _ _ _ _ _ _ _ _ He).
       eexists _, _. split; [reflexivity |]. now apply us_unchanged. }
  unfold InventoryManager.update_stock, try_except, bind.
  rewrite (fetch_one_ok _ 0 w Hf1). unfold stock_query at 1.
  destruct (products (database w) !! P) as [p |] eqn:Hp; cbn.
  2: { eexists _, _. split; [reflexivity |]. apply us_unchanged.
       now autorewrite with world. }
  destruct (p_stock_quantity p + d <? 0)%Z eqn:Hd.
  { eexists _, _. split; [reflexivity |]. apply us_unchanged.
    now autorewrite with world. }
  apply Z.ltb_ge in Hd.
  destruct (faults_cases (faults (called w))) as [Hf2 | (e & fs & He)].
  2: { rewrite (execute_query_raise _ _ _ _ He).
       eexists _, _. split; [reflexivity |]. apply us_unchanged.
       cbn. now autorewrite with world. }
  rewrite (execute_query_ok _ 0 _ Hf2). cbn.
  match goal with |- context [execute_query ?q ?w'] =>
    destruct (faults_cases (faults w')) as [Hf3 | (e & fs & He)];
    [rewrite (execute_query_ok q 0 w' Hf3)
    | rewrite (execute_query_raise q w' e fs He)]
  end.
  - eexists _, _. split; [reflexivity |]. apply (us_done _ _ _ _ _ _ _ p);
      [exact Hp | exact Hd |].
    cbn. autorewrite with world. cbn. now rewrite (alter_stock _ _ _ _ Hp).
  - eexists _, _. split; [reflexivity |]. apply (us_unlogged _ _ _ _ _ _ _ p);
      [exact Hp | exact Hd |].
    cbn. now autorewrite with world.
Qed.

(** X1: [update_stock] answers [True] exactly when the product has a row,
    the stock after the change is not negative, and the three calls of the
    driver succeed. *)
Theorem update_stock_true_iff P d kind user reference note w :
  result_of (InventoryManager.update_stock P d kind user reference note w)
  = Return true
  <-> (exists p, products (database w) !! P = Some p
                 /\ (0 <= p_stock_quantity p + d)%Z)
      /\ no_fault 3 (faults w) = true.
Proof.
  split.
  - intros H. destruct (update_stock_true _ _ _ _ _ _ _ H) as (p & Hp & Hd & Hf).
    split; [exists p; split; assumption | exact Hf].
  - intros [(p & Hp & Hd) Hf].
    now rewrite (update_stock_ok _ _ _ _ _ _ _ _ Hp Hd Hf).
Qed.

(** X2: for a product id with no row, [update_stock] returns [False] and
    writes nothing, whatever the driver does; when the read succeeds it is
    the only call made to the driver and the one line printed says that the
    product was not found. *)
Theorem update_stock_missing_product P d kind user reference note w :
  products (database w) !! P = None ->
  let r := InventoryManager.update_stock P d kind user reference note w in
  result_of r = Return false
  /\ database (world_of r) = database w
  /\ (no_fault 1 (faults w) = true ->
      stdout (world_of r)
      = app (stdout w) ["Product " ++ pretty P ++ " not found"]
      /\ faults (world_of r) = tail (faults w)).
Proof.
  intros Hp r. subst r.
  destruct (faults_cases (faults w)) as [Hf | (e & fs & He)].
  - unfold InventoryManager.update_stock, try_except, bind.
    rewrite (fetch_one_ok _ 0 w Hf). unfold stock_query. rewrite Hp.
    unfold result_of, world_of. cbn. autorewrite with world.
    split; [reflexivity |]. split; [reflexivity |]. intros _.
    split; reflexivity.
  - rewrite (update_stock_unread _ _ _ _ _ _ _ _ _ He).
    unfold result_of, world_of. cbn. split; [reflexivity |].
    split; [reflexivity |]. rewrite He. discriminate.
Qed.

Lemma update_stock_missing_product_witness :
  let r := InventoryManager.update_stock 9 5 "restock" None None None shop in
  result_of r = Return false
  /\ database (world_of r) = database shop
  /\ (no_fault 1 (faults shop) = true ->
      stdout (world_of r) = app (stdout shop) ["Product " ++ pretty 9%Z ++ " not found"]
      /\ faults (world_of r) = tail (faults shop)).
Proof.
  apply (update_stock_missing_product 9 5 "restock" None None None shop).
  reflexivity.
Defined.

(** X3: a failure of the driver between the two writes of [update_stock],
    at the pool or at the statement. When the UPDATE raises, [False] is
    returned and nothing is written. When the UPDATE succeeds and the INSERT
    of the ledger row raises, [False] is returned as well, but the new
    stock stays written and the ledger has no row for it; what is printed
    is the lines of the failed call (for an error of the pool, the line of
    [get_connection] first) and then the line of [update_stock]. *)
Theorem update_stock_fails_between_writes P p d kind user reference note w f :
  products (database w) !! P = Some p ->
  (0 <= p_stock_quantity p + d)%Z ->
  let r := InventoryManager.update_stock P d kind user reference note w in
  (no_fault 1 (faults w) = true -> faults w !! 1%nat = Some (Some f) ->
   result_of r = Return false /\ database (world_of r) = database w)
  /\ (no_fault 2 (faults w) = true -> faults w !! 2%nat = Some (Some f) ->
      result_of r = Return false
      /\ products (database (world_of r))
         = <[P := mk_product (p_product_name p) (p_stock_quantity p + d)]>
             (products (database w))
      /\ inventory_transactions (database (world_of r))
         = inventory_transactions (database w)
      /\ stdout (world_of r)
         = app (stdout w)
               (app (error_lines "Database error: " f)
                    ["Error updating stock: " ++ message_of f])).
Proof.
  intros Hp Hd r. subst r. apply Z.ltb_ge in Hd.
  unfold InventoryManager.update_stock, try_except, bind. split.
  - intros Hf H1. rewrite (fetch_one_ok _ 0 w Hf). unfold stock_query.
    rewrite Hp. cbn. rewrite Hd.
    assert (He : exists fs, faults (called w) = Some f :: fs).
    { rewrite faults_called. destruct (faults w) as [| f0 [| f' fs]];
        try discriminate H1. cbn in H1. injection H1 as ->. now exists fs. }
    destruct He as [fs He]. rewrite (execute_query_raise _ _ _ _ He).
    unfold result_of, world_of. cbn. now autorewrite with world.
  - intros Hf H2. rewrite (fetch_one_ok _ 1 w Hf). unfold stock_query.
    rewrite Hp. cbn. rewrite Hd.
    pose proof (no_fault_tail _ _ Hf) as Hf'. rewrite <- faults_called in Hf'.
    rewrite (execute_query_ok _ 0 _ Hf'). cbn.
    match goal with |- context [execute_query ?q ?w'] =>
      assert (He : exists fs, faults w' = Some f :: fs)
    end.
    { rewrite faults_set_database, !faults_called.
      destruct (faults w) as [| f0 [| f' [| f'' fs]]]; try discriminate H2.
      cbn in H2. injection H2 as ->. now exists fs. }
    destruct He as [fs He]. rewrite (execute_query_raise _ _ _ _ He).
    unfold result_of, world_of. cbn. autorewrite with world. cbn.
    rewrite (alter_stock _ _ _ _ Hp), <- app_assoc.
    repeat split; reflexivity.
Qed.

Lemma update_stock_fails_between_writes_witness :
  let w1 := set_faults [None; Some (statement_error "gone")] shop in
  let w2 := set_faults [None; None; Some (pool_error "gone")] shop in
  let r1 := InventoryManager.update_stock 1 (-4) "sale" None None None w1 in
  let r2 := InventoryManager.update_stock 1 (-4) "sale" None None None w2 in
  (result_of r1 = Return false /\ database (world_of r1) = database w1)
  /\ (result_of r2 = Return false
      /\ products (database (world_of r2))
         = <[1%Z := mk_product "Milk" 6]> (products (database w2))
      /\ inventory_transactions (database (world_of r2)) = []
      /\ stdout (world_of r2)
         = ["Error getting connection from pool: gone"; "Database error: gone";
            "Error updating stock: gone"]).
Proof.
  split.
  - apply (update_stock_fails_between_writes 1 (mk_product "Milk" 10) (-4) "sale"
             None None None
             (set_faults [None; Some (statement_error "gone")] shop)
             (statement_error "gone"));
      [reflexivity | cbn; lia | reflexivity | reflexivity].
  - apply (update_stock_fails_between_writes 1 (mk_product "Milk" 10) (-4) "sale"
             None None None
             (set_faults [None; None; Some (pool_error "gone")] shop)
             (pool_error "gone"));
      [reflexivity | cbn; lia | reflexivity | reflexivity].
Defined.

(** ** Every call is a run of single writes *)

Lemma view_writes P d kind user reference note w b w' :
  update_stock_view P d kind user reference note w b w' ->
  rtc write (database w) (database w')
  /\ sales (database w') = sales (database w)
  /\ sale_items (database w') = sale_items (database w).
Proof.
  intros [w1 E | p w1 Hp Hd E | p w1 Hp Hd E]; rewrite E;
    (split; [| split; reflexivity]).
  - apply rtc_refl.
  - unfold stock_set. rewrite (alter_stock _ _ _ _ Hp).
    apply rtc_once. now apply write_stock.
  - eapply rtc_l; [apply (write_stock _ P p _ Hp Hd) |].
    apply rtc_once.
    pose proof (write_log
                  (with_products
                     (<[P := mk_product (p_product_name p) (p_stock_quantity p + d)]>
                        (products (database w))) (database w))
                  (ledger_row P d (p_stock_quantity p) kind user reference note))
      as H.
    apply H. unfold row_ok. cbn. rewrite Z.eqb_refl. now apply Z.leb_le.
Qed.

Lemma update_stock_writes P d kind user reference note w :
  rtc write (database w)
      (database (world_of (InventoryManager.update_stock P d kind user
                             reference note w))).
Proof.
  destruct (update_stock_spec P d kind user reference note w) as (b & w' & -> & V).
  now destruct (view_writes _ _ _ _ _ _ _ _ _ V).
Qed.

Lemma fetch_one_reads {A} (q : selection A) w :
  database (world_of (fetch_one q w)) = database w.
Proof.
  destruct (faults_cases (faults w)) as [Hf | (e & fs & He)].
  - rewrite (fetch_one_ok q 0 w Hf). apply database_called.
  - now rewrite (fetch_one_raise q w e fs He).
Qed.

Lemma adjust_stock_writes P t user note w :
  rtc write (database w)
      (database (world_of (InventoryManager.adjust_stock P t user note w))).
Proof.
  unfold InventoryManager.adjust_stock, bind.
  destruct (faults_cases (faults w)) as [Hf | (e & fs & He)].
  - rewrite (fetch_one_ok _ 0 w Hf).
    destruct (stock_query P (now w) (database w)) as [s |].
    + rewrite <- (database_called w) at 1. apply update_stock_writes.
    + unfold world_of. cbn. now rewrite database_called.
  - now rewrite (fetch_one_raise _ w e fs He).
Qed.

Lemma generate_sale_number_reads w :
  exists number w',
    SalesManager.generate_sale_number w = (Return number, w')
    /\ database w' = database w.
Proof.
  unfold SalesManager.generate_sale_number, bind, try_except. cbn.
  destruct (faults_cases (faults (tick w))) as [Hf | (e & fs & He)].
  - rewrite (fetch_one_ok _ 0 _ Hf). eexists _, _. split; [reflexivity |].
    now rewrite database_called, database_tick.
  - rewrite (fetch_one_raise _ _ e fs He). eexists _, _.
    split; [reflexivity |]. cbn. rewrite database_tick. cbn.
    apply database_tick.
Qed.

Lemma execute_query_cases (q : statement) w :
  execute_query q w
  = (Return (let id := snd (q (now w) (database w)) in
             if (id =? 0)%Z then None else Some id),
     set_database (fst (q (now w) (database w))) (called w))
  \/ exists e w', execute_query q w = (Raise e, w') /\ database w' = database w.
Proof.
  destruct (faults_cases (faults w)) as [Hf | (e & fs & He)].
  - left. apply (execute_query_ok q 0 w Hf).
  - right. rewrite (execute_query_raise q w e fs He). eauto.
Qed.

Lemma record_items_writes cart sale_id number cashier : forall w,
  has_header sale_id (database w) ->
  rtc write (database w)
      (database (world_of (SalesManager.record_items cart sale_id number
                             cashier w)))
  /\ sales (database (world_of (SalesManager.record_items cart sale_id number
                                  cashier w)))
     = sales (database w).
Proof.
  induction cart as [| item rest IH]; intros w Hh; [now split |].
  cbn [SalesManager.record_items]. unfold bind.
  destruct (execute_query_cases
              (item_query (mk_sale_item sale_id (product_id item) (quantity item)
                                        (unit_price item) (subtotal item))) w)
    as [-> | (e & w' & -> & E)].
  2: { unfold world_of. cbn. rewrite E. now split. }
  cbn [item_query fst snd].
  match goal with |- context [InventoryManager.update_stock ?a ?b ?c ?d ?e ?f ?w1] =>
    destruct (update_stock_spec a b c d e f w1) as (ok & w2 & -> & V);
    destruct (view_writes _ _ _ _ _ _ _ _ _ V) as (W & S1 & _);
    set (w1' := w1) in *
  end.
  assert (D1 : write (database w) (database w1')).
  { unfold w1'. rewrite database_set_database. apply write_item.
    unfold item_ok. cbn. destruct sale_id; [| reflexivity].
    now apply bool_decide_eq_true. }
  assert (Hh2 : has_header sale_id (database w2)).
  { unfold has_header in *. destruct sale_id; [| exact I].
    rewrite S1. unfold w1'. now rewrite database_set_database. }
  destruct (IH w2 Hh2) as [W2 S2]. split.
  - eapply rtc_l; [exact D1 |]. etrans; [exact W | exact W2].
  - rewrite S2, S1. unfold w1'. now rewrite database_set_database.
Qed.

Lemma process_sale_writes config cart name phone percent method cashier w :
  rtc write (database w)
      (database (world_of (SalesManager.process_sale config cart name phone
                             percent method cashier w))).
Proof.
  destruct cart as [| item rest]; [apply rtc_refl |].
  unfold SalesManager.process_sale. set (cart := item :: rest). unfold bind.
  destruct (check_cart_reads cart w) as (ok & w1 & -> & D1 & _).
  destruct ok; cbn [negb]; [| unfold world_of; cbn; now rewrite D1].
  destruct (generate_sale_number_reads w1) as (number & w2 & -> & D2).
  unfold try_except, bind.
  match goal with |- context [execute_query ?q w2] =>
    destruct (execute_query_cases q w2) as [-> | (e & w' & -> & E)]
  end.
  2: { unfold world_of. cbn. rewrite E, D2, D1. apply rtc_refl. }
  cbn [sale_query fst snd].
  match goal with |- context [SalesManager.record_items cart ?sid number cashier ?w3] =>
    set (sid' := sid); set (w3' := w3)
  end.
  assert (D3 : write (database w) (database w3')).
  { unfold w3'. rewrite database_set_database, D2, D1. now apply write_header. }
  assert (Hh : has_header sid' (database w3')).
  { unfold has_header, sid'. destruct (Z.eqb_spec (sales_auto_increment (database w2)) 0);
      [exact I |].
    unfold w3'. rewrite database_set_database. cbn. rewrite map_app.
    apply elem_of_app. right. cbn. left. }
  destruct (record_items_writes cart sid' number cashier w3' Hh) as [W _].
  destruct (SalesManager.record_items cart sid' number cashier w3') as [[[] | e] w4];
    unfold world_of in *; cbn in *;
    (eapply rtc_l; [exact D3 | exact W]).
Qed.

Lemma after_writes c w : rtc write (database w) (database (after c w)).
Proof.
  destruct c; cbn.
  - apply update_stock_writes.
  - apply update_stock_writes.
  - apply adjust_stock_writes.
  - apply process_sale_writes.
Qed.

Lemma after_all_writes cs : forall w,
  rtc write (database w) (database (after_all cs w)).
Proof.
  induction cs as [| [c op] rest IH]; intros w; [apply rtc_refl |].
  cbn. etrans; [| apply IH]. apply (after_writes op (under c w)).
Qed.

(** ** What no run of calls can break *)

Lemma stock_nonneg_spec d :
  stock_nonneg d = true
  <-> forall P p, products d !! P = Some p -> (0 <= p_stock_quantity p)%Z.
Proof.
  unfold stock_nonneg. rewrite forallb_forall. split.
  - intros H P p Hp. apply Z.leb_le.
    apply (H (P, p)). apply list_elem_of_In. now apply elem_of_map_to_list.
  - intros H [P p] Hin. apply Z.leb_le. apply (H P).
    apply elem_of_map_to_list. now apply list_elem_of_In.
Qed.

Lemma write_stock_nonneg d d' :
  write d d' -> stock_nonneg d = true -> stock_nonneg d' = true.
Proof.
  intros [d0 row _ | d0 row _ | d0 P p n Hp Hn | d0 row _]; try easy.
  rewrite !stock_nonneg_spec. intros H Q q. cbn.
  rewrite lookup_insert. destruct (decide (P = Q)) as [-> | _].
  - now intros [= <-].
  - apply H.
Qed.

Lemma write_ledger_ok d d' : write d d' -> ledger_ok d = true -> ledger_ok d' = true.
Proof.
  intros [d0 row _ | d0 row _ | d0 P p n Hp Hn | d0 row Hr]; try easy.
  unfold ledger_ok. cbn. rewrite forallb_app. cbn. intros ->. now rewrite Hr.
Qed.

Lemma item_ok_header d row header :
  item_ok d row = true ->
  item_ok (mk_db (products d) (inventory_transactions d) (sales d ++ [header])
                 (sale_items d) (sales_auto_increment d + 1)) row = true.
Proof.
  unfold item_ok. destruct (si_sale_id row); [| easy]. cbn.
  rewrite !bool_decide_eq_true, map_app, elem_of_app. auto.
Qed.

Lemma write_items_ok d d' : write d d' -> items_ok d = true -> items_ok d' = true.
Proof.
  intros [d0 row _ | d0 row Hr | d0 P p n Hp Hn | d0 row _]; try easy.
  - unfold items_ok. cbn. rewrite !forallb_forall. intros H r Hin.
    apply item_ok_header. now apply H.
  - unfold items_ok. cbn. rewrite forallb_app.
    intros H. apply andb_true_iff. split; [exact H |].
    cbn. rewrite andb_true_r. exact Hr.
Qed.

Lemma write_kept d d' : write d d' -> kept d d'.
Proof.
  intros [d0 row _ | d0 row _ | d0 P p n Hp Hn | d0 row _]; unfold kept; cbn;
    repeat split; try reflexivity; try (now apply prefix_app_r).
  intros Q. rewrite lookup_insert. destruct (decide (P = Q)) as [-> | _];
    [now rewrite Hp | reflexivity].
Qed.

Lemma kept_refl d : kept d d.
Proof. unfold kept. repeat split; reflexivity. Qed.

Lemma kept_trans d1 d2 d3 : kept d1 d2 -> kept d2 d3 -> kept d1 d3.
Proof.
  intros (A1 & B1 & C1 & D1) (A2 & B2 & C2 & D2). unfold kept.
  repeat split; try (etrans; eassumption).
  intros P. now rewrite D2, D1.
Qed.

Lemma writes_kept d d' : rtc write d d' -> kept d d'.
Proof.
  intros W. induction W as [| a b c Hab _ IH]; [apply kept_refl |].
  eapply kept_trans; [apply write_kept; exact Hab | exact IH].
Qed.

Lemma writes_invariant (I : db -> bool) d d' :
  (forall a b, write a b -> I a = true -> I b = true) ->
  rtc write d d' -> I d = true -> I d' = true.
Proof. intros H W. induction W as [| a b c Hab _ IH]; eauto. Qed.

(** X4: if no product has a negative stock, then none has after any run of
    [update_stock], [restock_product], [adjust_stock] and [process_sale]
    calls, with any arguments, whatever the clock reads and whichever calls
    of the driver fail. *)
Theorem stock_never_negative cs w :
  stock_nonneg (database w) = true ->
  stock_nonneg (database (after_all cs w)) = true.
Proof.
  apply (writes_invariant stock_nonneg); [apply write_stock_nonneg |].
  apply after_all_writes.
Qed.

(** X5: if every ledger row adds up ([new_stock = previous_stock +
    quantity_change], with [new_stock] not negative), then so does every
    row after any run of calls of the two managers, under any conditions. *)
Theorem ledger_rows_add_up cs w :
  ledger_ok (database w) = true ->
  ledger_ok (database (after_all cs w)) = true.
Proof.
  apply (writes_invariant ledger_ok); [apply write_ledger_ok |].
  apply after_all_writes.
Qed.

(** X6: if every sale item that names a sale names one whose header is in
    [sales], the same holds after any run of calls of the two managers,
    under any conditions: [process_sale] writes no line for a header that
    is not there. *)
Theorem sale_items_have_headers cs w :
  items_ok (database w) = true ->
  items_ok (database (after_all cs w)) = true.
Proof.
  apply (writes_invariant items_ok); [apply write_items_ok |].
  apply after_all_writes.
Qed.

(** X7: the two managers only append: after any run of their calls, under
    any conditions, the ledger, the sales and the sale items of before are
    a prefix of those of after, and the products are the same ones under
    the same names (none created, none removed, none renamed). *)
Theorem managers_only_append cs w :
  kept (database w) (database (after_all cs w)).
Proof.
  apply writes_kept, after_all_writes.
Qed.

(** ** Restocking and adjusting *)

(** X8: [adjust_stock(P, t)] with [0 <= t] on a product with stock [s],
    when its four calls of the driver succeed, returns [True], leaves [P]
    with stock [t] and appends one ledger row of kind [adjustment] with
    [quantity_change = t - s], [previous_stock = s], [new_stock = t] and no
    reference; no other table and no other product is touched. *)
Theorem adjust_stock_sets_target P p t user notes w :
  products (database w) !! P = Some p ->
  (0 <= t)%Z ->
  no_fault 4 (faults w) = true ->
  let r := InventoryManager.adjust_stock P t user notes w in
  result_of r = Return true
  /\ products (database (world_of r))
     = <[P := mk_product (p_product_name p) t]> (products (database w))
  /\ inventory_transactions (database (world_of r))
     = app (inventory_transactions (database w))
           [mk_inventory_transaction P "adjustment" (t - p_stock_quantity p)
              (p_stock_quantity p) t None notes user]
  /\ sales (database (world_of r)) = sales (database w)
  /\ sale_items (database (world_of r)) = sale_items (database w).
Proof.
  intros Hp Ht Hf r. subst r. rewrite (adjust_stock_ok w P p t user notes Hp Ht Hf).
  unfold result_of, world_of, stock_changed, ledger_row. cbn.
  replace (p_stock_quantity p + (t - p_stock_quantity p))%Z with t by lia.
  repeat split; reflexivity.
Qed.

Lemma adjust_stock_sets_target_witness :
  let r := InventoryManager.adjust_stock 2 40 (Some 1%Z) (Some "recount") shop in
  result_of r = Return true
  /\ products (database (world_of r))
     = <[2%Z := mk_product "Eggs" 40]> (products (database shop))
  /\ inventory_transactions (database (world_of r))
     = [mk_inventory_transaction 2 "adjustment" 37 3 40 None (Some "recount")
                                 (Some 1%Z)]
  /\ sales (database (world_of r)) = []
  /\ sale_items (database (world_of r)) = [].
Proof.
  apply (adjust_stock_sets_target 2 (mk_product "Eggs" 3) 40 (Some 1%Z)
           (Some "recount") shop); [reflexivity | lia | reflexivity].
Defined.

(** X9: what [adjust_stock] refuses once its own read of the stock has
    succeeded. A product id with no row: [False], nothing written, nothing
    printed. A target below zero: [False], nothing written whatever the
    driver does next, and if the second read succeeds too the one line
    printed is the insufficient-stock message with the current stock. *)
Theorem adjust_stock_refuses P t user notes w :
  no_fault 1 (faults w) = true ->
  let r := InventoryManager.adjust_stock P t user notes w in
  (products (database w) !! P = None ->
   result_of r = Return false
   /\ database (world_of r) = database w
   /\ stdout (world_of r) = stdout w)
  /\ (forall p, products (database w) !! P = Some p -> (t < 0)%Z ->
      result_of r = Return false
      /\ database (world_of r) = database w
      /\ (no_fault 2 (faults w) = true ->
          stdout (world_of r)
          = app (stdout w)
                ["Insufficient stock. Available: " ++ pretty (p_stock_quantity p)])).
Proof.
  intros Hf r. subst r. unfold InventoryManager.adjust_stock, bind.
  rewrite (fetch_one_ok _ 0 w Hf). unfold stock_query. split.
  - intros ->. unfold result_of, world_of. cbn. now autorewrite with world.
  - intros p Hp Ht. rewrite Hp. cbn [fmap option_fmap option_map].
    assert (Hp' : products (database (called w)) !! P = Some p)
      by now rewrite database_called.
    assert (Hd : (p_stock_quantity p + (t - p_stock_quantity p) < 0)%Z) by lia.
    destruct (update_stock_insufficient (called w) P p _ "adjustment" user None
                notes Hp' Hd) as (H1 & H2 & H3).
    split; [exact H1 |]. split; [now rewrite H2, database_called |].
    intros Hf2. rewrite H3, stdout_called; [reflexivity |].
    rewrite faults_called. now apply no_fault_tail.
Qed.

Lemma adjust_stock_refuses_witness :
  (products (database shop) !! 9%Z = None ->
   let r := InventoryManager.adjust_stock 9 5 None None shop in
   result_of r = Return false /\ database (world_of r) = database shop
   /\ stdout (world_of r) = stdout shop)
  /\ (forall p, products (database shop) !! 1%Z = Some p -> (-5 < 0)%Z ->
      let r := InventoryManager.adjust_stock 1 (-5) None None shop in
      result_of r = Return false /\ database (world_of r) = database shop
      /\ (no_fault 2 (faults shop) = true ->
          stdout (world_of r)
          = app (stdout shop)
                ["Insufficient stock. Available: " ++ pretty (p_stock_quantity p)])).
Proof.
  split.
  - apply (adjust_stock_refuses 9 5 None None shop). reflexivity.
  - apply (adjust_stock_refuses 1 (-5) None None shop). reflexivity.
Defined.

(** X10: [adjust_stock] reads the stock outside any [try]: when the driver
    raises on that read, at the pool or at the statement, the error leaves
    [adjust_stock] as an exception instead of a [False], with nothing
    written; printed are the lines of the failed [fetch_one] (for an error
    of the pool, the line of [get_connection] first). *)
Theorem adjust_stock_raises P t user notes w f fs :
  faults w = Some f :: fs ->
  let r := InventoryManager.adjust_stock P t user notes w in
  result_of r = Raise (message_of f)
  /\ database (world_of r) = database w
  /\ stdout (world_of r)
     = app (stdout w) (error_lines "Database error in fetch_one: " f).
Proof.
  intros He r. subst r. unfold InventoryManager.adjust_stock, bind.
  rewrite (fetch_one_raise _ w f fs He). repeat split.
Qed.

Lemma adjust_stock_raises_witness :
  let r := InventoryManager.adjust_stock 1 7 None None
             (set_faults [Some (pool_error "down")] shop) in
  result_of r = Raise "down"
  /\ database (world_of r) = database shop
  /\ stdout (world_of r)
     = ["Error getting connection from pool: down";
        "Database error in fetch_one: down"].
Proof.
  apply (adjust_stock_raises 1 7 None None
           (set_faults [Some (pool_error "down")] shop) (pool_error "down") []).
  reflexivity.
Defined.

(** ** What a sale leaves behind, on every path *)

Lemma view_tables P d kind user reference note w b w' :
  update_stock_view P d kind user reference note w b w' ->
  sales (database w') = sales (database w)
  /\ sale_items (database w') = sale_items (database w)
  /\ sales_auto_increment (database w') = sales_auto_increment (database w)
  /\ (inventory_transactions (database w') = inventory_transactions (database w)
      \/ exists s,
           inventory_transactions (database w')
           = app (inventory_transactions (database w))
                 [ledger_row P d s kind user reference note]).
Proof.
  intros [w1 E | p w1 Hp Hd E | p w1 Hp Hd E]; rewrite E; cbn;
    repeat (split; [reflexivity |]); [now left | now left |].
  right. now exists (p_stock_quantity p).
Qed.

Lemma record_items_cases cart sid number cashier : forall w,
  let r := SalesManager.record_items cart sid number cashier w in
  sales (database (world_of r)) = sales (database w)
  /\ sales_auto_increment (database (world_of r))
     = sales_auto_increment (database w)
  /\ exists k sold stocks,
       sale_items (database (world_of r))
       = app (sale_items (database w)) (map (sale_item_of sid) (take k cart))
       /\ ((k = length cart /\ result_of r = Return tt)
           \/ ((k < length cart)%nat /\ exists e, result_of r = Raise e))
       /\ sold `sublist_of` take k cart
       /\ length stocks = length sold
       /\ inventory_transactions (database (world_of r))
          = app (inventory_transactions (database w))
                (zip_with (sale_row_of sid number cashier) sold stocks).
Proof.
  induction cart as [| item rest IH]; intros w; cbn zeta.
  { cbn. split; [reflexivity |]. split; [reflexivity |].
    exists 0%nat, [], []. cbn. rewrite !app_nil_r.
    repeat split; auto. }
  cbn [SalesManager.record_items]. unfold bind.
  destruct (execute_query_cases
              (item_query (mk_sale_item sid (product_id item) (quantity item)
                                        (unit_price item) (subtotal item))) w)
    as [-> | (e & w' & -> & E)].
  2: { unfold world_of, result_of. cbn. rewrite E.
       split; [reflexivity |]. split; [reflexivity |].
       exists 0%nat, [], []. cbn. rewrite !app_nil_r.
       repeat split; auto. right. split; [lia | eauto]. }
  cbn [item_query fst snd].
  match goal with |- context [InventoryManager.update_stock ?a ?b ?c ?d ?e ?f ?w1] =>
    destruct (update_stock_spec a b c d e f w1) as (ok & w2 & -> & V);
    destruct (view_tables _ _ _ _ _ _ _ _ _ V) as (S1 & I1 & A1 & L1);
    rewrite database_set_database in S1, I1, A1, L1; cbn in S1, I1, A1, L1
  end.
  specialize (IH w2). cbn zeta in IH.
  destruct IH as (S2 & A2 & k & sold & stocks & I2 & R2 & Hs & Hl & L2).
  split; [congruence |]. split; [congruence |].
  destruct L1 as [L1 | [s L1]].
  - exists (S k), sold, stocks. cbn [take map].
    split; [rewrite I2, I1, <- app_assoc; reflexivity |].
    split. { destruct R2 as [[-> R2] | [Hk R2]]; [left | right]; cbn; auto with lia. }
    split; [now apply sublist_cons |]. split; [exact Hl |]. now rewrite L2, L1.
  - exists (S k), (item :: sold), (s :: stocks). cbn [take map zip_with].
    split; [rewrite I2, I1, <- app_assoc; reflexivity |].
    split. { destruct R2 as [[-> R2] | [Hk R2]]; [left | right]; cbn; auto with lia. }
    split; [now apply sublist_skip |]. split; [cbn; now rewrite Hl |].
    rewrite L2, L1, <- app_assoc. reflexivity.
Qed.

(** X11: how [process_sale] can end, whatever the driver does. Either
    nothing at all is written and the answer is [None]; or every line of
    the cart passed the availability check, one header is appended to
    [sales] with the next identity and the totals of [calculate_totals],
    the rows appended to [sale_items] are those of the first [k] lines of
    the cart in the cart's order, the answer is the sale id ([lastrowid],
    [None] when it is 0) when [k] is the whole cart and [None] otherwise,
    and the rows appended to the ledger are rows of kind [sale] for some of
    those [k] lines, in the same order, each with the sale id as
    reference. *)
Theorem process_sale_outcomes config cart name phone percent method cashier w :
  let r := SalesManager.process_sale config cart name phone percent method
             cashier w in
  let d := database w in
  let d' := database (world_of r) in
  let t := SalesManager.calculate_totals config cart percent in
  (result_of r = Return None /\ d' = d)
  \/ exists number date k sold stocks,
       let id := sales_auto_increment d in
       let sid := if (id =? 0)%Z then None else Some id in
       forallb (fun item => available d (product_id item) (quantity item)) cart
       = true
       /\ sales d'
          = app (sales d)
                [mk_sale id number name phone (t_subtotal t) (t_tax_amount t)
                         (t_discount_amount t) (t_total_amount t) method
                         cashier date]
       /\ sales_auto_increment d' = (id + 1)%Z
       /\ sale_items d'
          = app (sale_items d) (map (sale_item_of sid) (take k cart))
       /\ ((k = length cart /\ result_of r = Return sid)
           \/ ((k < length cart)%nat /\ result_of r = Return None))
       /\ sold `sublist_of` take k cart
       /\ length stocks = length sold
       /\ inventory_transactions d'
          = app (inventory_transactions d)
                (zip_with (sale_row_of sid number cashier) sold stocks).
Proof.
  cbn zeta.
  destruct cart as [| item rest]; [left; split; reflexivity |].
  unfold SalesManager.process_sale. set (cart := item :: rest). unfold bind.
  destruct (check_cart_reads cart w) as (ok & w1 & -> & D1 & Hav).
  destruct ok; cbn [negb]; [| left; unfold world_of; cbn; now rewrite D1].
  specialize (Hav eq_refl).
  destruct (generate_sale_number_reads w1) as (number & w2 & -> & D2).
  unfold try_except, bind.
  match goal with |- context [execute_query ?q w2] =>
    destruct (execute_query_cases q w2) as [-> | (e & w' & -> & E)]
  end.
  2: { left. unfold world_of. cbn. rewrite E, D2, D1. split; reflexivity. }
  cbn [sale_query fst snd]. rewrite D2, D1.
  match goal with |- context [SalesManager.record_items cart ?sid number cashier ?w3] =>
    pose proof (record_items_cases cart sid number cashier w3) as H;
    destruct (SalesManager.record_items cart sid number cashier w3) as [[[] | e] w4]
  end;
  cbn zeta in H; unfold world_of, result_of in *; cbn [fst snd] in *;
  rewrite database_set_database in H; cbn [sales sale_items sales_auto_increment
    inventory_transactions] in H;
  destruct H as (S & A & k & sold & stocks & I & R & Hs & Hl & L);
  right; exists number, (now w2), k, sold, stocks; cbn zeta;
  (split; [apply forallb_forall; intros i Hi;
           rewrite forallb_forall in Hav; specialize (Hav i Hi);
           unfold unavailable in Hav; now rewrite negb_involutive in Hav |]);
  (split; [exact S |]); (split; [exact A |]); (split; [exact I |]);
  (split; [| split; [exact Hs | split; [exact Hl | exact L]]]).
  - destruct R as [[-> _] | [Hk [e He]]]; [left; split; reflexivity | discriminate].
  - destruct R as [[_ R] | [Hk _]]; [discriminate | right; split; [exact Hk | reflexivity]].
Qed.

Lemma bind_return {A B} (c : M A) (k : A -> M B) w a w' :
  c w = (Return a, w') -> bind c k w = k a w'.
Proof. unfold bind. now intros ->. Qed.

Lemma try_except_returns {A} (c : M A) (h : string -> M A) w :
  (forall e w', exists a, result_of (h e w') = Return a) ->
  exists a, result_of (try_except c h w) = Return a.
Proof.
  intros H. unfold try_except. destruct (c w) as [[a | e] w']; [now exists a |].
  apply H.
Qed.

(** X12: [update_stock], [restock_product], [check_stock_availability],
    [generate_sale_number] and [process_sale] catch what the driver raises:
    in every world each of them returns a value. *)
Theorem caught_errors_never_escape w :
  (forall P d kind user reference note,
     exists b, result_of (InventoryManager.update_stock P d kind user reference
                            note w) = Return b)
  /\ (forall P q user note,
        exists b, result_of (InventoryManager.restock_product P q user note w)
                  = Return b)
  /\ (forall P q,
        exists b, result_of (InventoryManager.check_stock_availability P q w)
                  = Return b)
  /\ (exists number, result_of (SalesManager.generate_sale_number w)
                     = Return number)
  /\ (forall config cart name phone percent method cashier,
        exists id, result_of (SalesManager.process_sale config cart name phone
                                percent method cashier w) = Return id).
Proof.
  split; [intros; apply update_stock_returns |].
  split; [intros; apply update_stock_returns |].
  split.
  { intros P q. destruct (check_stock_availability_reads w P q) as (b & w' & -> & _).
    now exists b. }
  split.
  { destruct (generate_sale_number_reads w) as (n & w' & -> & _). now exists n. }
  intros config cart name phone percent method cashier.
  destruct cart as [| item rest]; [now exists None |].
  unfold SalesManager.process_sale. set (cart := item :: rest).
  destruct (check_cart_reads cart w) as (ok & w1 & E1 & _).
  rewrite (bind_return _ _ _ _ _ E1).
  destruct ok; cbn [negb]; [| now exists None].
  destruct (generate_sale_number_reads w1) as (number & w2 & E2 & _).
  rewrite (bind_return _ _ _ _ _ E2).
  apply try_except_returns. intros e w'. now exists None.
Qed.

(** ** A sale that goes through *)

Lemma faults_calls n : forall w, faults (calls n w) = drop n (faults w).
Proof.
  induction n as [| n IH]; intros w; [reflexivity |].
  cbn [calls]. rewrite IH, faults_called.
  destruct (faults w); cbn; now rewrite ?drop_nil.
Qed.

Lemma calls_add n m : forall w, calls (n + m) w = calls m (calls n w).
Proof. induction n as [| n IH]; intros w; [reflexivity | apply IH]. Qed.

Lemma no_fault_add n m : forall fs,
  no_fault (n + m) fs = true ->
  no_fault n fs = true /\ no_fault m (drop n fs) = true.
Proof.
  induction n as [| n IH]; intros fs H; [now split |].
  cbn [Nat.add no_fault] in *. destruct fs as [| [e |] fs]; [| discriminate |].
  - destruct (IH [] H) as [H1 H2]. now rewrite drop_nil in *.
  - exact (IH fs H).
Qed.

Lemma on_date_calls dt n : forall w,
  on_date dt w = true -> on_date dt (calls n w) = true.
Proof.
  induction n as [| n IH]; intros w H; [exact H |].
  cbn [calls]. now apply IH, on_date_called.
Qed.

Lemma check_cart_ok cart : forall w,
  forallb (fun item => available (database w) (product_id item) (quantity item))
          cart = true ->
  no_fault (length cart) (faults w) = true ->
  SalesManager.check_cart cart w = (Return true, calls (length cart) w).
Proof.
  induction cart as [| item rest IH]; intros w Hav Hf; [reflexivity |].
  cbn [forallb] in Hav. apply andb_true_iff in Hav as [Hi Hav].
  cbn [SalesManager.check_cart length calls]. unfold bind.
  change (S (length rest)) with (1 + length rest)%nat in Hf.
  destruct (no_fault_add 1 _ _ Hf) as [Hf1 Hf2].
  rewrite (check_stock_availability_ok w _ _ Hf1), Hi.
  apply IH; [now rewrite database_called | now rewrite faults_called].
Qed.

(** the line is recorded and its stock taken *)
Lemma record_items_step item rest sid number cashier w p :
  products (database w) !! product_id item = Some p ->
  (quantity item <= p_stock_quantity p)%Z ->
  no_fault 4 (faults w) = true ->
  SalesManager.record_items (item :: rest) sid number cashier w
  = SalesManager.record_items rest sid number cashier
      (set_database
         (stock_changed (product_id item) (- quantity item) p "sale" cashier sid
            (Some ("Sale: " ++ number))
            (mk_db (products (database w)) (inventory_transactions (database w))
                   (sales (database w))
                   (app (sale_items (database w)) [sale_item_of sid item])
                   (sales_auto_increment (database w))))
         (calls 4 w)).
Proof.
  intros Hp Hq Hf. cbn [SalesManager.record_items]. unfold bind at 1.
  rewrite (execute_query_ok _ 3 w Hf). cbn [item_query fst snd]. unfold bind at 1.
  match goal with |- context [InventoryManager.update_stock ?a ?b ?c ?d ?e ?f ?w1] =>
    rewrite (update_stock_ok w1 a p b c d e f)
  end.
  - rewrite database_set_database, !called_set_database. reflexivity.
  - exact Hp.
  - lia.
  - rewrite faults_set_database, faults_called. now apply no_fault_tail.
Qed.

(** the line is recorded, but the stock does not cover it *)
Lemma record_items_step_short item rest sid number cashier w p :
  products (database w) !! product_id item = Some p ->
  (p_stock_quantity p < quantity item)%Z ->
  no_fault 2 (faults w) = true ->
  SalesManager.record_items (item :: rest) sid number cashier w
  = SalesManager.record_items rest sid number cashier
      (printed ("Insufficient stock. Available: " ++ pretty (p_stock_quantity p))
         (set_database
            (mk_db (products (database w)) (inventory_transactions (database w))
                   (sales (database w))
                   (app (sale_items (database w)) [sale_item_of sid item])
                   (sales_auto_increment (database w)))
            (calls 2 w))).
Proof.
  intros Hp Hq Hf. cbn [SalesManager.record_items]. unfold bind at 1.
  rewrite (execute_query_ok _ 1 w Hf). cbn [item_query fst snd]. unfold bind at 1.
  match goal with |- context [InventoryManager.update_stock ?a ?b ?c ?d ?e ?f ?w1] =>
    rewrite (update_stock_short w1 a p b c d e f)
  end.
  - rewrite !called_set_database. reflexivity.
  - exact Hp.
  - lia.
  - rewrite faults_set_database, faults_called. now apply no_fault_tail.
Qed.

Lemma line_for_None P cart : P ∉ map product_id cart -> line_for P cart = None.
Proof.
  induction cart as [| item rest IH]; intros H; [reflexivity |].
  cbn in *. apply not_elem_of_cons in H as [H1 H2].
  rewrite bool_decide_eq_false_2 by congruence. now apply IH.
Qed.

Lemma record_items_ok cart sid number cashier : forall w,
  NoDup (map product_id cart) ->
  forallb (fun item => available (database w) (product_id item) (quantity item))
          cart = true ->
  no_fault (4 * length cart) (faults w) = true ->
  let r := SalesManager.record_items cart sid number cashier w in
  result_of r = Return tt
  /\ stdout (world_of r) = stdout w
  /\ sales (database (world_of r)) = sales (database w)
  /\ sales_auto_increment (database (world_of r))
     = sales_auto_increment (database w)
  /\ sale_items (database (world_of r))
     = app (sale_items (database w)) (map (sale_item_of sid) cart)
  /\ inventory_transactions (database (world_of r))
     = app (inventory_transactions (database w))
           (map (fun item => sale_row_of sid number cashier item
                               (stock_of (database w) (product_id item))) cart)
  /\ forall P,
       products (database (world_of r)) !! P
       = match line_for P cart with
         | Some item => sold_from item <$> products (database w) !! P
         | None => products (database w) !! P
         end.
Proof.
  induction cart as [| item rest IH]; intros w Hnd Hav Hf; cbn zeta.
  { cbn. rewrite !app_nil_r. repeat split. }
  cbn [map] in Hnd. apply NoDup_cons in Hnd as [Hnotin Hnd].
  cbn [forallb] in Hav. apply andb_true_iff in Hav as [Hi Hav].
  unfold available in Hi.
  destruct (products (database w) !! product_id item) as [p |] eqn:Hp;
    [| discriminate].
  apply Z.leb_le in Hi.
  replace (4 * length (item :: rest))%nat with (4 + 4 * length rest)%nat in Hf
    by (cbn [length]; lia).
  destruct (no_fault_add 4 _ _ Hf) as [Hf4 Hfr].
  rewrite (record_items_step item rest sid number cashier w p Hp Hi Hf4).
  match goal with |- context [SalesManager.record_items rest _ _ _ ?w'] =>
    set (w1 := w')
  end.
  assert (Hother : forall i, i ∈ rest ->
            products (database w1) !! product_id i
            = products (database w) !! product_id i).
  { intros i Hin. unfold w1. rewrite database_set_database. cbn.
    apply lookup_insert_ne. intros E. apply Hnotin. rewrite E.
    now apply (list_elem_of_fmap_2 product_id). }
  assert (Hav1 : forallb (fun i => available (database w1) (product_id i)
                                     (quantity i)) rest = true).
  { apply forallb_forall. intros i Hin. rewrite forallb_forall in Hav.
    specialize (Hav i Hin). apply list_elem_of_In in Hin.
    unfold available in *. now rewrite (Hother i Hin). }
  assert (Hf1 : no_fault (4 * length rest) (faults w1) = true).
  { unfold w1. now rewrite faults_set_database, faults_calls. }
  destruct (IH w1 Hnd Hav1 Hf1) as (R & O & S & A & I & L & Pr).
  split; [exact R |].
  split; [rewrite O; unfold w1; now rewrite stdout_set_database, stdout_calls |].
  split; [rewrite S; reflexivity |]. split; [rewrite A; reflexivity |].
  split; [rewrite I; unfold w1; rewrite database_set_database; cbn;
          now rewrite <- app_assoc |].
  split.
  - rewrite L. unfold w1 at 1. rewrite database_set_database. cbn [map].
    unfold stock_changed at 1. cbn [inventory_transactions].
    rewrite <- app_assoc. cbn [app]. f_equal. f_equal.
    + unfold sale_row_of, stock_of. now rewrite Hp.
    + apply map_ext_in. intros i Hin. apply list_elem_of_In in Hin.
      unfold stock_of. now rewrite (Hother i Hin).
  - intros P. rewrite Pr. unfold line_for at 2. cbn [find].
    destruct (decide (product_id item = P)) as [<- | Hne].
    + rewrite bool_decide_eq_true_2 by reflexivity.
      rewrite (line_for_None _ _ Hnotin). unfold w1.
      rewrite database_set_database. cbn. rewrite lookup_insert_eq, Hp.
      reflexivity.
    + rewrite bool_decide_eq_false_2 by exact Hne.
      fold (line_for P rest). unfold w1. rewrite database_set_database. cbn.
      now rewrite lookup_insert_ne by exact Hne.
Qed.

(** X13: a sale that goes through. For a cart that is not empty, has at
    most one line per product and whose every line is covered by the stock
    (the quantities may have any sign), on one date and with a driver that
    works: [process_sale] prints nothing and returns the new sale id; the
    header carries the number for the count of the day plus one and the
    amounts of [calculate_totals]; [sale_items] gets one row per line in
    the cart's order; the ledger gets one row of kind [sale] per line, from
    the stock the product had before the sale; every product of the cart
    has its line's quantity taken off, and the others are as they were. *)
Theorem process_sale_sells config cart name phone percent method cashier w dt :
  cart <> [] ->
  NoDup (map product_id cart) ->
  forallb (fun item => available (database w) (product_id item) (quantity item))
          cart = true ->
  sales_auto_increment (database w) <> 0%Z ->
  on_date dt w = true ->
  no_fault (2 + 5 * length cart) (faults w) = true ->
  let r := SalesManager.process_sale config cart name phone percent method
             cashier w in
  let d := database w in
  let d' := database (world_of r) in
  let id := sales_auto_increment d in
  let number := "SALE-" ++ strftime_Ymd (now w) ++ "-"
                ++ format_04d (Z.of_nat (length (sales_on (now w) d)) + 1) in
  let t := SalesManager.calculate_totals config cart percent in
  result_of r = Return (Some id)
  /\ stdout (world_of r) = stdout w
  /\ (exists date,
        date_of date = dt
        /\ sales d'
           = app (sales d)
                 [mk_sale id number name phone (t_subtotal t) (t_tax_amount t)
                          (t_discount_amount t) (t_total_amount t) method
                          cashier date])
  /\ sale_items d' = app (sale_items d) (map (sale_item_of (Some id)) cart)
  /\ inventory_transactions d'
     = app (inventory_transactions d)
           (map (fun item => sale_row_of (Some id) number cashier item
                               (stock_of d (product_id item))) cart)
  /\ forall P,
       products d' !! P
       = match line_for P cart with
         | Some item => sold_from item <$> products d !! P
         | None => products d !! P
         end.
Proof.
  intros Hne Hnd Hav Hid Hdt Hf r d d' id number t.
  assert (E : r = SalesManager.process_sale config cart name phone percent
                    method cashier w) by reflexivity.
  subst d' id. unfold d in *. clear d. clearbody r.
  destruct cart as [| item rest]; [now contradiction Hne |]. clear Hne.
  unfold SalesManager.process_sale in E. set (cart := item :: rest) in *.
  replace (2 + 5 * length cart)%nat
    with (length cart + (1 + (1 + 4 * length cart)))%nat in Hf by lia.
  destruct (no_fault_add _ _ _ Hf) as [Hf1 Hf2]. clear Hf.
  rewrite <- faults_calls in Hf2.
  rewrite (bind_return _ _ _ _ _ (check_cart_ok cart w Hav Hf1)) in E.
  cbn [negb] in E.
  set (w1 := calls (length cart) w) in *.
  destruct (no_fault_add _ _ _ Hf2) as [Hf3 Hf4]. clear Hf2.
  rewrite (bind_return _ _ _ _ _ (generate_sale_number_ok w1 Hf3)) in E.
  assert (Hd1 : on_date dt w1 = true) by now apply on_date_calls.
  assert (D1 : database w1 = database w) by apply database_calls.
  rewrite (strftime_Ymd_date (now w1) (now w)) in E.
  2: { now rewrite (on_date_now dt w Hdt), (on_date_now dt w1 Hd1). }
  rewrite (sales_on_date (now (tick w1)) (now w)) in E.
  2: { rewrite (on_date_now dt w Hdt). now apply on_date_now, on_date_tick. }
  rewrite D1 in E. fold number in E.
  set (w2 := called (tick w1)) in *.
  assert (Hd2 : on_date dt w2 = true) by now apply on_date_called, on_date_tick.
  assert (D2 : database w2 = database w).
  { unfold w2. now rewrite database_called, database_tick. }
  assert (Hf5 : no_fault (1 + 4 * length cart) (faults w2) = true).
  { unfold w2. rewrite faults_called, faults_tick.
    now destruct (faults w1). }
  destruct (no_fault_add _ _ _ Hf5) as [Hf6 Hf7]. clear Hf5.
  unfold try_except in E. unfold bind at 1 in E.
  rewrite (execute_query_ok _ 0 w2 Hf6) in E. cbn [sale_query fst snd] in E.
  rewrite D2 in E.
  rewrite (proj2 (Z.eqb_neq _ _) Hid) in E.
  match type of E with context [bind _ _ ?w'] =>
    set (w3 := w') in *
  end.
  assert (Hav3 : forallb (fun i => available (database w3) (product_id i)
                                     (quantity i)) cart = true) by exact Hav.
  assert (Hf8 : no_fault (4 * length cart) (faults w3) = true).
  { unfold w3. rewrite faults_set_database, faults_called.
    now destruct (faults w2). }
  destruct (record_items_ok cart (Some (sales_auto_increment (database w)))
              number cashier w3 Hnd Hav3 Hf8) as (R & O & S & A & I & L & Pr).
  unfold bind in E.
  destruct (SalesManager.record_items cart
              (Some (sales_auto_increment (database w))) number cashier w3)
    as [[[] | e] w4];
    unfold result_of, world_of in R, O, S, A, I, L, Pr;
    cbn [fst snd] in R, O, S, A, I, L, Pr; [| discriminate R].
  cbv beta iota delta [ret] in E.
  rewrite E. unfold result_of, world_of. cbn [fst snd].
  split; [reflexivity |].
  split. { rewrite O. unfold w3, w2, w1.
           now rewrite stdout_set_database, stdout_called, stdout_called,
             stdout_tick, stdout_calls. }
  split. { exists (now w2). split; [now apply on_date_now |]. rewrite S. reflexivity. }
  split; [rewrite I; reflexivity |]. split; [rewrite L; reflexivity |].
  intros P. rewrite Pr. reflexivity.
Qed.

(** X14: the availability check looks at each line on its own. For a
    cart of two lines for the same product, each within the stock but not
    both together, with a driver that works: the sale is reported as made,
    both lines are in [sale_items], but only the first is taken off the
    stock and has a ledger row; for the second [update_stock] prints the
    insufficient-stock message and its [False] is dropped. *)
Theorem process_sale_oversells config a b name phone percent method cashier w p :
  product_id b = product_id a ->
  products (database w) !! product_id a = Some p ->
  (quantity a <= p_stock_quantity p)%Z ->
  (quantity b <= p_stock_quantity p)%Z ->
  (p_stock_quantity p < quantity a + quantity b)%Z ->
  sales_auto_increment (database w) <> 0%Z ->
  no_fault 10 (faults w) = true ->
  let r := SalesManager.process_sale config [a; b] name phone percent method
             cashier w in
  let d := database w in
  let d' := database (world_of r) in
  let id := sales_auto_increment d in
  result_of r = Return (Some id)
  /\ sale_items d'
     = app (sale_items d) [sale_item_of (Some id) a; sale_item_of (Some id) b]
  /\ products d' = <[product_id a := sold_from a p]> (products d)
  /\ (exists number,
        inventory_transactions d'
        = app (inventory_transactions d)
              [sale_row_of (Some id) number cashier a (p_stock_quantity p)])
  /\ stdout (world_of r)
     = app (stdout w)
           ["Insufficient stock. Available: "
            ++ pretty (p_stock_quantity p - quantity a)%Z].
Proof.
  intros Hb Hp Ha Hqb Hab Hid Hf r d d' id.
  assert (E : r = SalesManager.process_sale config [a; b] name phone percent
                    method cashier w) by reflexivity.
  subst d' id. unfold d in *. clear d. clearbody r.
  unfold SalesManager.process_sale in E.
  assert (Hav : forallb (fun item => available (database w) (product_id item)
                                       (quantity item)) [a; b] = true).
  { cbn. unfold available. rewrite Hb, Hp.
    now rewrite !(proj2 (Z.leb_le _ _)) by assumption. }
  change 10%nat with (2 + (1 + (1 + (4 + 2))))%nat in Hf.
  destruct (no_fault_add _ _ _ Hf) as [Hf1 Hf2]. clear Hf.
  rewrite (bind_return _ _ _ _ _ (check_cart_ok [a; b] w Hav Hf1)) in E.
  cbn [negb length] in E. rewrite <- (faults_calls 2 w) in Hf2.
  set (w1 := calls 2 w) in *.
  destruct (no_fault_add _ _ _ Hf2) as [Hf3 Hf4]. clear Hf2.
  rewrite (bind_return _ _ _ _ _ (generate_sale_number_ok w1 Hf3)) in E.
  set (number := "SALE-" ++ _) in E.
  set (w2 := called (tick w1)) in *.
  assert (D2 : database w2 = database w).
  { unfold w2, w1. now rewrite database_called, database_tick, database_calls. }
  assert (Hf5 : no_fault (1 + (4 + 2)) (faults w2) = true).
  { unfold w2. rewrite faults_called, faults_tick. now destruct (faults w1). }
  destruct (no_fault_add _ _ _ Hf5) as [Hf6 Hf7]. clear Hf5.
  unfold try_except in E. unfold bind at 1 in E.
  rewrite (execute_query_ok _ 0 w2 Hf6) in E. cbn [sale_query fst snd] in E.
  rewrite D2 in E. rewrite (proj2 (Z.eqb_neq _ _) Hid) in E.
  match type of E with context [bind _ _ ?w'] => set (w3 := w') in * end.
  assert (Hf8 : no_fault (4 + 2) (faults w3) = true).
  { unfold w3. rewrite faults_set_database, faults_called.
    now destruct (faults w2). }
  destruct (no_fault_add _ _ _ Hf8) as [Hf9 Hf10]. clear Hf8.
  unfold bind at 1 in E.
  rewrite (record_items_step a [b] _ number cashier w3 p Hp Ha Hf9) in E.
  match type of E with
    context [SalesManager.record_items [b] _ number cashier ?w'] =>
      set (w4 := w') in *
  end.
  assert (Hp4 : products (database w4) !! product_id b = Some (sold_from a p)).
  { unfold w4. rewrite database_set_database, Hb. cbn.
    now rewrite lookup_insert_eq. }
  assert (Hf11 : no_fault 2 (faults w4) = true).
  { unfold w4. now rewrite faults_set_database, faults_calls. }
  rewrite (record_items_step_short b [] _ number cashier w4 (sold_from a p) Hp4)
    in E; [| cbn; lia | exact Hf11].
  cbn [SalesManager.record_items] in E. cbv beta iota delta [ret] in E.
  rewrite E. unfold result_of, world_of. cbn [fst snd].
  split; [reflexivity |].
  rewrite database_printed, stdout_printed, database_set_database,
    stdout_set_database.
  cbn [sale_items products inventory_transactions sold_from p_stock_quantity].
  split. { unfold w4, w3. cbn. now rewrite <- app_assoc. }
  split. { unfold w4, w3. reflexivity. }
  split. { exists number. unfold w4, w3. reflexivity. }
  f_equal. rewrite stdout_calls. unfold w4.
  rewrite stdout_set_database, stdout_calls. unfold w3.
  rewrite stdout_set_database, stdout_called. unfold w2.
  rewrite stdout_called, stdout_tick. unfold w1. apply stdout_calls.
Qed.

(** ** More on the totals *)

Lemma tax_of_anti t s d d' :
  (0 < t)%Q -> (0 < s)%Q -> fle d d' = true ->
  fle (fmul (fsub (Fin s) (discount_of (Fin s) d')) (Fin t))
      (fmul (fsub (Fin s) (discount_of (Fin s) d)) (Fin t)) = true.
Proof.
  intros Ht Hs H. apply fmul_mono_l; [exact Ht |].
  apply fsub_anti_r. now apply discount_of_mono.
Qed.

Lemma tax_of_100 t s :
  is_float (Fin s) = true ->
  fmul (fsub (Fin s) (discount_of (Fin s) (Fin 100))) (Fin t) = Fin 0.
Proof.
  intros Hs. rewrite (discount_of_100 s Hs). cbn.
  rewrite (rnd_0 (s - Qred s)) by (rewrite Qred_correct; ring). cbn.
  apply rnd_0. ring.
Qed.

(** X15: for a cart whose subtotal is finite and positive, a larger
    discount percentage never gives a smaller discount amount, nor a larger
    tax amount or total; the subtotal does not depend on it. *)
Theorem calculate_totals_monotone cart percent percent' :
  let s := py_sum (map subtotal cart) in
  let t := SalesManager.calculate_totals BUSINESS_CONFIG cart percent in
  let t' := SalesManager.calculate_totals BUSINESS_CONFIG cart percent' in
  is_finite s = true ->
  flt (Fin 0) s = true ->
  fle percent percent' = true ->
  t_subtotal t' = t_subtotal t
  /\ fle (t_discount_amount t) (t_discount_amount t') = true
  /\ fle (t_tax_amount t') (t_tax_amount t) = true
  /\ fle (t_total_amount t') (t_total_amount t) = true.
Proof.
  intros s t t' Hfin Hpos H. subst t t'.
  rewrite !calculate_totals_amounts. fold s.
  cbn [t_subtotal t_discount_amount t_tax_amount t_total_amount].
  rewrite tax_rate_value.
  destruct s as [x | | |]; try discriminate Hfin.
  apply flt_Fin in Hpos.
  assert (Hrate : (0 < 1080863910568919 # 9007199254740992)%Q) by reflexivity.
  split; [reflexivity |].
  split; [apply py_round_mono; [lia |]; now apply discount_of_mono |].
  split; [apply py_round_mono; [lia |]; now apply tax_of_anti |].
  apply py_round_mono; [lia |]. now apply total_of_anti.
Qed.

(** X16: within the documented range, 0 to 100 per cent, and for a
    finite positive subtotal, the amounts returned stay in range: the
    discount amount lies between 0 and the subtotal, the tax amount is not
    negative, and the total lies between 0 and the total without discount. *)
Theorem calculate_totals_in_range cart percent :
  let s := py_sum (map subtotal cart) in
  let t := SalesManager.calculate_totals BUSINESS_CONFIG cart percent in
  is_finite s = true ->
  flt (Fin 0) s = true ->
  fle (Fin 0) percent = true ->
  fle percent (Fin 100) = true ->
  fle (Fin 0) (t_discount_amount t) = true
  /\ fle (t_discount_amount t) (t_subtotal t) = true
  /\ fle (Fin 0) (t_tax_amount t) = true
  /\ fle (Fin 0) (t_total_amount t) = true
  /\ fle (t_total_amount t)
         (t_total_amount
            (SalesManager.calculate_totals BUSINESS_CONFIG cart (Fin 0))) = true.
Proof.
  intros s t Hfin Hpos H0 H100. subst t.
  rewrite !calculate_totals_amounts. fold s.
  cbn [t_subtotal t_discount_amount t_tax_amount t_total_amount].
  rewrite tax_rate_value.
  pose proof (py_sum_float (map subtotal cart)) as Hfl. fold s in Hfl.
  destruct s as [x | | |]; try discriminate Hfin.
  apply flt_Fin in Hpos.
  assert (Hrate : (0 < 1080863910568919 # 9007199254740992)%Q) by reflexivity.
  assert (Z2 : py_round (Fin 0) 2 = Fin 0) by (vm_compute; reflexivity).
  split.
  { rewrite <- Z2 at 1. rewrite <- (discount_of_0 x).
    apply py_round_mono; [lia |]. now apply discount_of_mono. }
  split.
  { rewrite (py_round_comp 2 x (Qred x)) by (symmetry; apply Qred_correct).
    rewrite <- (discount_of_100 x Hfl).
    apply py_round_mono; [lia |]. now apply discount_of_mono. }
  split.
  { rewrite <- Z2 at 1.
    rewrite <- (tax_of_100 (1080863910568919 # 9007199254740992) x Hfl).
    apply py_round_mono; [lia |]. now apply tax_of_anti. }
  split.
  { rewrite <- Z2 at 1.
    rewrite <- (total_of_100 (1080863910568919 # 9007199254740992) x Hfl).
    apply py_round_mono; [lia |]. now apply total_of_anti. }
  apply py_round_mono; [lia |]. now apply total_of_anti.
Qed.

(** ** More on sale numbers and on the ledger *)

(** X17: generating a sale number writes nothing, so a second
    generation with no sale recorded in between, on the same date and with
    the count succeeding, returns the same number again. *)
Theorem sale_number_is_not_reserved w dt :
  on_date dt w = true ->
  no_fault 2 (faults w) = true ->
  let r1 := SalesManager.generate_sale_number w in
  let r2 := SalesManager.generate_sale_number (world_of r1) in
  result_of r2 = result_of r1
  /\ database (world_of r2) = database w.
Proof.
  intros Hd Hf r1 r2. subst r2 r1.
  change 2%nat with (1 + 1)%nat in Hf.
  destruct (no_fault_add _ _ _ Hf) as [Hf1 Hf2].
  rewrite (generate_sale_number_ok w Hf1). unfold result_of, world_of. cbn [fst snd].
  set (w1 := called (tick w)).
  assert (Hd1 : on_date dt w1 = true) by now apply on_date_called, on_date_tick.
  assert (Hf3 : no_fault 1 (faults w1) = true).
  { unfold w1. rewrite faults_called, faults_tick. now destruct (faults w). }
  rewrite (generate_sale_number_ok w1 Hf3). cbn [fst snd].
  assert (D1 : database w1 = database w).
  { unfold w1. now rewrite database_called, database_tick. }
  split.
  - rewrite D1. rewrite (strftime_Ymd_date (now w1) (now w)).
    2: { now rewrite (on_date_now dt w Hd), (on_date_now dt w1 Hd1). }
    rewrite (sales_on_date (now (tick w1)) (now (tick w))); [reflexivity |].
    rewrite (on_date_now dt (tick w)) by now apply on_date_tick.
    now apply on_date_now, on_date_tick.
  - now rewrite database_called, database_tick.
Qed.

Lemma sale_number_is_not_reserved_witness :
  let r1 := SalesManager.generate_sale_number shop in
  let r2 := SalesManager.generate_sale_number (world_of r1) in
  result_of r2 = result_of r1 /\ database (world_of r2) = database shop.
Proof.
  apply (sale_number_is_not_reserved shop (2025, 1, 1)%nat); reflexivity.
Defined.

(** X18: [restock_product] does not look at the sign of the quantity: a
    negative quantity that the stock covers returns [True], lowers the
    stock and is logged as a row of kind [restock] with that negative
    change. *)
Theorem restock_product_takes_no_sign P p q user notes w :
  products (database w) !! P = Some p ->
  (q < 0)%Z ->
  (0 <= p_stock_quantity p + q)%Z ->
  no_fault 3 (faults w) = true ->
  let r := InventoryManager.restock_product P q user notes w in
  result_of r = Return true
  /\ (stock_of (database (world_of r)) P < stock_of (database w) P)%Z
  /\ inventory_transactions (database (world_of r))
     = app (inventory_transactions (database w))
           [mk_inventory_transaction P "restock" q (p_stock_quantity p)
              (p_stock_quantity p + q) None notes user].
Proof.
  intros Hp Hq Hs Hf r. subst r. unfold InventoryManager.restock_product.
  rewrite (update_stock_ok _ _ _ _ _ _ _ _ Hp Hs Hf).
  unfold result_of, world_of, stock_of. cbn.
  rewrite lookup_insert_eq, Hp. cbn. repeat split. lia.
Qed.

Lemma restock_product_takes_no_sign_witness :
  let r := InventoryManager.restock_product 1 (-4) None None shop in
  result_of r = Return true
  /\ (stock_of (database (world_of r)) 1 < stock_of (database shop) 1)%Z
  /\ inventory_transactions (database (world_of r))
     = [mk_inventory_transaction 1 "restock" (-4) 10 6 None None None].
Proof.
  apply (restock_product_takes_no_sign 1 (mk_product "Milk" 10) (-4) None None
           shop); [reflexivity | lia | cbn; lia | reflexivity].
Defined.

(** X19: a change and its opposite. When [update_stock(P, q, ...)] and
    then [update_stock(P, -q, ...)] both run with a working driver on a
    stock [s] with [0 <= s] and [0 <= s + q], both return [True], the
    products are again exactly as before, and the ledger has two more rows,
    the second going from [s + q] back to [s]. *)
Theorem update_stock_undone P p q kind kind' user reference note w :
  products (database w) !! P = Some p ->
  (0 <= p_stock_quantity p)%Z ->
  (0 <= p_stock_quantity p + q)%Z ->
  no_fault 6 (faults w) = true ->
  let s := p_stock_quantity p in
  let r1 := InventoryManager.update_stock P q kind user reference note w in
  let r2 := InventoryManager.update_stock P (- q) kind' user reference note
              (world_of r1) in
  result_of r1 = Return true
  /\ result_of r2 = Return true
  /\ products (database (world_of r2)) = products (database w)
  /\ inventory_transactions (database (world_of r2))
     = app (inventory_transactions (database w))
           [mk_inventory_transaction P kind q s (s + q) reference note user;
            mk_inventory_transaction P kind' (- q) (s + q) s reference note user].
Proof.
  intros Hp Hs Hq Hf s r1 r2. subst r2 r1.
  change 6%nat with (3 + 3)%nat in Hf.
  destruct (no_fault_add _ _ _ Hf) as [Hf1 Hf2].
  unfold result_of, world_of.
  rewrite (update_stock_ok _ _ _ _ _ _ _ _ Hp Hq Hf1).
  cbn [fst snd]. split; [reflexivity |].
  match goal with |- context [InventoryManager.update_stock _ _ _ _ _ _ ?w'] =>
    set (w1 := w')
  end.
  assert (Hp1 : products (database w1) !! P
                = Some (mk_product (p_product_name p) (s + q))).
  { unfold w1. rewrite database_set_database. cbn. apply lookup_insert_eq. }
  assert (Hf3 : no_fault 3 (faults w1) = true).
  { unfold w1. rewrite faults_set_database.
    change (called (called (called w))) with (calls 3 w).
    now rewrite faults_calls. }
  rewrite (update_stock_ok w1 P _ (- q) kind' user reference note Hp1);
    [| cbn; lia | exact Hf3].
  cbn [fst snd]. split; [reflexivity |].
  rewrite database_set_database. unfold w1. rewrite database_set_database.
  unfold stock_changed, ledger_row. cbn. fold s. split.
  - rewrite insert_insert_eq.
    replace (s + q + - q)%Z with s by lia.
    apply insert_id. rewrite Hp. now destruct p.
  - rewrite <- app_assoc. cbn.
    replace (s + q + - q)%Z with s by lia. reflexivity.
Qed.

Lemma update_stock_undone_witness :
  let r1 := InventoryManager.update_stock 1 5 "restock" None None None shop in
  let r2 := InventoryManager.update_stock 1 (-5) "return" None None None
              (world_of r1) in
  result_of r1 = Return true
  /\ result_of r2 = Return true
  /\ products (database (world_of r2)) = products (database shop)
  /\ inventory_transactions (database (world_of r2))
     = [mk_inventory_transaction 1 "restock" 5 10 15 None None None;
        mk_inventory_transaction 1 "return" (-5) 15 10 None None None].
Proof.
  apply (update_stock_undone 1 (mk_product "Milk" 10) 5 "restock" "return" None
           None None shop); [reflexivity | cbn; lia | cbn; lia | reflexivity].
Defined.

(** X20: [check_stock_availability] answers [True] exactly when the read
    succeeds and the product has a row whose stock is at least the required
    quantity; it never writes. *)
Theorem check_stock_availability_true_iff w P q :
  let r := InventoryManager.check_stock_availability P q w in
  (result_of r = Return true
   <-> no_fault 1 (faults w) = true /\ available (database w) P q = true)
  /\ database (world_of r) = database w.
Proof.
  intros r. subst r.
  destruct (faults_cases (faults w)) as [Hf | (e & fs & He)].
  - rewrite (check_stock_availability_ok w P q Hf).
    unfold result_of, world_of. cbn [fst snd]. rewrite database_called.
    split; [| reflexivity]. split.
    + intros [= H]. now split.
    + intros [_ ->]. reflexivity.
  - rewrite (check_stock_availability_raise w P q e fs He).
    unfold result_of, world_of. cbn [fst snd]. split; [| reflexivity].
    split; [discriminate |]. intros [H _]. rewrite He in H. discriminate.
Qed.

(** X21: when the driver raises on the first availability read, at the
    pool or at the statement, [process_sale] ends as for a shortage: it
    returns [None], writes nothing, and after the lines of the failed
    [fetch_one] (for an error of the pool, the line of [get_connection]
    first) and the line of [check_stock_availability] prints the
    insufficient-stock message for the first line of the cart. *)
Theorem process_sale_outage_reads_as_shortage
    config item rest name phone percent method cashier w f fs :
  faults w = Some f :: fs ->
  let r := SalesManager.process_sale config (item :: rest) name phone percent
             method cashier w in
  result_of r = Return None
  /\ database (world_of r) = database w
  /\ stdout (world_of r)
     = app (stdout w)
           (app (error_lines "Database error in fetch_one: " f)
                ["Error checking stock: " ++ message_of f;
                 "Insufficient stock for " ++ product_name item]).
Proof.
  intros He r. subst r.
  unfold SalesManager.process_sale. cbn [SalesManager.check_cart].
  unfold bind. rewrite (check_stock_availability_raise w _ _ f fs He).
  unfold result_of, world_of. cbn.
  rewrite <- !app_assoc. repeat split.
Qed.

(** ** The ledger in step with the stock *)

Lemma never_fails_tail fs : never_fails fs = true -> never_fails (tail fs) = true.
Proof. destruct fs as [| [e |] fs]; [easy | discriminate | easy]. Qed.

Lemma never_fails_no_fault n : forall fs,
  never_fails fs = true -> no_fault n fs = true.
Proof.
  induction n as [| n IH]; intros fs H; [reflexivity |].
  cbn. destruct fs as [| [e |] fs]; [| discriminate |].
  - now apply (IH []).
  - now apply IH.
Qed.

Lemma never_fails_called w :
  never_fails (faults w) = true -> never_fails (faults (called w)) = true.
Proof. rewrite faults_called. apply never_fails_tail. Qed.

Lemma never_fails_calls n : forall w,
  never_fails (faults w) = true -> never_fails (faults (calls n w)) = true.
Proof.
  induction n as [| n IH]; intros w H; [exact H |].
  cbn [calls]. now apply IH, never_fails_called.
Qed.

Lemma in_step_spec d :
  in_step d = true
  <-> forall P newest,
        last_row P d = Some newest ->
        p_stock_quantity <$> products d !! P = Some (it_new_stock newest).
Proof.
  unfold in_step. rewrite forallb_forall. split.
  - intros H P newest Hl.
    assert (Hin : newest ∈ filter (fun row => it_product_id row = P)
                              (inventory_transactions d)).
    { unfold last_row in Hl. apply last_Some in Hl as [l' ->].
      apply elem_of_app. right. left. }
    apply list_elem_of_filter in Hin as [HP Hin].
    apply list_elem_of_In in Hin. specialize (H newest Hin).
    rewrite HP, Hl in H. now apply bool_decide_eq_true in H.
  - intros H row Hin.
    destruct (last_row (it_product_id row) d) as [newest |] eqn:Hl; [| reflexivity].
    apply bool_decide_eq_true. now apply H.
Qed.

Lemma logged_in_step d d' : logged d d' -> in_step d = true -> in_step d' = true.
Proof.
  intros [d0 row n | d0 row | d0 P p delta kind user reference note Hp] H.
  - exact H.
  - exact H.
  - rewrite in_step_spec in *. intros Q newest.
    unfold last_row, stock_changed. cbn [inventory_transactions products].
    rewrite filter_app.
    destruct (decide (P = Q)) as [<- | Hne].
    + rewrite filter_cons_True by reflexivity. rewrite filter_nil, last_snoc.
      intros [= <-]. now rewrite lookup_insert_eq.
    + rewrite filter_cons_False by (cbn; congruence).
      rewrite filter_nil, app_nil_r. intros Hl.
      rewrite lookup_insert_ne by exact Hne. now apply H.
Qed.

Lemma update_stock_logged P d kind user reference note w :
  never_fails (faults w) = true ->
  exists b w',
    InventoryManager.update_stock P d kind user reference note w = (Return b, w')
    /\ never_fails (faults w') = true
    /\ rtc logged (database w) (database w').
Proof.
  intros Hq. pose proof (never_fails_no_fault 3 _ Hq) as Hf.
  pose proof (never_fails_no_fault 1 _ Hq) as Hf1.
  destruct (products (database w) !! P) as [p |] eqn:Hp.
  - destruct (Z_lt_le_dec (p_stock_quantity p + d) 0) as [Hd | Hd].
    + rewrite (update_stock_short _ _ _ _ _ _ _ _ Hp Hd Hf1).
      eexists _, _. split; [reflexivity |].
      rewrite faults_printed, database_printed, database_called.
      split; [now apply never_fails_called | apply rtc_refl].
    + rewrite (update_stock_ok _ _ _ _ _ _ _ _ Hp Hd Hf).
      eexists _, _. split; [reflexivity |].
      rewrite faults_set_database, database_set_database.
      split; [now apply (never_fails_calls 3) |].
      apply rtc_once. now apply logged_stock.
  - unfold InventoryManager.update_stock, try_except, bind.
    rewrite (fetch_one_ok _ 0 w Hf1). unfold stock_query. rewrite Hp. cbn.
    eexists _, _. split; [reflexivity |].
    rewrite faults_printed, database_printed, database_called.
    split; [now apply never_fails_called | apply rtc_refl].
Qed.

Lemma adjust_stock_logged P t user note w :
  never_fails (faults w) = true ->
  exists b w',
    InventoryManager.adjust_stock P t user note w = (Return b, w')
    /\ never_fails (faults w') = true
    /\ rtc logged (database w) (database w').
Proof.
  intros Hq. pose proof (never_fails_no_fault 1 _ Hq) as Hf1.
  unfold InventoryManager.adjust_stock, bind. rewrite (fetch_one_ok _ 0 w Hf1).
  destruct (stock_query P (now w) (database w)) as [s |].
  - destruct (update_stock_logged P (t - s) "adjustment" user None note (called w)
                (never_fails_called w Hq)) as (b & w' & E & Hq' & L).
    rewrite database_called in L. now exists b, w'.
  - eexists _, _. split; [reflexivity |]. rewrite database_called.
    split; [now apply never_fails_called | apply rtc_refl].
Qed.

Lemma check_cart_quiet cart : forall w,
  never_fails (faults w) = true ->
  exists b w',
    SalesManager.check_cart cart w = (Return b, w')
    /\ never_fails (faults w') = true
    /\ database w' = database w.
Proof.
  induction cart as [| item rest IH]; intros w Hq.
  - eexists _, _. split; [reflexivity |]. now split.
  - cbn [SalesManager.check_cart]. unfold bind.
    rewrite (check_stock_availability_ok w _ _ (never_fails_no_fault 1 _ Hq)).
    destruct (available _ _ _).
    + destruct (IH (called w) (never_fails_called w Hq)) as (b & w' & -> & Hq' & D).
      exists b, w'. split; [reflexivity |]. split; [exact Hq' |].
      now rewrite D, database_called.
    + eexists _, _. split; [reflexivity |].
      rewrite faults_printed, database_printed, database_called.
      split; [now apply never_fails_called | reflexivity].
Qed.

Lemma record_items_logged cart sid number cashier : forall w,
  never_fails (faults w) = true ->
  exists w',
    SalesManager.record_items cart sid number cashier w = (Return tt, w')
    /\ never_fails (faults w') = true
    /\ rtc logged (database w) (database w').
Proof.
  induction cart as [| item rest IH]; intros w Hq.
  - eexists. split; [reflexivity |]. split; [exact Hq | apply rtc_refl].
  - cbn [SalesManager.record_items]. unfold bind at 1.
    rewrite (execute_query_ok _ 0 w (never_fails_no_fault 1 _ Hq)).
    cbn [item_query fst snd]. unfold bind at 1.
    match goal with |- context [InventoryManager.update_stock ?a ?b ?c ?d ?e ?f ?w1] =>
      assert (Hq1 : never_fails (faults w1) = true)
        by (rewrite faults_set_database; now apply never_fails_called);
      destruct (update_stock_logged a b c d e f w1 Hq1) as (ok & w2 & -> & Hq2 & L);
      rewrite database_set_database in L
    end.
    destruct (IH w2 Hq2) as (w3 & -> & Hq3 & L3).
    exists w3. split; [reflexivity |]. split; [exact Hq3 |].
    eapply rtc_l; [apply (logged_item (database w)) |].
    etrans; [exact L | exact L3].
Qed.

Lemma process_sale_logged config cart name phone percent method cashier w :
  never_fails (faults w) = true ->
  rtc logged (database w)
      (database (world_of (SalesManager.process_sale config cart name phone
                             percent method cashier w))).
Proof.
  intros Hq. destruct cart as [| item rest]; [apply rtc_refl |].
  unfold SalesManager.process_sale. set (cart := item :: rest).
  destruct (check_cart_quiet cart w Hq) as (ok & w1 & E1 & Hq1 & D1).
  rewrite (bind_return _ _ _ _ _ E1).
  destruct ok; cbn [negb]; [| unfold world_of; cbn; rewrite D1; apply rtc_refl].
  rewrite (bind_return _ _ _ _ _
             (generate_sale_number_ok w1 (never_fails_no_fault 1 _ Hq1))).
  set (w2 := called (tick w1)).
  assert (Hq2 : never_fails (faults w2) = true).
  { unfold w2. rewrite faults_called, faults_tick. now apply never_fails_tail. }
  assert (D2 : database w2 = database w).
  { unfold w2. now rewrite database_called, database_tick. }
  unfold try_except. unfold bind at 1.
  rewrite (execute_query_ok _ 0 w2 (never_fails_no_fault 1 _ Hq2)).
  cbn [sale_query fst snd].
  match goal with |- context [bind (SalesManager.record_items cart ?s ?n cashier) _ ?w'] =>
    assert (Hq3 : never_fails (faults w') = true)
      by (rewrite faults_set_database; now apply never_fails_called);
    destruct (record_items_logged cart s n cashier w' Hq3) as (w4 & E4 & _ & L);
    rewrite database_set_database in L;
    rewrite (bind_return _ _ _ _ _ E4)
  end.
  unfold world_of. cbn [ret snd].
  eapply rtc_l; [| exact L]. rewrite D2. apply logged_header.
Qed.

Lemma after_logged c w :
  never_fails (faults w) = true ->
  rtc logged (database w) (database (after c w)).
Proof.
  intros Hq.
  destruct c as [P d kind user reference note | P q user note | P t user note
                | config cart name phone percent method cashier]; cbn.
  - destruct (update_stock_logged P d kind user reference note w Hq)
      as (b & w' & -> & _ & L).
    exact L.
  - destruct (update_stock_logged P q "restock" user None note w Hq)
      as (b & w' & E & _ & L).
    unfold InventoryManager.restock_product. rewrite E. exact L.
  - destruct (adjust_stock_logged P t user note w Hq) as (b & w' & -> & _ & L).
    exact L.
  - now apply process_sale_logged.
Qed.

(** X22: while the driver does not fail, the ledger stays in step with
    the stock. If the newest ledger row of every product that has one ends
    at the stock the product has, then the same holds after any run of
    calls of [update_stock], [restock_product], [adjust_stock] and
    [process_sale] during which the driver raises no error. *)
Theorem ledger_in_step_while_driver_works cs : forall w,
  forallb (fun c => never_fails (c_faults (fst c))) cs = true ->
  in_step (database w) = true ->
  in_step (database (after_all cs w)) = true.
Proof.
  induction cs as [| [c op] rest IH]; intros w Hq H; [exact H |].
  cbn [forallb fst] in Hq. apply andb_true_iff in Hq as [Hc Hq].
  cbn [after_all]. apply (IH _ Hq).
  pose proof (after_logged op (under c w) Hc) as L.
  change (database (under c w)) with (database w) in L.
  revert H. generalize (database (after op (under c w))) L.
  generalize (database w). clear.
  intros d d' L. induction L as [| d1 d2 d3 S _ IH']; [auto |].
  intros H. apply IH'. now apply (logged_in_step d1 d2).
Qed.

(** after a fault between the two writes of [update_stock] it is out of
    step: on the busy day the restock of the eggs is written and not logged *)
Example ledger_out_of_step_after_a_fault :
  in_step (database shop) = true
  /\ in_step (database (after_all busy_day shop)) = false.
Proof. destruct python; vm_compute; split; reflexivity. Qed.

End Interpreter.

(** * The properties at the shop *)

(** the sum depends on the interpreter: 1.43 + 3.27 + 10.81 is
    15.510000000000002 added from the left and 15.51 with compensation, so
    at 50 per cent the discount amount is 7.76 for the one and 7.75 for the
    other *)
Example sum_depends_on_the_interpreter :
  Forall from_init three_lines
  /\ t_discount_amount
       (SalesManager.calculate_totals (python := sums_left_to_right)
          BUSINESS_CONFIG three_lines (Fin 50)) = literal (776 # 100)
  /\ t_discount_amount
       (SalesManager.calculate_totals (python := sums_compensated)
          BUSINESS_CONFIG three_lines (Fin 50)) = literal (775 # 100).
Proof.
  split; [repeat (constructor; [vm_compute; reflexivity |]); constructor |].
  vm_compute. split; reflexivity.
Qed.

(** from here on the interpreter is the shop's; a cart of one line has the
    same sum on either interpreter ([py_sum_single]) *)
#[local] Existing Instance shop_interpreter.

Lemma process_sale_insufficient_stock_witness :
  let r := SalesManager.process_sale BUSINESS_CONFIG [two_milk; crate_of_milk]
             None None (Fin 0) "cash" (Some 3%Z) shop in
  result_of r = Return None
  /\ database (world_of r) = shelf
  /\ (no_fault 2 [] = true ->
      exists offending,
        find (unavailable shelf) [two_milk; crate_of_milk] = Some offending
        /\ offending ∈ [two_milk; crate_of_milk]
        /\ unavailable shelf offending = true
        /\ stdout (world_of r)
           = ["Insufficient stock for " ++ product_name offending]).
Proof.
  apply (process_sale_insufficient_stock (python := shop_interpreter)
           BUSINESS_CONFIG [two_milk; crate_of_milk] None None (Fin 0) "cash"
           (Some 3%Z) shop crate_of_milk (mk_product "Milk" 10));
    [right; left | reflexivity | cbn; lia].
Defined.

Lemma missing_product_is_insufficient_stock_witness :
  (forall q, result_of (InventoryManager.check_stock_availability 9 q shop)
             = Return false)
  /\ let r := SalesManager.process_sale BUSINESS_CONFIG [two_milk; caviar]
                None None (Fin 0) "cash" (Some 3%Z) shop in
     result_of r = Return None
     /\ database (world_of r) = shelf
     /\ (no_fault 2 [] = true ->
         exists offending,
           find (unavailable shelf) [two_milk; caviar] = Some offending
           /\ stdout (world_of r)
              = ["Insufficient stock for " ++ product_name offending]).
Proof.
  apply (missing_product_is_insufficient_stock (python := shop_interpreter)
           BUSINESS_CONFIG [two_milk; caviar] None None (Fin 0) "cash"
           (Some 3%Z) shop caviar);
    [right; left | reflexivity].
Defined.

Lemma discount_percent_is_not_bounded_witness :
  let t := SalesManager.calculate_totals BUSINESS_CONFIG [ten_pesos] (Fin 150) in
  let t' := SalesManager.calculate_totals BUSINESS_CONFIG [ten_pesos] (Fin (-10)) in
  let t0 := SalesManager.calculate_totals BUSINESS_CONFIG [ten_pesos] (Fin 0) in
  SalesManager.calculate_totals
    (with_discount_max (literal (50 # 100)) BUSINESS_CONFIG) [ten_pesos] (Fin 150)
  = t
  /\ flt (t_subtotal t) (t_discount_amount t) = true
  /\ flt (t_total_amount t) (Fin 0) = true
  /\ flt (t_total_amount t0) (t_total_amount t') = true.
Proof.
  intros t t' t0.
  destruct (discount_percent_is_not_bounded (python := shop_interpreter)
              [ten_pesos] (Fin 150) (literal (50 # 100)) eq_refl eq_refl)
    as (H1 & _ & _ & H2).
  destruct (discount_percent_is_not_bounded (python := shop_interpreter)
              [ten_pesos] (Fin (-10)) (literal (50 # 100)) eq_refl eq_refl)
    as (_ & _ & _ & H3).
  split; [exact H1 |].
  destruct (H2 10%Q 150%Q eq_refl eq_refl) as [[H4 H5] _];
    [vm_compute; discriminate | split; vm_compute; discriminate
    | reflexivity | vm_compute; discriminate |].
  split; [exact H4 |]. split; [exact H5 |].
  destruct (H3 10%Q (-10)%Q eq_refl eq_refl) as [_ H6];
    [vm_compute; discriminate | split; vm_compute; discriminate |].
  apply H6; [reflexivity | vm_compute; discriminate].
Defined.

(** C10 as stated fails at 100.001 per cent of 1.00: the subtotal is
    positive and the percentage above 100, but the discount amount returned
    is 1.00, not more than the subtotal, and the total returned is 0, not
    negative. *)
Lemma discount_just_over_100_counterexample :
  let percent := literal (100001 # 1000) in
  let t := SalesManager.calculate_totals BUSINESS_CONFIG [one_peso] percent in
  from_init one_peso
  /\ is_float percent = true
  /\ flt (Fin 0) (py_sum (map subtotal [one_peso])) = true
  /\ flt (Fin 100) percent = true
  /\ t_subtotal t = Fin 1
  /\ t_discount_amount t = Fin 1
  /\ t_total_amount t = Fin 0
  /\ flt (t_subtotal t) (t_discount_amount t) = false
  /\ flt (t_total_amount t) (Fin 0) = false.
Proof. vm_compute. repeat split. Qed.

Lemma calculate_totals_formulas_witness :
  let s := py_sum (map line_amount [two_milk; eggs]) in
  let d := fmul s (fdiv (Fin 10) (Fin 100)) in
  let a := fsub s d in
  let t := fmul a (literal (12 # 100)) in
  SalesManager.calculate_totals BUSINESS_CONFIG [two_milk; eggs] (Fin 10)
  = mk_totals (py_round s 2) (Fin 10) (py_round d 2) (py_round t 2)
              (py_round (fadd a t) 2)
  /\ (forall xs,
        adds_up_exactly 0 xs = true -> py_sum xs = Fin (Qred (exact_sum xs)))
  /\ (forall x,
        let n := round_half_even (x * 100) in
        py_round (Fin x) 2 = rnd (inject_Z n / 100)
        /\ (Qabs (inject_Z n - x * 100) <= 1 # 2)%Q
        /\ ((Qabs (inject_Z n - x * 100) == 1 # 2)%Q -> Z.even n = true))
  /\ SalesManager.calculate_totals BUSINESS_CONFIG
       [mk_CartItem 1 "Milk" "4800016" (Fin 10) 2 (Fin 20);
        mk_CartItem 2 "Eggs" "4800023" (Fin 5) 1 (Fin 5)] (Fin 10)
     = mk_totals (Fin 25) (Fin 10) (Fin (5 # 2)) (literal (270 # 100))
                 (literal (2520 # 100)).
Proof.
  apply (calculate_totals_formulas (python := shop_interpreter)
           [two_milk; eggs] (Fin 10)).
  repeat (constructor; [vm_compute; reflexivity |]). constructor.
Defined.

(** C3 as stated fails on the gum: the discount is 0.125 exactly, which
    [round] takes to 0.12 and standard rounding to 0.13. *)
Lemma round_is_not_standard_rounding :
  let t := SalesManager.calculate_totals BUSINESS_CONFIG [gum] (Fin 5) in
  let discount := discount_of (py_sum (map subtotal [gum])) (Fin 5) in
  from_init gum
  /\ is_float (unit_price gum) = true
  /\ is_float (Fin 5) = true
  /\ discount = Fin (1 # 8)
  /\ t_discount_amount t = literal (12 # 100)
  /\ standard_round discount 2 = literal (13 # 100)
  /\ feq (t_discount_amount t) (standard_round discount 2) = false.
Proof. vm_compute. repeat split. Qed.

Lemma stock_never_negative_witness :
  stock_nonneg (database (after_all busy_day shop)) = true.
Proof.
  apply (stock_never_negative (python := shop_interpreter) busy_day shop).
  reflexivity.
Defined.

Lemma ledger_rows_add_up_witness :
  ledger_ok (database (after_all busy_day shop)) = true.
Proof.
  apply (ledger_rows_add_up (python := shop_interpreter) busy_day shop).
  reflexivity.
Defined.

Lemma sale_items_have_headers_witness :
  items_ok (database (after_all busy_day shop)) = true.
Proof.
  apply (sale_items_have_headers (python := shop_interpreter) busy_day shop).
  reflexivity.
Defined.

Lemma process_sale_sells_witness :
  let r := SalesManager.process_sale BUSINESS_CONFIG [two_milk; eggs] None None
             (Fin 10) "cash" (Some 3%Z) shop in
  let d' := database (world_of r) in
  result_of r = Return (Some 1%Z)
  /\ stdout (world_of r) = []
  /\ (exists date,
        date_of date = (2025, 1, 1)%nat
        /\ sales d'
           = [mk_sale 1 "SALE-20250101-0001" None None (Fin 25) (literal (270 # 100))
                      (Fin (5 # 2)) (literal (2520 # 100)) "cash" (Some 3%Z) date])
  /\ sale_items d'
     = [mk_sale_item (Some 1%Z) 1 2 (Fin 10) (Fin 20);
        mk_sale_item (Some 1%Z) 2 1 (Fin 5) (Fin 5)]
  /\ inventory_transactions d'
     = [mk_inventory_transaction 1 "sale" (-2) 10 8 (Some 1%Z)
          (Some "Sale: SALE-20250101-0001") (Some 3%Z);
        mk_inventory_transaction 2 "sale" (-1) 3 2 (Some 1%Z)
          (Some "Sale: SALE-20250101-0001") (Some 3%Z)]
  /\ forall P,
       products d' !! P
       = match line_for P [two_milk; eggs] with
         | Some item => sold_from item <$> products shelf !! P
         | None => products shelf !! P
         end.
Proof.
  apply (process_sale_sells (python := shop_interpreter) BUSINESS_CONFIG
           [two_milk; eggs] None None (Fin 10) "cash" (Some 3%Z) shop
           (2025, 1, 1)%nat);
    [discriminate | compute_done
    | reflexivity | discriminate | reflexivity | reflexivity].
Defined.

Lemma process_sale_oversells_witness :
  let six := mk_CartItem 1 "Milk" "4800016" (Fin 10) 6 (Fin 60) in
  let r := SalesManager.process_sale BUSINESS_CONFIG [six; six] None None
             (Fin 0) "cash" None shop in
  let d' := database (world_of r) in
  result_of r = Return (Some 1%Z)
  /\ sale_items d'
     = [mk_sale_item (Some 1%Z) 1 6 (Fin 10) (Fin 60);
        mk_sale_item (Some 1%Z) 1 6 (Fin 10) (Fin 60)]
  /\ products d' = <[1%Z := mk_product "Milk" 4]> (products shelf)
  /\ (exists number,
        inventory_transactions d'
        = [sale_row_of (Some 1%Z) number None six 10])
  /\ stdout (world_of r) = ["Insufficient stock. Available: 4"].
Proof.
  intros six.
  apply (process_sale_oversells (python := shop_interpreter) BUSINESS_CONFIG
           six six None None (Fin 0) "cash" None shop (mk_product "Milk" 10));
    [reflexivity | reflexivity | cbn; lia | cbn; lia | cbn; lia | discriminate
    | reflexivity].
Defined.

Lemma calculate_totals_monotone_witness :
  let t := SalesManager.calculate_totals BUSINESS_CONFIG [two_milk; eggs] (Fin 10) in
  let t' := SalesManager.calculate_totals BUSINESS_CONFIG [two_milk; eggs] (Fin 20) in
  t_subtotal t' = t_subtotal t
  /\ fle (t_discount_amount t) (t_discount_amount t') = true
  /\ fle (t_tax_amount t') (t_tax_amount t) = true
  /\ fle (t_total_amount t') (t_total_amount t) = true.
Proof.
  apply (calculate_totals_monotone (python := shop_interpreter)
           [two_milk; eggs] (Fin 10) (Fin 20));
    vm_compute; reflexivity.
Defined.

Lemma calculate_totals_in_range_witness :
  let t := SalesManager.calculate_totals BUSINESS_CONFIG [two_milk; eggs] (Fin 10) in
  fle (Fin 0) (t_discount_amount t) = true
  /\ fle (t_discount_amount t) (t_subtotal t) = true
  /\ fle (Fin 0) (t_tax_amount t) = true
  /\ fle (Fin 0) (t_total_amount t) = true
  /\ fle (t_total_amount t)
         (t_total_amount
            (SalesManager.calculate_totals BUSINESS_CONFIG [two_milk; eggs] (Fin 0)))
     = true.
Proof.
  apply (calculate_totals_in_range (python := shop_interpreter)
           [two_milk; eggs] (Fin 10));
    vm_compute; reflexivity.
Defined.

Lemma process_sale_outage_reads_as_shortage_witness :
  let r := SalesManager.process_sale BUSINESS_CONFIG [two_milk; eggs] None None
             (Fin 0) "cash" None (set_faults [Some (pool_error "down")] shop) in
  result_of r = Return None
  /\ database (world_of r) = shelf
  /\ stdout (world_of r)
     = ["Error getting connection from pool: down";
        "Database error in fetch_one: down"; "Error checking stock: down";
        "Insufficient stock for Milk"].
Proof.
  apply (process_sale_outage_reads_as_shortage (python := shop_interpreter)
           BUSINESS_CONFIG two_milk [eggs] None None (Fin 0) "cash" None
           (set_faults [Some (pool_error "down")] shop) (pool_error "down") []).
  reflexivity.
Defined.

Lemma ledger_in_step_while_driver_works_witness :
  in_step (database (after_all quiet_day shop)) = true.
Proof.
  apply (ledger_in_step_while_driver_works (python := shop_interpreter)
           quiet_day shop);
    reflexivity.
Defined.
